(** * EVTOL news ingestion: a shallow embedding of the cron job's control core

    The development follows the TypeScript sources:
    - [utils/duplicateTracker.ts]  (class [DuplicateTracker]),
    - [services/jobyAviationService.ts] (class [JobyAviationService]),
    - [services/techcrunchService.ts], [services/betaTechnologiesService.ts],
      [services/archerAviationService.ts]
      (the sibling adapters, where they differ from Joby's),
    - [index.ts] ([runService], [runAllServices], [main]).

    Asynchronous code is sequential here ([await] on every call), so a
    promise is modelled by the computation it stands for.  A computation
    reads and updates a [World] (the Supabase tables, the Puppeteer handles,
    the tracker object), may throw a JavaScript value, and emits the
    observable effects it performs (delays, queries, navigation) in program
    order.  What the outside world answers is fixed by an [Env]. *)

From stdpp Require Import gmap strings list pretty.
From Stdlib Require Import ZArith Lia Ascii.

(** ** JavaScript values the code inspects *)

Module Js.

(** [a || d] on a number that may be [null]/[undefined]: [0] is falsy too. *)
Definition or_num (a : option Z) (d : Z) : Z :=
  match a with
  | Some n => if (n =? 0)%Z then d else n
  | None => d
  end.

(** [a || d] on a string that may be [undefined]: the empty string is falsy. *)
Definition or_str (a : option string) (d : string) : string :=
  match a with
  | Some s => if String.eqb s "" then d else s
  | None => d
  end.

(** [hay.includes(needle)] *)
Fixpoint includes (needle hay : string) : bool :=
  String.prefix needle hay ||
  match hay with
  | EmptyString => false
  | String _ rest => includes needle rest
  end.

(** [s.toLowerCase()] for a text of the ASCII range: the letters A to Z
    are lowered and nothing else changes.  What the method does to other
    letters is in the engine's Unicode tables, which are no part of the
    repository: the adapters take the method from the [Env] (field
    [toLowerCase]), and the text helpers take it as a parameter.  This
    function is the method on ASCII text; [Index.main] applies it to
    SERVICE_NAME, and the example environments use it on ASCII texts. *)
Definition lower_ascii (c : ascii) : ascii :=
  let n := Ascii.N_of_ascii c in
  if ((65 <=? n) && (n <=? 90))%N then Ascii.ascii_of_N (n + 32) else c.

Fixpoint toLowerCase (s : string) : string :=
  match s with
  | EmptyString => EmptyString
  | String c rest => String (lower_ascii c) (toLowerCase rest)
  end.

(** A string holds the UTF-8 encoding of a JavaScript string's text.
    [codePoints] reads the code points back: one to four bytes each; a
    byte that starts no well-formed sequence is read as U+FFFD. *)
Definition byte (c : ascii) : N := Ascii.N_of_ascii c.

Definition is_cont (c : ascii) : bool := ((128 <=? byte c) && (byte c <? 192))%N.

Definition two_bytes (c1 c2 : ascii) : option N :=
  if ((194 <=? byte c1) && (byte c1 <? 224))%N && is_cont c2
  then Some ((byte c1 - 192) * 64 + (byte c2 - 128))%N
  else None.

Definition three_bytes (c1 c2 c3 : ascii) : option N :=
  let cp := ((byte c1 - 224) * 4096 + (byte c2 - 128) * 64 + (byte c3 - 128))%N in
  if ((224 <=? byte c1) && (byte c1 <? 240))%N && is_cont c2 && is_cont c3 &&
     (2048 <=? cp)%N
  then Some cp else None.

Definition four_bytes (c1 c2 c3 c4 : ascii) : option N :=
  let cp := ((byte c1 - 240) * 262144 + (byte c2 - 128) * 4096 +
             (byte c3 - 128) * 64 + (byte c4 - 128))%N in
  if ((240 <=? byte c1) && (byte c1 <? 248))%N && is_cont c2 && is_cont c3 && is_cont c4 &&
     (65536 <=? cp)%N && (cp <=? 1114111)%N
  then Some cp else None.

Fixpoint codePoints (s : string) : list N :=
  match s with
  | EmptyString => []
  | String c1 r1 =>
      if (byte c1 <? 128)%N then byte c1 :: codePoints r1
      else
        match r1 with
        | EmptyString => [65533%N]
        | String c2 r2 =>
            match two_bytes c1 c2 with
            | Some cp => cp :: codePoints r2
            | None =>
                match r2 with
                | EmptyString => 65533%N :: codePoints r1
                | String c3 r3 =>
                    match three_bytes c1 c2 c3 with
                    | Some cp => cp :: codePoints r3
                    | None =>
                        match r3 with
                        | EmptyString => 65533%N :: codePoints r1
                        | String c4 r4 =>
                            match four_bytes c1 c2 c3 c4 with
                            | Some cp => cp :: codePoints r4
                            | None => 65533%N :: codePoints r1
                            end
                        end
                    end
                end
            end
        end
  end.

(** The code points that [trim()] removes and that [\s] matches: the
    WhiteSpace and LineTerminator productions of ECMAScript (TAB, LF, VT,
    FF, CR, SPACE, NO-BREAK SPACE, U+1680, U+2000 to U+200A, U+2028,
    U+2029, U+202F, U+205F, U+3000, U+FEFF). *)
Definition whiteSpace : list N :=
  [9; 10; 11; 12; 13; 32; 160; 5760;
   8192; 8193; 8194; 8195; 8196; 8197; 8198; 8199; 8200; 8201; 8202;
   8232; 8233; 8239; 8287; 12288; 65279]%N.

Definition is_space (cp : N) : bool := existsb (N.eqb cp) whiteSpace.

Definition all_space (cps : list N) : bool := forallb is_space cps.

(** [s.trim().length === 0] *)
Definition trim_is_empty (s : string) : bool := all_space (codePoints s).

(** A thrown value, with the properties the handlers read:
    [e instanceof Error], [e.statusCode], [e.message], [e.body.retry_after],
    [e.body.detail]. *)
Record Error := mkError {
  instanceofError : bool;
  statusCode : option Z;
  message : option string;
  retry_after : option Z;
  detail : option string
}.

(** [new Error(msg)] *)
Definition newError (msg : string) : Error :=
  {| instanceofError := true; statusCode := None; message := Some msg;
     retry_after := None; detail := None |}.

(** A value interpolated in a template literal. *)
Definition show_opt (s : option string) : string := default "undefined" s.

End Js.

(** ** Data *)

(** [JobyNewsArticle], the reference produced by enumeration. *)
Record Article := mkArticle {
  a_url : string;
  a_title : string;
  a_publishedDate : string;
  a_category : string
}.

(** [JobyNewsContent], the payload of one fetched page. *)
Record Content := mkContent {
  c_title : string;
  c_content : string;
  c_tags : option (list string)
}.

(** An embedding vector.  Its components are doubles in the source; no
    branch of the code looks at them, and they are carried as integers. *)
Definition Embedding : Type := list Z.

(** [NewsData]: the columns that some branch of the code computes.  The
    remaining columns are constants or copies of fetched fields. *)
Record NewsData := mkNewsData {
  url : string;
  title : string;
  content : string;
  source : string;
  news_type : string;
  article_category : string;
  sentiment : string
}.

(** A stored row: the document and its embedding column. *)
Record Row := mkRow {
  r_data : NewsData;
  r_embedding : Embedding
}.

Definition r_url (r : Row) : string := url (r_data r).

(** [DuplicateTracker]'s fields. *)
Record Tracker := mkTracker {
  consecutiveDuplicates : Z;
  maxConsecutiveDuplicates : Z;
  tableName : string
}.

(** The mutable state a run works on. *)
Record World := mkWorld {
  tables : gmap string (list Row);   (* Supabase: table name to rows *)
  newsBrowser : bool;                (* a launched browser is held *)
  newsPage : bool;                   (* a page of that browser is held *)
  tracker : Tracker;                 (* the run's DuplicateTracker object *)
  embedCalls : nat                   (* calls made to the embedding provider *)
}.

Inductive DelayKind := Pacing | Backoff | RetryAfter | InterItem | InterService | Settle.

(** Effects visible from outside, in the order they happen. *)
Inductive Event :=
| EvDelay (k : DelayKind) (ms : Z)
| EvExists (table url : string)
| EvFetch (url : string)
| EvEmbed (text : string)
| EvInsert (table url : string)
| EvUpsert (table url : string)
| EvLaunch
| EvGoto (category : string)
| EvClosePage
| EvCloseBrowser
| EvStarted (service : string)
| EvCompleted (service : string)
| EvInfo (what : string)
| EvWarn (what : string)
| EvError (what : string).

Inductive Res (A : Type) :=
| Ok (a : A)
| Throw (e : Js.Error).
Arguments Ok {A} a.
Arguments Throw {A} e.

(** What the collaborators answer.  A [Some e]/[Throw e] answer is a
    rejected promise. *)
Record Env := mkEnv {
  query_rejects : string -> string -> option Js.Error;  (* count query on table, url *)
  query_errors : string -> string -> bool;     (* the query is answered {count: null, error} *)
  url_unique : string -> bool;                 (* the table has a unique index on url *)
  write_rejects : string -> string -> option Js.Error;  (* insert/upsert on table, url *)
  embed_answer : nat -> string -> Res (option Embedding);  (* n-th call of voyageai.embed *)
  launch_answer : option Js.Error;             (* puppeteer.launch *)
  newPage_answer : option Js.Error;            (* browser.newPage; the page set-up after it is taken to succeed *)
  goto_answer : string -> option Js.Error;     (* page.goto, per category tab *)
  select_answer : string -> option Js.Error;   (* selectNewsCategory's evaluate *)
  extract_answer : string -> Res (list Article);   (* extractNewsArticles *)
  fetch_answer : string -> option Content;     (* fetchArticleContentDirect: null on any failure *)
  closePage_answer : option Js.Error;          (* page.close *)
  closeBrowser_answer : option Js.Error;       (* browser.close *)
  toLowerCase : string -> string               (* String.prototype.toLowerCase, the engine's *)
}.

(** ** Computations: state, exceptions, emitted effects *)

Definition M (A : Type) : Type := World -> Res A * World * list Event.

Definition ret {A} (a : A) : M A := fun w => (Ok a, w, []).

Definition throw {A} (e : Js.Error) : M A := fun w => (Throw e, w, []).

Definition bind {A B} (m : M A) (k : A -> M B) : M B := fun w =>
  match m w with
  | (Ok a, w1, t1) => let '(r, w2, t2) := k a w1 in (r, w2, t1 ++ t2)
  | (Throw e, w1, t1) => (Throw e, w1, t1)
  end.

(** [try { m } catch (e) { h e }] *)
Definition try_catch {A} (m : M A) (h : Js.Error -> M A) : M A := fun w =>
  match m w with
  | (Ok a, w1, t1) => (Ok a, w1, t1)
  | (Throw e, w1, t1) => let '(r, w2, t2) := h e w1 in (r, w2, t1 ++ t2)
  end.

(** [try { m } finally { f }]: [f] runs on both exits; its own exception
    replaces the outcome of [m]. *)
Definition try_finally {A} (m : M A) (f : M unit) : M A := fun w =>
  let '(r, w1, t1) := m w in
  match f w1 with
  | (Ok _, w2, t2) => (r, w2, t1 ++ t2)
  | (Throw e, w2, t2) => (Throw e, w2, t1 ++ t2)
  end.

Definition emit (e : Event) : M unit := fun w => (Ok tt, w, [e]).
Definition get : M World := fun w => (Ok w, w, []).
Definition modify (f : World -> World) : M unit := fun w => (Ok tt, f w, []).

(** A promise that rejects with [e] when the collaborator says so. *)
Definition settle (a : option Js.Error) : M unit :=
  match a with
  | Some e => throw e
  | None => ret tt
  end.

Definition of_res {A} (r : Res A) : M A :=
  match r with
  | Ok a => ret a
  | Throw e => throw e
  end.

Declare Scope js_scope.
Delimit Scope js_scope with js.
Notation "'let*' x ':=' m 'in' k" := (bind m (fun x => k))
  (at level 10, x name, m at level 100, k at level 200) : js_scope.
Notation "'do*' m 'in' k" := (bind m (fun _ => k))
  (at level 10, m at level 100, k at level 200) : js_scope.
Open Scope js_scope.

(** [await this.delay(ms)] *)
Definition delay (k : DelayKind) (ms : Z) : M unit := emit (EvDelay k ms).

Definition set_tracker (t : Tracker) (w : World) : World :=
  {| tables := tables w; newsBrowser := newsBrowser w; newsPage := newsPage w;
     tracker := t; embedCalls := embedCalls w |}.

Definition set_tables (d : gmap string (list Row)) (w : World) : World :=
  {| tables := d; newsBrowser := newsBrowser w; newsPage := newsPage w;
     tracker := tracker w; embedCalls := embedCalls w |}.

Definition set_browser (b p : bool) (w : World) : World :=
  {| tables := tables w; newsBrowser := b; newsPage := p;
     tracker := tracker w; embedCalls := embedCalls w |}.

Definition bump_embedCalls (w : World) : World :=
  {| tables := tables w; newsBrowser := newsBrowser w; newsPage := newsPage w;
     tracker := tracker w; embedCalls := S (embedCalls w) |}.

(** ** The store (Supabase) *)

Module Store.
Section WithEnv.
Variable env : Env.

Definition rows_with (url : string) (rows : list Row) : list Row :=
  filter (fun r => r_url r = url) rows.

(** [supabase.from(t).select('*', {count:'exact', head:true}).eq('url', url)]:
    resolves to the number of matching rows; [count] is [null] when the
    server answers an error (as it does when there is no such table); the
    promise rejects when the request itself fails. *)
Definition count_by_url (table url : string) : M (option Z) :=
  do* emit (EvExists table url) in
  do* settle (query_rejects env table url) in
  let* w := get in
  ret (if query_errors env table url then None
       else match tables w !! table with
            | Some rows => Some (Z.of_nat (length (rows_with url rows)))
            | None => None
            end).

(** The error object PostgREST answers with: a plain object with a
    [message], not an [Error] instance. *)
Definition pg_error (msg : string) : Js.Error :=
  {| Js.instanceofError := false; Js.statusCode := None; Js.message := Some msg;
     Js.retry_after := None; Js.detail := None |}.

Definition unique_violation : Js.Error :=
  pg_error "duplicate key value violates unique constraint".
Definition no_relation : Js.Error := pg_error "relation does not exist".
Definition no_conflict_target : Js.Error :=
  pg_error "there is no unique or exclusion constraint matching the ON CONFLICT specification".

(** [supabase.from(t).insert([row]).select('id').single()]: resolves to
    [{data, error}]; [inl id] stands for [{data: {id}, error: null}] and
    [inr e] for [{data: null, error: e}]. *)
Definition insert (table : string) (row : Row) : M (nat + Js.Error) :=
  do* emit (EvInsert table (r_url row)) in
  do* settle (write_rejects env table (r_url row)) in
  let* w := get in
  match tables w !! table with
  | None => ret (inr no_relation)
  | Some rows =>
      if url_unique env table && bool_decide (rows_with (r_url row) rows <> [])
      then ret (inr unique_violation)
      else do* modify (set_tables (<[table := rows ++ [row]]> (tables w))) in
           ret (inl (length rows))
  end.

(** [supabase.from(t).upsert(row, {onConflict:'url', ignoreDuplicates:false})
    .select().single()]: the row with that url is replaced, or the row is
    appended; the conflict target needs the unique index. *)
Definition upsert (table : string) (row : Row) : M (nat + Js.Error) :=
  do* emit (EvUpsert table (r_url row)) in
  do* settle (write_rejects env table (r_url row)) in
  let* w := get in
  match tables w !! table with
  | None => ret (inr no_relation)
  | Some rows =>
      if negb (url_unique env table) then ret (inr no_conflict_target)
      else if bool_decide (rows_with (r_url row) rows <> [])
      then do* modify (set_tables
                 (<[table := (fun r => if bool_decide (r_url r = r_url row) then row else r) <$> rows]>
                    (tables w))) in
           ret (inl 0%nat)
      else do* modify (set_tables (<[table := rows ++ [row]]> (tables w))) in
           ret (inl (length rows))
  end.

End WithEnv.

(** No two rows of a table share a url. *)
Definition urls_unique (rows : list Row) : Prop := NoDup (r_url <$> rows).

End Store.

(** ** utils/duplicateTracker.ts *)

Module DuplicateTracker.

Record CheckResult := mkCheck { isDuplicate : bool; shouldStop : bool }.

(** [new DuplicateTracker(maxConsecutiveDuplicates = 5, tableName = 'news')] *)
Definition new (maxDup : option Z) (table : option string) : Tracker :=
  {| consecutiveDuplicates := 0;
     maxConsecutiveDuplicates := default 5%Z maxDup;
     tableName := default "news" table |}.

(** [this.consecutiveDuplicates = n] *)
Definition with_count (t : Tracker) (n : Z) : Tracker :=
  {| consecutiveDuplicates := n;
     maxConsecutiveDuplicates := maxConsecutiveDuplicates t;
     tableName := tableName t |}.

(** The body of [processCheck] once [isDuplicate] is known: the tracker
    as the call leaves it, and the answer. *)
Definition observe (t : Tracker) (isDup : bool) : Tracker * CheckResult :=
  if isDup then
    let t' := with_count t (consecutiveDuplicates t + 1) in
    if (maxConsecutiveDuplicates t' <=? consecutiveDuplicates t')%Z
    then (t', {| isDuplicate := true; shouldStop := true |})
    else (t', {| isDuplicate := isDup; shouldStop := false |})
  else
    (with_count t 0, {| isDuplicate := isDup; shouldStop := false |}).

(** Successive calls of [processCheck] on one tracker, given what
    [checkDuplicate] answered each time: the tracker after the last call
    and the answers in order. *)
Fixpoint feed (t : Tracker) (checks : list bool) : Tracker * list CheckResult :=
  match checks with
  | [] => (t, [])
  | b :: rest =>
      let '(t1, r) := observe t b in
      let '(t2, rs) := feed t1 rest in
      (t2, r :: rs)
  end.



Section WithEnv.
Variable env : Env.

(** [checkDuplicate(url)] *)
Definition checkDuplicate (url : string) : M bool :=
  try_catch
    (let* w := get in
     let* count := Store.count_by_url env (tableName (tracker w)) url in
     ret (0 <? Js.or_num count 0)%Z)
    (fun error =>
       do* emit (EvWarn "Failed to check if record exists") in
       ret false).

(** [processCheck(url)] *)
Definition processCheck (url : string) : M CheckResult :=
  let* isDup := checkDuplicate url in
  let* w := get in
  let '(t, answer) := observe (tracker w) isDup in
  do* modify (set_tracker t) in
  ret answer.

End WithEnv.

(** [reset()] *)
Definition reset : M unit := modify (fun w => set_tracker (with_count (tracker w) 0) w).

(** [getConsecutiveCount()] *)
Definition getConsecutiveCount : M Z :=
  let* w := get in ret (consecutiveDuplicates (tracker w)).

(** [shouldStop()], the method *)
Definition shouldStopNow : M bool :=
  let* w := get in
  ret (maxConsecutiveDuplicates (tracker w) <=? consecutiveDuplicates (tracker w))%Z.

End DuplicateTracker.

(** ** services/jobyAviationService.ts *)

Module Joby.

Record ProcessResult := mkProcess { processed : bool; isDuplicate : bool }.

(** An entry of [allProcessedDocuments]. *)
Record Doc := mkDoc {
  d_url : string;
  d_title : string;
  d_category : string;
  d_publishedDate : string
}.

(** An entry of [categoryResults]. *)
Record CategoryResult := mkCategoryResult {
  cr_category : string;
  cr_total : Z;
  cr_processed : Z;
  cr_skipped : Z;
  cr_failed : Z
}.

(** [jobySummary] *)
Record Summary := mkSummary {
  s_success : bool;
  s_company : string;
  s_totalDocuments : Z;
  s_processed : Z;
  s_skipped : Z;
  s_failed : Z;
  s_stoppedEarly : bool;
  s_consecutiveDuplicates : Z;
  s_categoryResults : list CategoryResult;
  s_documents : list Doc
}.

Definition positiveWords : list string :=
  ["success"; "achievement"; "milestone"; "demonstration"; "partnership";
   "innovation"; "breakthrough"].

Definition negativeWords : list string :=
  ["challenge"; "delay"; "issue"; "concern"; "risk"].

(** [words.filter(word => lowerContent.includes(word)).length] *)
Definition matched (words : list string) (lowerContent : string) : nat :=
  length (List.filter (fun word => Js.includes word lowerContent) words).

(** [analyzeSentiment(content)]; [toLowerCase] is the string method. *)
Section Sentiment.
Variable toLowerCase : string -> string.

Definition positiveCount (content : string) : nat :=
  matched positiveWords (toLowerCase content).

Definition negativeCount (content : string) : nat :=
  matched negativeWords (toLowerCase content).

Definition analyzeSentiment (content : string) : string :=
  if (negativeCount content <? positiveCount content)%nat then "positive"
  else if (positiveCount content <? negativeCount content)%nat then "negative"
  else "neutral".

End Sentiment.

(** [error?.statusCode === 429 || error?.message?.includes('429')] *)
Definition is_rate_limit (error : Js.Error) : bool :=
  match Js.statusCode error with
  | Some c => (c =? 429)%Z
  | None => false
  end ||
  match Js.message error with
  | Some m => Js.includes "429" m
  | None => false
  end.

(** [Math.min(20000 * Math.pow(2, attempt - 1), 60000)] *)
Definition backoffDelay (attempt : Z) : Z :=
  Z.min (20000 * 2 ^ (attempt - 1)) 60000.

Definition rate_limit_message (maxRetries : Z) (error : Js.Error) : string :=
  "Rate limit exceeded after " +:+ pretty maxRetries +:+ " attempts. " +:+
  Js.or_str (Js.detail error) (Js.show_opt (Js.message error)).

Definition exhausted_message : string :=
  "Failed to generate embedding after all retries".

(** The two ways an iteration of the retry loop hands control on. *)
Inductive Step (A : Type) :=
| Return (a : A)
| Continue (attempt : Z).
Arguments Return {A} a.
Arguments Continue {A} attempt.

Section WithEnv.
Variable env : Env.

(** [voyageai.embed({input: [content], model})], then
    [response.data?.[0]?.embedding] *)
Definition voyage_embed (text : string) : M (option Embedding) :=
  do* emit (EvEmbed text) in
  let* w := get in
  do* modify bump_embedCalls in
  of_res (embed_answer env (embedCalls w) text).

(** One iteration of the [while] loop of [generateEmbedding]. *)
Definition generateEmbedding_body (text : string) (maxRetries attempt : Z)
  : M (Step Embedding) :=
  try_catch
    (do* (if (0 <? attempt)%Z then delay Backoff (backoffDelay attempt)
          else delay Pacing 20000) in
     let* response := voyage_embed text in
     ret (Return (default [] response)))
    (fun error =>
       let attempt := (attempt + 1)%Z in
       if is_rate_limit error then
         if (attempt <? maxRetries)%Z then
           do* emit (EvWarn "Rate limit hit (429)") in
           do* delay RetryAfter (Js.or_num (Js.retry_after error) 20 * 1000) in
           ret (Continue attempt)
         else
           do* emit (EvError "Rate limit error after max retries") in
           throw (Js.newError (rate_limit_message maxRetries error))
       else
         do* emit (EvError "Error generating embedding") in
         throw error).

(** The loop.  [fuel] bounds the iterations; [generateEmbedding] passes as
    many as the loop can take, since [attempt] grows by one per iteration. *)
Fixpoint generateEmbedding_loop (fuel : nat) (text : string) (maxRetries attempt : Z)
  : M Embedding :=
  if (attempt <? maxRetries)%Z then
    match fuel with
    | O => throw (Js.newError "unreachable")
    | S fuel' =>
        let* step := generateEmbedding_body text maxRetries attempt in
        match step with
        | Return v => ret v
        | Continue attempt' => generateEmbedding_loop fuel' text maxRetries attempt'
        end
    end
  else throw (Js.newError exhausted_message).

(** [generateEmbedding(content, retries = 3)] *)
Definition generateEmbedding (text : string) (retries : option Z) : M Embedding :=
  let maxRetries := default 3%Z retries in
  generateEmbedding_loop (Z.to_nat maxRetries) text maxRetries 0.

(** [recordExists(url)] *)
Definition recordExists (u : string) : M bool :=
  try_catch
    (let* count := Store.count_by_url env "news" u in
     ret (0 <? Js.or_num count 0)%Z)
    (fun error =>
       do* emit (EvWarn "Failed to check if record exists") in
       ret false).

(** [storeNews(newsData, embedding)] *)
Definition storeNews (newsData : NewsData) (embedding : Embedding) : M nat :=
  try_catch
    (let* answer := Store.insert env "news"
                      {| r_data := newsData; r_embedding := embedding |} in
     match answer with
     | inr error =>
         do* emit (EvError "Error storing news") in
         throw error
     | inl id => ret id
     end)
    (fun error =>
       do* emit (EvError "Error storing news") in
       throw error).

(** [initializeNewsBrowser()] *)
Definition initializeNewsBrowser : M unit :=
  try_catch
    (do* emit EvLaunch in
     do* settle (launch_answer env) in
     do* modify (fun w => set_browser true (newsPage w) w) in
     do* settle (newPage_answer env) in
     modify (fun w => set_browser (newsBrowser w) true w))
    (fun error =>
       do* emit (EvError "Failed to initialize news browser") in
       throw error).

(** [cleanupNewsBrowser()] *)
Definition cleanupNewsBrowser : M unit :=
  try_catch
    (let* w := get in
     do* (if newsPage w then
            do* emit EvClosePage in
            do* settle (closePage_answer env) in
            modify (fun w => set_browser (newsBrowser w) false w)
          else ret tt) in
     let* w := get in
     if newsBrowser w then
       do* emit EvCloseBrowser in
       do* settle (closeBrowser_answer env) in
       modify (fun w => set_browser false (newsPage w) w)
     else ret tt)
    (fun error => emit (EvError "Error during news browser cleanup")).

(** [fetchArticleContentDirect(url)]: the scraping of the page is the
    collaborator's; every failure inside ends in [null]. *)
Definition fetchArticleContentDirect (u : string) : M (option Content) :=
  try_catch
    (let* w := get in
     do* (if newsPage w then ret tt else initializeNewsBrowser) in
     do* emit (EvFetch u) in
     ret (fetch_answer env u))
    (fun error =>
       do* emit (EvError "Failed to fetch content") in
       ret None).

(** The [articleCategory]/[newsType] pair chosen from the url. *)
Definition contentType (u : string) (category : option string) (fullContent : Content)
  : string * string :=
  if Js.includes "/blog/" u then ("blog_post", "blog_post")
  else if Js.includes "/news/" u then
    let isBlogPost :=
      bool_decide (category = Some "blog-posts") ||
      bool_decide (category = Some "blog_posts") ||
      match c_tags fullContent with
      | Some tags => existsb (fun tag => Js.includes "blog" (toLowerCase env tag)) tags
      | None => false
      end ||
      Js.includes "blog" (toLowerCase env (c_title fullContent)) in
    if isBlogPost then ("blog_post", "blog_post") else ("press_release", "press_release")
  else if Js.includes "/about/" u then ("company_overview", "company_overview")
  else if Js.includes "/careers/" u then ("careers", "announcement")
  else if Js.includes "ir.jobyaviation.com" u then ("investor_relations", "press_release")
  else ("press_release", "press_release").

Definition skip_duplicate : ProcessResult := {| processed := false; isDuplicate := true |}.
Definition not_processed : ProcessResult := {| processed := false; isDuplicate := false |}.
Definition stored : ProcessResult := {| processed := true; isDuplicate := false |}.

(** [processAndStoreDirectUrl(url, category?, duplicateTracker?)];
    [withTracker] says whether the tracker argument is given (it is then the
    world's tracker object).  An early [return] is the [inl] of the first
    step. *)
Definition processAndStoreDirectUrl (u : string) (category : option string)
    (withTracker : bool) : M ProcessResult :=
  try_catch
    (let* checked :=
       if withTracker then
         let* checkResult := DuplicateTracker.processCheck env u in
         if DuplicateTracker.shouldStop checkResult then ret (inl skip_duplicate)
         else ret (inr (DuplicateTracker.isDuplicate checkResult))
       else
         let* d := recordExists u in ret (inr d) in
     match checked with
     | inl result => ret result
     | inr true => ret skip_duplicate
     | inr false =>
         let* fetched := fetchArticleContentDirect u in
         match fetched with
         | None =>
             do* emit (EvWarn "Failed to fetch content") in
             ret not_processed
         | Some fullContent =>
             if String.eqb (c_title fullContent) "" && String.eqb (c_content fullContent) ""
             then ret not_processed
             else
               let '(articleCategory, newsType) := contentType u category fullContent in
               if String.eqb (c_content fullContent) "" ||
                  Js.trim_is_empty (c_content fullContent)
               then
                 do* emit (EvError "Cannot generate embedding: content is empty") in
                 ret not_processed
               else
                 let* embedding := generateEmbedding (c_content fullContent) None in
                 let newsData :=
                   {| url := u;
                      title := Js.or_str (Some (c_title fullContent)) "Joby Aviation Content";
                      content := c_content fullContent;
                      source := "joby_aviation";
                      news_type := newsType;
                      article_category := articleCategory;
                      sentiment :=
                        analyzeSentiment (toLowerCase env) (c_content fullContent) |} in
                 let* documentId := storeNews newsData embedding in
                 ret stored
         end
     end)
    (fun error =>
       do* emit (EvError "Failed to process URL") in
       ret not_processed).

(** [processAndStoreArticle(article, duplicateTracker?)] *)
Definition processAndStoreArticle (article : Article) (withTracker : bool)
  : M ProcessResult :=
  processAndStoreDirectUrl (a_url article) (Some (a_category article)) withTracker.

(** The counters of one category, with the two variables of the enclosing
    function that the article loop writes. *)
Record CategoryState := mkCategoryState {
  processedCount : Z;
  skippedCount : Z;
  failedCount : Z;
  allProcessedDocuments : list Doc;
  stoppedEarly : bool
}.

(** [for (const article of articles) { try { ... } catch { failedCount++ } }];
    [inl] is the [break]. *)
Fixpoint articles_loop (category : string) (articles : list Article)
    (st : CategoryState) : M CategoryState :=
  match articles with
  | [] => ret st
  | article :: rest =>
      let* next :=
        try_catch
          (let* result := processAndStoreArticle article true in
           let* stop := DuplicateTracker.shouldStopNow in
           if stop then
             ret (inl {| processedCount := processedCount st;
                         skippedCount := skippedCount st;
                         failedCount := failedCount st;
                         allProcessedDocuments := allProcessedDocuments st;
                         stoppedEarly := true |})
           else
             let st' :=
               if processed result then
                 {| processedCount := processedCount st + 1;
                    skippedCount := skippedCount st;
                    failedCount := failedCount st;
                    allProcessedDocuments :=
                      allProcessedDocuments st ++
                      [{| d_url := a_url article; d_title := a_title article;
                          d_category := category;
                          d_publishedDate := a_publishedDate article |}];
                    stoppedEarly := stoppedEarly st |}
               else
                 {| processedCount := processedCount st;
                    skippedCount := skippedCount st + 1;
                    failedCount := failedCount st;
                    allProcessedDocuments := allProcessedDocuments st;
                    stoppedEarly := stoppedEarly st |} in
             do* delay InterItem 2000 in
             ret (inr st'))
          (fun error =>
             do* emit (EvError "Failed to process article") in
             ret (inr {| processedCount := processedCount st;
                         skippedCount := skippedCount st;
                         failedCount := failedCount st + 1;
                         allProcessedDocuments := allProcessedDocuments st;
                         stoppedEarly := stoppedEarly st |})) in
      match next with
      | inl st' => ret st'
      | inr st' => articles_loop category rest st'
      end
  end.

(** The variables of [processJobySpecificData] that the category loop
    writes. *)
Record RunState := mkRunState {
  totalProcessed : Z;
  totalSkipped : Z;
  totalFailed : Z;
  documents : list Doc;
  run_stoppedEarly : bool;
  categoryResults : list CategoryResult
}.

(** [for (const category of categories) { ... }] *)
Fixpoint categories_loop (categories : list string) (rs : RunState) : M RunState :=
  match categories with
  | [] => ret rs
  | category :: rest =>
      do* emit (EvGoto category) in
      do* settle (goto_answer env category) in
      do* delay Settle 1000 in
      do* settle (select_answer env category) in
      let* articles := of_res (extract_answer env category) in
      let* st := articles_loop category articles
                   {| processedCount := 0; skippedCount := 0; failedCount := 0;
                      allProcessedDocuments := documents rs;
                      stoppedEarly := run_stoppedEarly rs |} in
      if stoppedEarly st then
        ret {| totalProcessed := totalProcessed rs;
               totalSkipped := totalSkipped rs;
               totalFailed := totalFailed rs;
               documents := allProcessedDocuments st;
               run_stoppedEarly := true;
               categoryResults := categoryResults rs |}
      else
        categories_loop rest
          {| totalProcessed := totalProcessed rs + processedCount st;
             totalSkipped := totalSkipped rs + skippedCount st;
             totalFailed := totalFailed rs + failedCount st;
             documents := allProcessedDocuments st;
             run_stoppedEarly := stoppedEarly st;
             categoryResults :=
               categoryResults rs ++
               [{| cr_category := category;
                   cr_total := Z.of_nat (length articles);
                   cr_processed := processedCount st;
                   cr_skipped := skippedCount st;
                   cr_failed := failedCount st |}] |}
  end.

(** [processJobySpecificData()] *)
Definition processJobySpecificData : M Summary :=
  try_catch
    (do* initializeNewsBrowser in
     do* modify (set_tracker (DuplicateTracker.new (Some 5%Z) (Some "news_duplicate"))) in
     let* rs := categories_loop ["press-releases"; "blog-posts"]
                  {| totalProcessed := 0; totalSkipped := 0; totalFailed := 0;
                     documents := []; run_stoppedEarly := false;
                     categoryResults := [] |} in
     do* cleanupNewsBrowser in
     let* count := DuplicateTracker.getConsecutiveCount in
     ret {| s_success := (0 <? totalProcessed rs)%Z;
            s_company := "Joby Aviation";
            s_totalDocuments := Z.of_nat (length (documents rs));
            s_processed := totalProcessed rs;
            s_skipped := totalSkipped rs;
            s_failed := totalFailed rs;
            s_stoppedEarly := run_stoppedEarly rs;
            s_consecutiveDuplicates := count;
            s_categoryResults := categoryResults rs;
            s_documents := documents rs |})
    (fun error =>
       do* emit (EvError "Failed to process Joby Aviation data") in
       throw error).

End WithEnv.
End Joby.

(** ** services/techcrunchService.ts: the per-article path *)

Module TechCrunch.

(** [TechCrunchContent], the fields the per-article path reads. *)
Record ArticleContent := mkArticleContent {
  tc_title : string;
  tc_rawHtml : string;
  tc_cleanText : string
}.

Definition positiveWords : list string :=
  ["success"; "achievement"; "milestone"; "partnership"; "innovation";
   "breakthrough"; "approval"; "raises"; "funding"].

Definition negativeWords : list string :=
  ["challenge"; "delay"; "issue"; "concern"; "risk"; "accident"; "crash";
   "shuts down"; "bankruptcy"].

(** [analyzeSentiment(content)]; [toLowerCase] is the string method. *)
Definition analyzeSentiment (toLowerCase : string -> string) (text : string) : string :=
  let positiveCount := Joby.matched positiveWords (toLowerCase text) in
  let negativeCount := Joby.matched negativeWords (toLowerCase text) in
  if (negativeCount <? positiveCount)%nat then "positive"
  else if (positiveCount <? negativeCount)%nat then "negative"
  else "neutral".

Section WithEnv.
Variable env : Env.
(** [fetchArticleContent(url)], the page scraping: the collaborator. *)
Variable fetchArticleContent : string -> M (option ArticleContent).

(** [processAndStoreArticle(article, companyName)].  [recordExists],
    [generateEmbedding] and [storeNews] have the text of Joby's. *)
Definition processAndStoreArticle (article : Article) (companyName : string) : M bool :=
  try_catch
    (let* exists_ := Joby.recordExists env (a_url article) in
     if exists_ then ret false
     else
       let* fetched := fetchArticleContent (a_url article) in
       match fetched with
       | None =>
           do* emit (EvWarn "Failed to fetch content") in
           ret false
       | Some fullContent =>
           if String.eqb (tc_rawHtml fullContent) "" ||
              Js.trim_is_empty (tc_rawHtml fullContent)
           then ret false
           else
             let* embedding :=
               try_catch
                 (Joby.generateEmbedding env (tc_cleanText fullContent) None)
                 (fun err =>
                    do* emit (EvWarn "Embedding generation failed, proceeding to store without embedding") in
                    ret []) in
             let newsData :=
               {| url := a_url article;
                  title := tc_title fullContent;
                  content := tc_rawHtml fullContent;
                  source := "techcrunch";
                  news_type := "news";
                  article_category := "industry_news";
                  sentiment :=
                    analyzeSentiment (toLowerCase env) (tc_cleanText fullContent) |} in
             let* documentId := Joby.storeNews env newsData embedding in
             ret true
       end)
    (fun error =>
       do* emit (EvError "Failed to process TechCrunch article") in
       ret false).

End WithEnv.
End TechCrunch.

(** ** services/betaTechnologiesService.ts *)

Module Beta.

(** [CrawledContent], the fields the storing path reads. *)
Record CrawledContent := mkCrawled {
  b_title : string;
  b_content : string;
  b_url : string
}.

Record Counts := mkCounts { processed : Z; skipped : Z; failed : Z }.

Definition URLs : list string :=
  ["https://beta.team/aircraft"; "https://beta.team/charge"; "https://beta.team/motor";
   "https://beta.team/battery"; "https://beta.team/flight-control-computers";
   "https://beta.team/flight-training"; "https://beta.team/stories"].

Section WithEnv.
Variable env : Env.
(** [crawlUrl(url)] and [categorizeContent(content).category]: the
    collaborators. *)
Variable crawlUrl : string -> M (option CrawledContent).
Variable categorizeContent : string -> string.

(** [recordExists(url, tableName)] *)
Definition recordExists (u tableName : string) : M bool :=
  try_catch
    (let* count := Store.count_by_url env tableName u in
     ret (0 <? Js.or_num count 0)%Z)
    (fun error =>
       do* emit (EvWarn "Failed to check if record exists") in
       ret false).

(** One iteration of the [while] loop of Beta's [generateEmbedding]: the
    handler falls through to the next iteration, or returns []. *)
Definition generateEmbedding_body (text : string) (maxRetries attempt : Z)
  : M (Joby.Step Embedding) :=
  try_catch
    (do* (if (0 <? attempt)%Z then delay Backoff (Joby.backoffDelay attempt)
          else delay Pacing 2000) in
     let* response := Joby.voyage_embed env text in
     ret (Joby.Return (default [] response)))
    (fun error =>
       let attempt := (attempt + 1)%Z in
       if Joby.is_rate_limit error && (attempt <? maxRetries)%Z then
         do* emit (EvWarn "Rate limit hit (429)") in
         do* delay RetryAfter (Js.or_num (Js.retry_after error) 20 * 1000) in
         ret (Joby.Continue attempt)
       else if (maxRetries <=? attempt)%Z then
         do* emit (EvError "Failed to generate embedding after all retries") in
         ret (Joby.Return [])
       else ret (Joby.Continue attempt)).

Fixpoint generateEmbedding_loop (fuel : nat) (text : string) (maxRetries attempt : Z)
  : M Embedding :=
  if (attempt <? maxRetries)%Z then
    match fuel with
    | O => throw (Js.newError "unreachable")
    | S fuel' =>
        let* step := generateEmbedding_body text maxRetries attempt in
        match step with
        | Joby.Return v => ret v
        | Joby.Continue attempt' => generateEmbedding_loop fuel' text maxRetries attempt'
        end
    end
  else ret [].

(** [generateEmbedding(content, retries = 3)] *)
Definition generateEmbedding (text : string) (retries : option Z) : M Embedding :=
  let maxRetries := default 3%Z retries in
  generateEmbedding_loop (Z.to_nat maxRetries) text maxRetries 0.

Definition table_of (category : string) : string :=
  if String.eqb category "aircraft_info" then "aircraft_info"
  else if String.eqb category "company_info" then "company_info"
  else if String.eqb category "pilot_training" then "pilot_training"
  else "news".

(** [storeInDatabase(content, category)] *)
Definition storeInDatabase (c : CrawledContent) (category : string)
  : M Joby.ProcessResult :=
  try_catch
    (let tableName := table_of category in
     let* exists_ := recordExists (b_url c) tableName in
     if exists_ then ret Joby.skip_duplicate
     else
       let* embedding := generateEmbedding (b_content c) None in
       let documentData :=
         {| r_data := {| url := b_url c; title := b_title c; content := b_content c;
                         source := "Beta Technologies"; news_type := "";
                         article_category := ""; sentiment := "" |};
            r_embedding := embedding |} in
       let* answer := Store.upsert env tableName documentData in
       match answer with
       | inr error =>
           do* emit (EvError "Failed to store document") in
           ret Joby.not_processed
       | inl _ => ret Joby.stored
       end)
    (fun error =>
       do* emit (EvError "Failed to store document in database") in
       ret Joby.not_processed).

(** [processAndStoreUrl(url)] *)
Definition processAndStoreUrl (u : string) : M Joby.ProcessResult :=
  try_catch
    (let* crawled := crawlUrl u in
     match crawled with
     | None => ret Joby.not_processed
     | Some c => storeInDatabase c (categorizeContent (b_content c))
     end)
    (fun error =>
       do* emit (EvError "Failed to process URL") in
       ret Joby.not_processed).

(** [for (const url of this.URLs) { try { ... } catch { failed++ } }];
    [inl] is the [break]. *)
Fixpoint urls_loop (urls : list string) (n : Counts) : M Counts :=
  match urls with
  | [] => ret n
  | u :: rest =>
      let* next :=
        try_catch
          (let* checkResult := DuplicateTracker.processCheck env u in
           if DuplicateTracker.isDuplicate checkResult then
             let n' := {| processed := processed n; skipped := skipped n + 1;
                          failed := failed n |} in
             let* stop := DuplicateTracker.shouldStopNow in
             if stop then ret (inl n') else ret (inr n')
           else
             let* result := processAndStoreUrl u in
             let n' :=
               if Joby.processed result then
                 {| processed := processed n + 1; skipped := skipped n; failed := failed n |}
               else if Joby.isDuplicate result then
                 {| processed := processed n; skipped := skipped n + 1; failed := failed n |}
               else
                 {| processed := processed n; skipped := skipped n; failed := failed n + 1 |} in
             do* delay InterItem 2000 in
             ret (inr n'))
          (fun error =>
             do* emit (EvError "Error processing URL") in
             ret (inr {| processed := processed n; skipped := skipped n;
                         failed := failed n + 1 |})) in
      match next with
      | inl n' => ret n'
      | inr n' => urls_loop rest n'
      end
  end.

(** [processBetaSpecificData()].  [initializeBrowser] and [cleanupBrowser]
    have the text of Joby's [initializeNewsBrowser] and
    [cleanupNewsBrowser], on the fields [browser] and [page]. *)
Definition processBetaSpecificData : M Counts :=
  try_finally
    (try_catch
       (do* Joby.initializeNewsBrowser env in
        urls_loop URLs {| processed := 0; skipped := 0; failed := 0 |})
       (fun error =>
          do* emit (EvError "Beta Technologies Service Failed") in
          throw error))
    (Joby.cleanupNewsBrowser env).

End WithEnv.
End Beta.

(** ** services/archerAviationService.ts

    The sibling adapter.  Its [recordExists], [generateEmbedding],
    [storeNews], [initializeNewsBrowser] and [cleanupNewsBrowser] have the
    text of Joby's; it reads one listing and keeps one set of counters. *)

Module Archer.

(** [ArcherNewsArticle] *)
Record NewsArticle := mkNewsArticle {
  n_url : string;
  n_title : string;
  n_category : string
}.

(** [ArcherNewsContent] *)
Record NewsContent := mkNewsContent {
  nc_title : string;
  nc_rawHtml : string;
  nc_cleanText : string;
  nc_category : string
}.

(** An entry of [allProcessedDocuments]. *)
Record Doc := mkDoc {
  d_url : string;
  d_title : string;
  d_category : string
}.

(** [archerSummary] *)
Record Summary := mkSummary {
  s_success : bool;
  s_company : string;
  s_totalDocuments : Z;
  s_totalArticles : Z;
  s_processed : Z;
  s_skipped : Z;
  s_failed : Z;
  s_stoppedEarly : bool;
  s_consecutiveDuplicates : Z;
  s_documents : list Doc
}.

Definition NEWS_BASE_URL : string := "https://news.archer.com/".

Definition positiveWords : list string :=
  ["success"; "achievement"; "milestone"; "partnership"; "innovation";
   "breakthrough"; "approval"].

Definition negativeWords : list string :=
  ["challenge"; "delay"; "issue"; "concern"; "risk"].

(** [analyzeSentiment(content)]; [toLowerCase] is the string method. *)
Definition analyzeSentiment (toLowerCase : string -> string) (content : string) : string :=
  let positiveCount := Joby.matched positiveWords (toLowerCase content) in
  let negativeCount := Joby.matched negativeWords (toLowerCase content) in
  if (negativeCount <? positiveCount)%nat then "positive"
  else if (positiveCount <? negativeCount)%nat then "negative"
  else "neutral".

(** The counters of [processArcherSpecificData] that the article loop
    writes. *)
Record LoopState := mkLoopState {
  processedCount : Z;
  skippedCount : Z;
  failedCount : Z;
  allProcessedDocuments : list Doc;
  stoppedEarly : bool
}.

Section WithEnv.
Variable env : Env.
(** [fetchArticleContentDirect(url)], the page scraping, and the outcome
    of [extractNewsArticles('All')]: the collaborators. *)
Variable fetchArticleContentDirect : string -> M (option NewsContent).
Variable extractNewsArticles : Res (list NewsArticle).

(** [processAndStoreArticle(article, duplicateTracker?)]; an early
    [return] is the [inl] of the first step. *)
Definition processAndStoreArticle (article : NewsArticle) (withTracker : bool)
  : M Joby.ProcessResult :=
  try_catch
    (let* checked :=
       if withTracker then
         let* checkResult := DuplicateTracker.processCheck env (n_url article) in
         if DuplicateTracker.shouldStop checkResult then ret (inl Joby.skip_duplicate)
         else ret (inr (DuplicateTracker.isDuplicate checkResult))
       else
         let* d := Joby.recordExists env (n_url article) in ret (inr d) in
     match checked with
     | inl result => ret result
     | inr true => ret Joby.skip_duplicate
     | inr false =>
         let* fetched := fetchArticleContentDirect (n_url article) in
         match fetched with
         | None =>
             do* emit (EvWarn "Failed to fetch content") in
             ret Joby.not_processed
         | Some fullContent =>
             if String.eqb (nc_rawHtml fullContent) "" ||
                Js.trim_is_empty (nc_rawHtml fullContent)
             then
               do* emit (EvWarn "No meaningful content found") in
               ret Joby.not_processed
             else
               let categoryLower := toLowerCase env (nc_category fullContent) in
               let newsType :=
                 if Js.includes "blog" categoryLower then "blog_post"
                 else if Js.includes "news" categoryLower then "news"
                 else "press_release" in
               let* embedding :=
                 Joby.generateEmbedding env (nc_cleanText fullContent) None in
               let newsData :=
                 {| url := n_url article;
                    title := nc_title fullContent;
                    content := nc_rawHtml fullContent;
                    source := "archer_aviation";
                    news_type := newsType;
                    article_category := newsType;
                    sentiment :=
                      analyzeSentiment (toLowerCase env) (nc_cleanText fullContent) |} in
               let* documentId := Joby.storeNews env newsData embedding in
               ret Joby.stored
         end
     end)
    (fun error =>
       do* emit (EvError "Failed to process article") in
       ret Joby.not_processed).

(** [while (retries > 0 && !navigationSuccess) { try { goto } catch { ... } }] *)
Fixpoint navigate (retries : nat) : M unit :=
  match retries with
  | O => ret tt
  | S retries' =>
      let* again :=
        try_catch
          (do* emit (EvGoto NEWS_BASE_URL) in
           do* settle (goto_answer env NEWS_BASE_URL) in
           ret false)
          (fun error =>
             do* emit (EvWarn "Navigation failed") in
             if (0 <? retries')%nat then
               do* delay Settle 3000 in
               ret true
             else throw error) in
      if again then navigate retries' else ret tt
  end.

(** [for (const article of articles) { try { ... } catch { failedCount++ } }];
    [inl] is the [break]. *)
Fixpoint articles_loop (articles : list NewsArticle) (st : LoopState) : M LoopState :=
  match articles with
  | [] => ret st
  | article :: rest =>
      let* next :=
        try_catch
          (let* result := processAndStoreArticle article true in
           let* stop := DuplicateTracker.shouldStopNow in
           if stop then
             ret (inl {| processedCount := processedCount st;
                         skippedCount := skippedCount st;
                         failedCount := failedCount st;
                         allProcessedDocuments := allProcessedDocuments st;
                         stoppedEarly := true |})
           else
             let st' :=
               if Joby.processed result then
                 {| processedCount := processedCount st + 1;
                    skippedCount := skippedCount st;
                    failedCount := failedCount st;
                    allProcessedDocuments :=
                      allProcessedDocuments st ++
                      [{| d_url := n_url article; d_title := n_title article;
                          d_category := n_category article |}];
                    stoppedEarly := stoppedEarly st |}
               else
                 {| processedCount := processedCount st;
                    skippedCount := skippedCount st + 1;
                    failedCount := failedCount st;
                    allProcessedDocuments := allProcessedDocuments st;
                    stoppedEarly := stoppedEarly st |} in
             do* delay InterItem 3000 in
             ret (inr st'))
          (fun error =>
             do* emit (EvError "Failed to process article") in
             ret (inr {| processedCount := processedCount st;
                         skippedCount := skippedCount st;
                         failedCount := failedCount st + 1;
                         allProcessedDocuments := allProcessedDocuments st;
                         stoppedEarly := stoppedEarly st |})) in
      match next with
      | inl st' => ret st'
      | inr st' => articles_loop rest st'
      end
  end.

(** [processArcherSpecificData()]: the counters of the loop go into the
    summary as they stand when the loop ends, early or not.  The wait for
    the selector and [loadAllNewsArticles] catch their own errors and reach
    neither the store nor the provider; they are left out. *)
Definition processArcherSpecificData : M Summary :=
  try_catch
    (do* Joby.initializeNewsBrowser env in
     do* navigate 3 in
     do* delay Settle 2000 in
     let* articles := of_res extractNewsArticles in
     do* modify (set_tracker (DuplicateTracker.new (Some 5%Z) (Some "news"))) in
     let* st := articles_loop articles
                  {| processedCount := 0; skippedCount := 0; failedCount := 0;
                     allProcessedDocuments := []; stoppedEarly := false |} in
     do* Joby.cleanupNewsBrowser env in
     let* count := DuplicateTracker.getConsecutiveCount in
     ret {| s_success := (0 <? processedCount st)%Z;
            s_company := "Archer Aviation";
            s_totalDocuments := Z.of_nat (length (allProcessedDocuments st));
            s_totalArticles := Z.of_nat (length articles);
            s_processed := processedCount st;
            s_skipped := skippedCount st;
            s_failed := failedCount st;
            s_stoppedEarly := stoppedEarly st;
            s_consecutiveDuplicates := count;
            s_documents := allProcessedDocuments st |})
    (fun error =>
       do* emit (EvError "Failed to process Archer Aviation data") in
       throw error).

End WithEnv.
End Archer.

(** ** index.ts *)

Module Index.

(** An entry of [SERVICE_REGISTRY]: [service[method]] and [name]. *)
Record ServiceConfig := mkConfig {
  method : M Joby.Summary;
  name : string
}.

(** What [runService] resolves to. *)
Record RunResult := mkRunResult { success : bool; result : Joby.Summary }.

(** An entry of [results] in [runAllServices]. *)
Record ServiceResult := mkServiceResult {
  service : string;
  sr_success : bool;
  sr_error : option string
}.

(** The registry object: its entries in insertion order. *)
Definition Registry : Type := list (string * ServiceConfig).

(** [Object.keys(registry)] *)
Definition keys (registry : Registry) : list string := map fst registry.

(** [registry[serviceKey]] for the registry's own keys.  The properties
    every object inherits ([constructor], [__proto__]) are left out: with
    one of them as SERVICE_NAME the code gets past the guard of
    [runService], fails on the call of the method and rethrows, so that
    [main] ends with status 1 as it does for an unknown name. *)
Fixpoint lookup_service (registry : Registry) (serviceKey : string) : option ServiceConfig :=
  match registry with
  | [] => None
  | (k, c) :: rest => if String.eqb k serviceKey then Some c else lookup_service rest serviceKey
  end.

(** [keys.indexOf(key)] *)
Fixpoint indexOf (key : string) (ks : list string) : Z :=
  match ks with
  | [] => -1
  | k :: rest =>
      if String.eqb k key then 0
      else let i := indexOf key rest in if (i <? 0)%Z then -1 else i + 1
  end.

(** [SERVICE_REGISTRY]; the Archer adapter's method is left open. *)
Definition SERVICE_REGISTRY (env : Env) (processArcherSpecificData : M Joby.Summary)
  : Registry :=
  [("joby", {| method := Joby.processJobySpecificData env; name := "Joby Aviation" |});
   ("archer", {| method := processArcherSpecificData; name := "Archer Aviation" |})].

Section WithRegistry.
Variable registry : Registry.

(** [runService(serviceKey)] *)
Definition runService (serviceKey : string) : M RunResult :=
  match lookup_service registry serviceKey with
  | None =>
      throw (Js.newError ("Unknown service: " +:+ serviceKey +:+
                          ". Available services: " +:+ String.concat ", " (keys registry)))
  | Some serviceConfig =>
      do* emit (EvStarted (name serviceConfig)) in
      try_catch
        (let* r := method serviceConfig in
         do* emit (EvCompleted (name serviceConfig)) in
         ret {| success := true; result := r |})
        (fun error =>
           do* emit (EvError "Cron Job Failed") in
           throw error)
  end.

(** [error instanceof Error ? error.message : 'Unknown error'] *)
Definition error_text (error : Js.Error) : option string :=
  if Js.instanceofError error then Js.message error else Some "Unknown error".

(** The [for] loop of [runAllServices] over [Object.entries(registry)]. *)
Fixpoint runAllServices_loop (entries : Registry) (results : list ServiceResult)
  : M (list ServiceResult) :=
  match entries with
  | [] => ret results
  | (key, config) :: rest =>
      let* results' :=
        try_catch
          (do* runService key in
           ret (results ++ [{| service := name config; sr_success := true;
                               sr_error := None |}]))
          (fun error =>
             do* emit (EvError (name config +:+ " failed")) in
             ret (results ++ [{| service := name config; sr_success := false;
                                 sr_error := error_text error |}])) in
      do* (if (indexOf key (keys registry) <? Z.of_nat (length (keys registry)) - 1)%Z
           then delay InterService 5000 else ret tt) in
      runAllServices_loop rest results'
  end.

(** The [results] array when the loop of [runAllServices] is over. *)
Definition runAllServices_results : M (list ServiceResult) :=
  runAllServices_loop registry [].

(** [runAllServices()] *)
Definition runAllServices : M bool :=
  let* results := runAllServices_results in
  do* emit (EvInfo "All Services Completed") in
  ret (forallb sr_success results).

(** [main()], resolving to the status given to [process.exit];
    [SERVICE_NAME] is the environment variable. *)
Definition main (SERVICE_NAME : option string) : M Z :=
  let serviceName := Js.toLowerCase (Js.or_str SERVICE_NAME "joby") in
  try_catch
    (if String.eqb serviceName "all" then
       let* ok := runAllServices in
       ret (if ok then 0 else 1)%Z
     else
       do* runService serviceName in
       ret 0%Z)
    (fun error =>
       do* emit (EvError "Cron job failed") in
       ret 1%Z).

End WithRegistry.
End Index.


(** ** Source isolation, in the words of the specification *)

Module Spec.

(** [needle] occurs in [text]. *)
Definition occurs (needle text : string) : Prop :=
  exists before after, text = before +:+ needle +:+ after.

(** [n] is the number of keywords of the list that occur in [text]. *)
Definition matched_keywords (keywords : list string) (text : string) (n : nat) : Prop :=
  exists found,
    NoDup found /\
    (forall word, word ∈ found <-> word ∈ keywords /\ occurs word text) /\
    length found = n.

(** What the report lists for a source: success, or failure with its
    error. *)
Definition entry (config : Index.ServiceConfig) (outcome : Res Joby.Summary)
  : Index.ServiceResult :=
  match outcome with
  | Ok _ =>
      {| Index.service := Index.name config; Index.sr_success := true;
         Index.sr_error := None |}
  | Throw e =>
      {| Index.service := Index.name config; Index.sr_success := false;
         Index.sr_error := Index.error_text e |}
  end.

(** Sources are processed one after the other, each in the world its
    predecessor left; a source that fails is recorded with its error and
    the next source is processed all the same. *)
Fixpoint sources_in_isolation (sources : Index.Registry) (w : World)
  : list Index.ServiceResult * World :=
  match sources with
  | [] => ([], w)
  | (_, config) :: rest =>
      let '(outcome, w1, _) := Index.method config w in
      let '(entries, w2) := sources_in_isolation rest w1 in
      (entry config outcome :: entries, w2)
  end.

End Spec.

(** ** Reading a trace *)

Module Trace.

Definition same_kind (k k' : DelayKind) : bool :=
  match k, k' with
  | Pacing, Pacing | Backoff, Backoff | RetryAfter, RetryAfter
  | InterItem, InterItem | InterService, InterService | Settle, Settle => true
  | _, _ => false
  end.

(** The waits of kind [k], in order. *)
Fixpoint delays_of (k : DelayKind) (evs : list Event) : list Z :=
  match evs with
  | [] => []
  | EvDelay k' ms :: rest =>
      if same_kind k k' then ms :: delays_of k rest else delays_of k rest
  | _ :: rest => delays_of k rest
  end.

(** The urls whose existence was asked of the store, in order. *)
Fixpoint checked_urls (evs : list Event) : list string :=
  match evs with
  | [] => []
  | EvExists _ u :: rest => u :: checked_urls rest
  | _ :: rest => checked_urls rest
  end.

(** The urls of the rows sent to the store by [insert], in order. *)
Fixpoint inserted_urls (evs : list Event) : list string :=
  match evs with
  | [] => []
  | EvInsert _ u :: rest => u :: inserted_urls rest
  | _ :: rest => inserted_urls rest
  end.

(** Whether the browser was closed. *)
Definition closes_browser (evs : list Event) : bool :=
  existsb (fun e => match e with EvCloseBrowser => true | _ => false end) evs.

(** The wait that opens an iteration of the retry loop of
    [generateEmbedding]. *)
Definition first_wait (attempt : Z) : Event :=
  if (0 <? attempt)%Z then EvDelay Backoff (Joby.backoffDelay attempt)
  else EvDelay Pacing 20000.

End Trace.

(** ** Scenarios: concrete collaborators and worlds *)

Module Scenario.

Definition timeout_error : Js.Error := Js.newError "fetch failed".

(** A store whose existence queries are all rejected. *)
Definition env_offline : Env :=
  {| query_rejects := fun _ _ => Some timeout_error;
     query_errors := fun _ _ => false;
     url_unique := fun _ => true;
     write_rejects := fun _ _ => None;
     embed_answer := fun _ _ => Ok (Some [1%Z]);
     launch_answer := None;
     newPage_answer := None;
     goto_answer := fun _ => None;
     select_answer := fun _ => None;
     extract_answer := fun _ => Ok [];
     fetch_answer := fun _ => None;
     closePage_answer := None;
     closeBrowser_answer := None;
     toLowerCase := Js.toLowerCase |}.

Definition world_after_four : World :=
  {| tables := {[ "news" := [] ]};
     newsBrowser := false; newsPage := false;
     tracker := {| consecutiveDuplicates := 4; maxConsecutiveDuplicates := 5;
                   tableName := "news" |};
     embedCalls := 0 |}.


Definition throttled : Js.Error :=
  {| Js.instanceofError := true; Js.statusCode := Some 429%Z;
     Js.message := Some "Too Many Requests"; Js.retry_after := None;
     Js.detail := None |}.

(** An embedding provider that throttles every call. *)
Definition env_throttled : Env :=
  {| query_rejects := fun _ _ => None;
     query_errors := fun _ _ => false;
     url_unique := fun _ => true;
     write_rejects := fun _ _ => None;
     embed_answer := fun _ _ => Throw throttled;
     launch_answer := None;
     newPage_answer := None;
     goto_answer := fun _ => None;
     select_answer := fun _ => None;
     extract_answer := fun _ => Ok [];
     fetch_answer := fun _ => None;
     closePage_answer := None;
     closeBrowser_answer := None;
     toLowerCase := Js.toLowerCase |}.

Definition launch_error : Js.Error := Js.newError "Failed to launch the browser process".

(** No browser can be launched; nothing else fails. *)
Definition env_no_browser : Env :=
  {| query_rejects := fun _ _ => None;
     query_errors := fun _ _ => false;
     url_unique := fun _ => true;
     write_rejects := fun _ _ => None;
     embed_answer := fun _ _ => Ok (Some [1%Z]);
     launch_answer := Some launch_error;
     newPage_answer := None;
     goto_answer := fun _ => None;
     select_answer := fun _ => None;
     extract_answer := fun _ => Ok [];
     fetch_answer := fun _ => None;
     closePage_answer := None;
     closeBrowser_answer := None;
     toLowerCase := Js.toLowerCase |}.

Definition empty_summary (company : string) : Joby.Summary :=
  {| Joby.s_success := false; Joby.s_company := company;
     Joby.s_totalDocuments := 0; Joby.s_processed := 0; Joby.s_skipped := 0;
     Joby.s_failed := 0; Joby.s_stoppedEarly := false;
     Joby.s_consecutiveDuplicates := 0; Joby.s_categoryResults := [];
     Joby.s_documents := [] |}.

(** A stand-in for the Archer adapter's method: it finds nothing. *)
Definition archer_idle : M Joby.Summary := ret (empty_summary "Archer Aviation").

Definition world_idle : World :=
  {| tables := {[ "news" := [] ]};
     newsBrowser := false; newsPage := false;
     tracker := DuplicateTracker.new None None;
     embedCalls := 0 |}.

(** *** The early-stop example: eight candidates, the third to the seventh
    already stored *)

Definition site : string := "https://www.jobyaviation.com/news/".

Definition candidate (slug : string) : Article :=
  {| a_url := site +:+ slug; a_title := "Joby " +:+ slug;
     a_publishedDate := "Unknown"; a_category := "press-releases" |}.

Definition candidates : list Article :=
  candidate <$> ["a"; "b"; "c"; "d"; "e"; "f"; "g"; "h"].

Definition page (u : string) : Content :=
  {| c_title := "Joby reaches a milestone";
     c_content := "Joby Aviation announced a milestone in its flight test programme.";
     c_tags := None |}.

Definition stored_row (slug : string) : Row :=
  {| r_data := {| url := site +:+ slug; title := "Joby " +:+ slug;
                  content := "Stored earlier."; source := "joby_aviation";
                  news_type := "press_release"; article_category := "press_release";
                  sentiment := "neutral" |};
     r_embedding := [7%Z] |}.

(** Every collaborator answers; the press-releases tab lists the eight
    candidates and the blog tab is empty. *)
Definition env_example : Env :=
  {| query_rejects := fun _ _ => None;
     query_errors := fun _ _ => false;
     url_unique := fun _ => true;
     write_rejects := fun _ _ => None;
     embed_answer := fun _ _ => Ok (Some [1%Z; 2%Z; 3%Z]);
     launch_answer := None;
     newPage_answer := None;
     goto_answer := fun _ => None;
     select_answer := fun _ => None;
     extract_answer := fun category =>
       if String.eqb category "press-releases" then Ok candidates else Ok [];
     fetch_answer := fun u => Some (page u);
     closePage_answer := None;
     closeBrowser_answer := None;
     toLowerCase := Js.toLowerCase |}.

(** The table the run's tracker reads holds the third to the seventh
    candidate; the [news] table is empty. *)
Definition world_example : World :=
  {| tables := {[ "news_duplicate" := stored_row <$> ["c"; "d"; "e"; "f"; "g"];
                  "news" := [] ]};
     newsBrowser := false; newsPage := false;
     tracker := DuplicateTracker.new None None;
     embedCalls := 0 |}.

Definition fresh_category : Joby.CategoryState :=
  {| Joby.processedCount := 0; Joby.skippedCount := 0; Joby.failedCount := 0;
     Joby.allProcessedDocuments := []; Joby.stoppedEarly := false |}.

Definition world_example_tracking : World :=
  set_tracker (DuplicateTracker.new (Some 5%Z) (Some "news_duplicate")) world_example.

(** The same eight candidates on Archer's listing; the [news] table, which
    Archer's tracker reads, holds the third to the seventh. *)
Definition archer_candidate (slug : string) : Archer.NewsArticle :=
  {| Archer.n_url := Archer.NEWS_BASE_URL +:+ slug; Archer.n_title := "Archer " +:+ slug;
     Archer.n_category := "press release" |}.

Definition archer_candidates : list Archer.NewsArticle :=
  archer_candidate <$> ["a"; "b"; "c"; "d"; "e"; "f"; "g"; "h"].

Definition archer_fetch (u : string) : M (option Archer.NewsContent) :=
  ret (Some {| Archer.nc_title := "Archer reaches a milestone";
               Archer.nc_rawHtml := "<p>Archer announced a milestone.</p>";
               Archer.nc_cleanText := "Archer announced a milestone.";
               Archer.nc_category := "Press Release" |}).

Definition archer_stored_row (slug : string) : Row :=
  {| r_data := {| url := Archer.NEWS_BASE_URL +:+ slug; title := "Archer " +:+ slug;
                  content := "Stored earlier."; source := "archer_aviation";
                  news_type := "press_release"; article_category := "press_release";
                  sentiment := "neutral" |};
     r_embedding := [7%Z] |}.

Definition world_archer_example : World :=
  {| tables := {[ "news" := archer_stored_row <$> ["c"; "d"; "e"; "f"; "g"] ]};
     newsBrowser := false; newsPage := false;
     tracker := DuplicateTracker.new None None;
     embedCalls := 0 |}.

(** *** Failing collaborators *)

Definition server_error : Js.Error :=
  {| Js.instanceofError := true; Js.statusCode := Some 500%Z;
     Js.message := Some "Internal Server Error"; Js.retry_after := None;
     Js.detail := None |}.

Definition nav_error : Js.Error := Js.newError "net::ERR_CONNECTION_RESET".

(** [env_example] with one collaborator replaced. *)
Definition env_embed_down : Env :=
  {| query_rejects := fun _ _ => None;
     query_errors := fun _ _ => false;
     url_unique := fun _ => true;
     write_rejects := fun _ _ => None;
     embed_answer := fun _ _ => Throw server_error;
     launch_answer := None; newPage_answer := None;
     goto_answer := fun _ => None; select_answer := fun _ => None;
     extract_answer := extract_answer env_example;
     fetch_answer := fun u => Some (page u);
     closePage_answer := None; closeBrowser_answer := None;
     toLowerCase := Js.toLowerCase |}.

Definition env_embed_throttled : Env :=
  {| query_rejects := fun _ _ => None;
     query_errors := fun _ _ => false;
     url_unique := fun _ => true;
     write_rejects := fun _ _ => None;
     embed_answer := fun _ _ => Throw throttled;
     launch_answer := None; newPage_answer := None;
     goto_answer := fun _ => None; select_answer := fun _ => None;
     extract_answer := extract_answer env_example;
     fetch_answer := fun u => Some (page u);
     closePage_answer := None; closeBrowser_answer := None;
     toLowerCase := Js.toLowerCase |}.

Definition env_lookup_down (unique : bool) : Env :=
  {| query_rejects := fun _ _ => Some timeout_error;
     query_errors := fun _ _ => false;
     url_unique := fun _ => unique;
     write_rejects := fun _ _ => None;
     embed_answer := fun _ _ => Ok (Some [1%Z; 2%Z; 3%Z]);
     launch_answer := None; newPage_answer := None;
     goto_answer := fun _ => None; select_answer := fun _ => None;
     extract_answer := extract_answer env_example;
     fetch_answer := fun u => Some (page u);
     closePage_answer := None; closeBrowser_answer := None;
     toLowerCase := Js.toLowerCase |}.

Definition env_nav_down : Env :=
  {| query_rejects := fun _ _ => None;
     query_errors := fun _ _ => false;
     url_unique := fun _ => true;
     write_rejects := fun _ _ => None;
     embed_answer := fun _ _ => Ok (Some [1%Z; 2%Z; 3%Z]);
     launch_answer := None; newPage_answer := None;
     goto_answer := fun _ => Some nav_error; select_answer := fun _ => None;
     extract_answer := extract_answer env_example;
     fetch_answer := fun u => Some (page u);
     closePage_answer := None; closeBrowser_answer := None;
     toLowerCase := Js.toLowerCase |}.

(** The [news] table already holds candidate a; the table read by the
    run's tracker does not. *)
Definition world_stored_a : World :=
  {| tables := {[ "news_duplicate" := []; "news" := [stored_row "a"] ]};
     newsBrowser := true; newsPage := true;
     tracker := DuplicateTracker.new (Some 5%Z) (Some "news_duplicate");
     embedCalls := 0 |}.

(** A world with the browser up and empty tables. *)
Definition world_ready : World :=
  {| tables := {[ "news_duplicate" := []; "news" := [] ]};
     newsBrowser := true; newsPage := true;
     tracker := DuplicateTracker.new (Some 5%Z) (Some "news");
     embedCalls := 0 |}.

(** What the TechCrunch scraper and the Beta crawler bring back. *)
Definition tc_fetch (u : string) : M (option TechCrunch.ArticleContent) :=
  ret (Some {| TechCrunch.tc_title := "Joby raises funding";
               TechCrunch.tc_rawHtml := "<p>Joby raises funding.</p>";
               TechCrunch.tc_cleanText := "Joby raises funding." |}).

Definition beta_page (u : string) : Beta.CrawledContent :=
  {| Beta.b_title := "ALIA"; Beta.b_content := "The ALIA aircraft."; Beta.b_url := u |}.

End Scenario.

(** ** services/jobyAviationService.ts: the text helpers *)

Module JobyText.

(** [[...new Set(items)]]: the items in order of first occurrence. *)
Fixpoint from_Set_go (seen items : list string) : list string :=
  match items with
  | [] => []
  | x :: rest =>
      if bool_decide (x ∈ seen) then from_Set_go seen rest
      else x :: from_Set_go (x :: seen) rest
  end.

Definition from_Set (items : list string) : list string := from_Set_go [] items.

(** [if (cond) items.push(x)] *)
Definition push_if (cond : bool) (x : string) (items : list string) : list string :=
  if cond then items ++ [x] else items.

(** [content.split(/\s+/)] on the code points of the text: the pieces
    between runs of white space; [gap] says that the scan is inside such a
    run, [cur] is the piece being read. *)
Fixpoint split_ws_go (gap : bool) (cur : list N) (cps : list N) : list (list N) :=
  match cps with
  | [] => [cur]
  | cp :: rest =>
      if Js.is_space cp then
        if gap then split_ws_go true [] rest
        else cur :: split_ws_go true [] rest
      else split_ws_go false (cur ++ [cp]) rest
  end.

Definition split_ws (content : string) : list (list N) :=
  split_ws_go false [] (Js.codePoints content).

(** [pieces.filter(word => word.length > 0).length] *)
Definition nonempty (pieces : list (list N)) : nat :=
  length (List.filter (fun word => negb (Nat.eqb (length word) 0)) pieces).

(** [calculateWordCount(content)] *)
Definition calculateWordCount (content : string) : nat :=
  nonempty (split_ws content).

(** The helpers below lower the text first; [toLowerCase] is the string
    method. *)
Section Lowered.
Variable toLowerCase : string -> string.

Definition highImpactWords : list string :=
  ["major"; "significant"; "milestone"; "historic"; "breakthrough"; "partnership"].

Definition highImpactCount (content : string) : nat :=
  Joby.matched highImpactWords (toLowerCase content).

(** [assessImpactLevel(content)] *)
Definition assessImpactLevel (content : string) : string :=
  if (2 <=? highImpactCount content)%nat then "high"
  else if (highImpactCount content =? 1)%nat then "medium"
  else "low".

(** [extractGeographicFocus(content)] *)
Definition extractGeographicFocus (content : string) : list string :=
  let lowerContent := toLowerCase content in
  let has := fun word => Js.includes word lowerContent in
  let locations := [] in
  let locations := push_if (has "japan" || has "osaka") "Japan" locations in
  let locations := push_if (has "california" || has "salinas") "United States" locations in
  let locations := push_if (has "dubai" || has "uae") "United Arab Emirates" locations in
  let locations := push_if (has "korea") "South Korea" locations in
  let locations := push_if (has "new york") "United States" locations in
  let locations := push_if (has "ras al khaimah") "United Arab Emirates" locations in
  from_Set locations.

(** [extractRelatedCompanies(content)] *)
Definition extractRelatedCompanies (content : string) : list string :=
  let lowerContent := toLowerCase content in
  let has := fun word => Js.includes word lowerContent in
  let companies := ["Joby Aviation"] in
  let companies := push_if (has "ana holdings" || has "ana") "ANA Holdings" companies in
  let companies := push_if (has "toyota") "Toyota" companies in
  let companies := push_if (has "blade") "Blade Urban Air Mobility" companies in
  let companies := push_if (has "skyports") "Skyports" companies in
  let companies := push_if (has "rakta") "RAKTA" companies in
  let companies := push_if (has "uber") "Uber" companies in
  let companies := push_if (has "delta") "Delta Air Lines" companies in
  from_Set companies.

(** [tagMappings]: keywords and the tag they give. *)
Definition tagMappings : list (list string * string) :=
  [(["air taxi"; "air taxi service"], "air taxi");
   (["evtol"; "e-vtol"], "eVTOL");
   (["electric aircraft"; "electric aviation"], "electric aircraft");
   (["faa"; "federal aviation administration"], "FAA certification");
   (["demonstration"; "flight demonstration"; "test flight"], "flight demonstration");
   (["partnership"; "collaboration"; "agreement"], "partnership");
   (["vertiport"; "vertical port"], "vertiport");
   (["urban air mobility"; "uam"], "urban air mobility");
   (["autonomous"; "autopilot"], "autonomous flight");
   (["sustainability"; "sustainable"; "zero emissions"], "sustainability");
   (["safety"; "safety features"], "safety");
   (["regulatory"; "certification"], "regulatory");
   (["investment"; "funding"; "financing"], "investment");
   (["manufacturing"; "production"], "manufacturing");
   (["commercial service"; "commercial operation"], "commercial service")].

(** [generateTags(content)]: the loop pushes the tag of every mapping one
    of whose keywords occurs. *)
Fixpoint generateTags_loop (lowerContent : string) (mappings : list (list string * string))
    (tags : list string) : list string :=
  match mappings with
  | [] => tags
  | mapping :: rest =>
      generateTags_loop lowerContent rest
        (push_if (existsb (fun keyword => Js.includes keyword lowerContent) mapping.1)
           mapping.2 tags)
  end.

Definition generateTags (content : string) : list string :=
  generateTags_loop (toLowerCase content) tagMappings [].

End Lowered.

(** The row that [processAndStoreDirectUrl] hands to [storeNews] for the
    fetched [fullContent] and the embedding [v]. *)
Definition document (env : Env) (u : string) (category : option string)
    (fullContent : Content) (v : Embedding) : Row :=
  {| r_data :=
       {| url := u;
          title := Js.or_str (Some (c_title fullContent)) "Joby Aviation Content";
          content := c_content fullContent;
          source := "joby_aviation";
          news_type := (Joby.contentType env u category fullContent).2;
          article_category := (Joby.contentType env u category fullContent).1;
          sentiment := Joby.analyzeSentiment (toLowerCase env) (c_content fullContent) |};
     r_embedding := v |}.

End JobyText.

(** ** Reading a trace, continued *)

Module Pace.

(** Every call to the embedding provider comes right after a wait of at
    least [floor] milliseconds; [waited] says that the event before was
    such a wait. *)
Fixpoint paced_from (floor : Z) (waited : bool) (evs : list Event) : bool :=
  match evs with
  | [] => true
  | EvEmbed _ :: rest => waited && paced_from floor false rest
  | EvDelay _ ms :: rest => paced_from floor (floor <=? ms)%Z rest
  | _ :: rest => paced_from floor false rest
  end.

Definition paced (floor : Z) (evs : list Event) : bool := paced_from floor false evs.

(** The events that cost something outside: a page fetched, a call to the
    provider, a row sent to the store, a browser launched. *)
Fixpoint work (evs : list Event) : list Event :=
  match evs with
  | [] => []
  | EvFetch u :: rest => EvFetch u :: work rest
  | EvEmbed t :: rest => EvEmbed t :: work rest
  | EvInsert t u :: rest => EvInsert t u :: work rest
  | EvUpsert t u :: rest => EvUpsert t u :: work rest
  | EvLaunch :: rest => EvLaunch :: work rest
  | _ :: rest => work rest
  end.

(** The texts sent to the embedding provider, in order. *)
Fixpoint embedded (evs : list Event) : list string :=
  match evs with
  | [] => []
  | EvEmbed t :: rest => t :: embedded rest
  | _ :: rest => embedded rest
  end.

(** The services [runService] announced, in order. *)
Fixpoint started (evs : list Event) : list string :=
  match evs with
  | [] => []
  | EvStarted name :: rest => name :: started rest
  | _ :: rest => started rest
  end.

End Pace.

(** ** More scenarios *)

(** ** Reading a run's report against the store *)

Module Ledger.

(** The urls of the rows of the [news] table, oldest first. *)
Definition stored_urls (w : World) : list string :=
  r_url <$> default [] (tables w !! "news").

(** The sum of one counter over the per-category results. *)
Definition total (f : Joby.CategoryResult -> Z) (results : list Joby.CategoryResult) : Z :=
  foldr (fun cr acc => (f cr + acc)%Z) 0%Z results.

(** One per-category result adds up: every article listed was either
    processed or skipped, none counted as failed. *)
Definition balanced (cr : Joby.CategoryResult) : Prop :=
  (Joby.cr_processed cr + Joby.cr_skipped cr)%Z = Joby.cr_total cr /\
  Joby.cr_failed cr = 0%Z.

End Ledger.

(** ** The document Beta's [storeInDatabase] hands to the store *)

Module BetaDoc.

(** [documentData] for a crawled page and its embedding. *)
Definition document (c : Beta.CrawledContent) (v : Embedding) : Row :=
  {| r_data := {| url := Beta.b_url c; title := Beta.b_title c;
                  content := Beta.b_content c;
                  source := "Beta Technologies"; news_type := "";
                  article_category := ""; sentiment := "" |};
     r_embedding := v |}.

(** The rows of a table that belong to other urls. *)
Definition others (u : string) (rows : list Row) : list Row :=
  filter (fun r => r_url r <> u) rows.

End BetaDoc.

Module Scenario2.

(** U+00A0 NO-BREAK SPACE and U+3000 IDEOGRAPHIC SPACE, in UTF-8. *)
Definition nbsp : string := String "194"%char (String "160"%char "").
Definition ideographic_space : string :=
  String "227"%char (String "128"%char (String "128"%char "")).

Definition throttled_with_hint : Js.Error :=
  {| Js.instanceofError := true; Js.statusCode := Some 429%Z;
     Js.message := Some "Too Many Requests"; Js.retry_after := Some 7%Z;
     Js.detail := None |}.

(** The provider throttles the first two calls, the first with a hint of
    7 seconds, and answers the third. *)
Definition env_recovers : Env :=
  {| query_rejects := fun _ _ => None;
     query_errors := fun _ _ => false;
     url_unique := fun _ => true;
     write_rejects := fun _ _ => None;
     embed_answer := fun n _ =>
       match n with
       | 0%nat => Throw throttled_with_hint
       | 1%nat => Throw Scenario.throttled
       | _ => Ok (Some [4%Z; 5%Z])
       end;
     launch_answer := None; newPage_answer := None;
     goto_answer := fun _ => None; select_answer := fun _ => None;
     extract_answer := extract_answer Scenario.env_example;
     fetch_answer := fun u => Some (Scenario.page u);
     closePage_answer := None; closeBrowser_answer := None;
     toLowerCase := Js.toLowerCase |}.

(** The scraper brings back a page of white space: a space, a no-break
    space and an ideographic space. *)
Definition env_blank_page : Env :=
  {| query_rejects := fun _ _ => None;
     query_errors := fun _ _ => false;
     url_unique := fun _ => true;
     write_rejects := fun _ _ => None;
     embed_answer := fun _ _ => Ok (Some [1%Z]);
     launch_answer := None; newPage_answer := None;
     goto_answer := fun _ => None; select_answer := fun _ => None;
     extract_answer := extract_answer Scenario.env_example;
     fetch_answer := fun u =>
       Some {| c_title := "Joby";
               c_content := " " +:+ nbsp +:+ ideographic_space;
               c_tags := None |};
     closePage_answer := None; closeBrowser_answer := None;
     toLowerCase := Js.toLowerCase |}.

(** The world after the first candidate has been processed. *)
Definition world_after_a : World :=
  (Joby.processAndStoreDirectUrl Scenario.env_example (Scenario.site +:+ "a")
     (Some "press-releases") false Scenario.world_ready).1.2.

(** Of the eight candidates only the third is known to the table the
    tracker reads. *)
Definition world_one_known : World :=
  {| tables := {[ "news_duplicate" := [Scenario.stored_row "c"]; "news" := [] ]};
     newsBrowser := false; newsPage := false;
     tracker := DuplicateTracker.new None None;
     embedCalls := 0 |}.

Definition report_of (run : Res Joby.Summary * World * list Event) : Joby.Summary :=
  match run.1.1 with
  | Ok report => report
  | Throw _ => Scenario.empty_summary "Joby Aviation"
  end.

(** A run that visits every candidate, and the run of the early-stop
    example. *)
Definition full_run : Res Joby.Summary * World * list Event :=
  Joby.processJobySpecificData Scenario.env_example world_one_known.

Definition short_run : Res Joby.Summary * World * list Event :=
  Joby.processJobySpecificData Scenario.env_example Scenario.world_example.

Definition recover_errs (i : nat) : Js.Error :=
  match i with
  | 0%nat => throttled_with_hint
  | _ => Scenario.throttled
  end.

End Scenario2.

(** * Properties *)

(** ** The duplicate tracker *)

Section TrackerFacts.
Import DuplicateTracker.

Lemma observe_max t b : maxConsecutiveDuplicates (observe t b).1 = maxConsecutiveDuplicates t.
Proof.
  unfold observe. destruct b; simpl; [|done].
  by destruct (_ <=? _)%Z.
Qed.

Lemma observe_count t b :
  consecutiveDuplicates (observe t b).1 =
  if b then (consecutiveDuplicates t + 1)%Z else 0%Z.
Proof.
  unfold observe. destruct b; simpl; [|done].
  by destruct (_ <=? _)%Z.
Qed.

Lemma observe_answer t b :
  (observe t b).2 =
  {| isDuplicate := b;
     shouldStop := b && (maxConsecutiveDuplicates t <=? consecutiveDuplicates t + 1)%Z |}.
Proof.
  unfold observe. destruct b; simpl; [|done].
  by destruct (_ <=? _)%Z.
Qed.





End TrackerFacts.



(** [processCheck] is [observe] applied to the answer of [checkDuplicate];
    the check itself changes nothing in the world. *)
Lemma checkDuplicate_total env u w :
  exists b evs, DuplicateTracker.checkDuplicate env u w = (Ok b, w, evs).
Proof.
  unfold DuplicateTracker.checkDuplicate, Store.count_by_url, try_catch, bind, get,
    emit, settle, ret, throw.
  destruct (query_rejects env (tableName (tracker w)) u); simpl; eauto.
Qed.

Lemma processCheck_observe env u w b evs :
  DuplicateTracker.checkDuplicate env u w = (Ok b, w, evs) ->
  DuplicateTracker.processCheck env u w =
  (Ok (DuplicateTracker.observe (tracker w) b).2,
   set_tracker (DuplicateTracker.observe (tracker w) b).1 w, evs).
Proof.
  intros H. unfold DuplicateTracker.processCheck, bind at 1. rewrite H.
  unfold bind, get, modify, ret. simpl.
  destruct (DuplicateTracker.observe (tracker w) b) as [t r]; simpl.
  by rewrite !app_nil_r.
Qed.

(** C4.  When the existence query fails, whether the request is rejected
    (it throws) or the server answers an error (no count, as for a table
    that does not exist), [processCheck] does not throw: it answers
    [isDuplicate = false], [shouldStop = false], and the counter of
    consecutive duplicates is 0 afterwards. *)
Theorem processCheck_fails_open env (u : string) (w : World) :
  is_Some (query_rejects env (tableName (tracker w)) u) \/
  query_errors env (tableName (tracker w)) u = true \/
  tables w !! tableName (tracker w) = None ->
  exists w' evs,
    DuplicateTracker.processCheck env u w =
      (Ok {| DuplicateTracker.isDuplicate := false;
             DuplicateTracker.shouldStop := false |}, w', evs) /\
    consecutiveDuplicates (tracker w') = 0%Z /\
    tables w' = tables w.
Proof.
  intros H.
  assert (exists evs, DuplicateTracker.checkDuplicate env u w = (Ok false, w, evs))
    as [evs Hc].
  { unfold DuplicateTracker.checkDuplicate, Store.count_by_url, try_catch, bind, get,
      emit, settle, ret, throw.
    destruct (query_rejects env (tableName (tracker w)) u) as [e|] eqn:Hq; simpl.
    - eauto.
    - destruct H as [[e He]|[Hq'|Ht]]; [done| |].
      + rewrite Hq'. simpl. eauto.
      + rewrite Ht. destruct (query_errors env _ u); simpl; eauto. }
  rewrite (processCheck_observe _ _ _ _ _ Hc). simpl. eauto.
Qed.

Lemma processCheck_fails_open_witness :
  exists w' evs,
    DuplicateTracker.processCheck Scenario.env_offline "https://www.jobyaviation.com/news/a"
      Scenario.world_after_four =
      (Ok {| DuplicateTracker.isDuplicate := false;
             DuplicateTracker.shouldStop := false |}, w', evs) /\
    consecutiveDuplicates (tracker w') = 0%Z /\
    tables w' = tables Scenario.world_after_four.
Proof.
  apply (processCheck_fails_open Scenario.env_offline).
  left. simpl. eauto.
Defined.

(** ** The sentiment classifier *)

(** [includes] against the words of the property: a needle is found
    exactly when it occurs in the text. *)
Lemma prefix_occurs (needle text : string) :
  String.prefix needle text = true <-> exists after, text = needle +:+ after.
Proof.
  revert text. induction needle as [|c needle IH]; intros text.
  - split; [intros _; by exists text | intros _; by destruct text].
  - destruct text as [|c' text]; simpl.
    + split; [done | intros [after H]; discriminate].
    + destruct (Ascii.ascii_dec c c') as [->|Hne].
      * rewrite IH. split; intros [after H]; exists after; [by rewrite H | by injection H].
      * split; [done | intros [after H]; by injection H].
Qed.

Lemma includes_occurs (needle text : string) :
  Js.includes needle text = true <-> Spec.occurs needle text.
Proof.
  unfold Spec.occurs. split.
  - induction text as [|c text IH]; cbn [Js.includes]; rewrite orb_true_iff.
    + intros [H|H]; [|done]. apply prefix_occurs in H as [after H]. by exists "", after.
    + intros [H|H].
      * apply prefix_occurs in H as [after H]. by exists "", after.
      * destruct (IH H) as (before & after & ->). by exists (String c before), after.
  - intros (before & after & ->). induction before as [|c before IH].
    + assert (String.prefix needle (needle +:+ after) = true) as Hp
        by (apply prefix_occurs; by exists after).
      change ("" +:+ needle +:+ after) with (needle +:+ after).
      destruct (needle +:+ after); cbn [Js.includes]; by rewrite Hp.
    + change (String c before +:+ needle +:+ after)
        with (String c (before +:+ needle +:+ after)).
      cbn [Js.includes]. rewrite IH. apply orb_true_r.
Qed.

Lemma matched_spec (keywords : list string) (text : string) :
  NoDup keywords -> Spec.matched_keywords keywords text (Joby.matched keywords text).
Proof.
  intros Hnd. exists (List.filter (fun word => Js.includes word text) keywords).
  split_and!; [| | done].
  - apply NoDup_ListNoDup, List.NoDup_filter. by apply NoDup_ListNoDup.
  - intros word. rewrite !list_elem_of_In, List.filter_In, includes_occurs. done.
Qed.

Lemma matched_keywords_unique (keywords : list string) (text : string) n m :
  Spec.matched_keywords keywords text n -> Spec.matched_keywords keywords text m -> n = m.
Proof.
  intros (f1 & Hnd1 & H1 & <-) (f2 & Hnd2 & H2 & <-).
  apply Permutation_length, NoDup_Permutation; [done | done |].
  intros word. by rewrite H1, H2.
Qed.

(** C10.  Whatever [toLowerCase] makes of the text, [analyzeSentiment]
    answers one of the three labels: with [p] the number of positive
    keywords that occur in the lower-cased text and [n] the number of
    negative ones, the label is "neutral" exactly when [p = n], "positive"
    exactly when [p > n] and "negative" exactly when [p < n].  The empty
    text is neutral, and each label is given: one positive keyword alone
    gives "positive", two negative ones against one positive give
    "negative", one of each gives "neutral". *)
Theorem analyzeSentiment_labels (toLowerCase : string -> string) (text : string) :
  (exists p n,
     Spec.matched_keywords Joby.positiveWords (toLowerCase text) p /\
     Spec.matched_keywords Joby.negativeWords (toLowerCase text) n /\
     (Joby.analyzeSentiment toLowerCase text = "positive" \/
      Joby.analyzeSentiment toLowerCase text = "neutral" \/
      Joby.analyzeSentiment toLowerCase text = "negative") /\
     (Joby.analyzeSentiment toLowerCase text = "neutral" <-> p = n) /\
     (Joby.analyzeSentiment toLowerCase text = "positive" <-> (n < p)%nat) /\
     (Joby.analyzeSentiment toLowerCase text = "negative" <-> (p < n)%nat)) /\
  (toLowerCase "" = "" -> Joby.analyzeSentiment toLowerCase "" = "neutral") /\
  Joby.analyzeSentiment Js.toLowerCase "" = "neutral" /\
  Joby.analyzeSentiment Js.toLowerCase "Joby reaches a Milestone" = "positive" /\
  Joby.analyzeSentiment Js.toLowerCase "A DELAY and a new risk, despite the partnership"
    = "negative" /\
  Joby.analyzeSentiment Js.toLowerCase "A milestone, after a delay" = "neutral".
Proof.
  split; [|split_and!; [|done..];
            intros H; unfold Joby.analyzeSentiment, Joby.positiveCount, Joby.negativeCount;
            by rewrite H].
  exists (Joby.positiveCount toLowerCase text), (Joby.negativeCount toLowerCase text).
  split; [apply matched_spec, (bool_decide_unpack _); by vm_compute|].
  split; [apply matched_spec, (bool_decide_unpack _); by vm_compute|].
  unfold Joby.analyzeSentiment.
  destruct (Nat.ltb_spec (Joby.negativeCount toLowerCase text)
              (Joby.positiveCount toLowerCase text)) as [H1|H1];
    [|destruct (Nat.ltb_spec (Joby.positiveCount toLowerCase text)
                  (Joby.negativeCount toLowerCase text)) as [H2|H2]].
  - split_and!; [by left | split; [done | lia] | done | split; [done | lia]].
  - split_and!; [by (right; right) | split; [done | lia] | split; [done | lia] | done].
  - split_and!; [by (right; left) | split; [lia | done] | split; [done | lia]
                 | split; [done | lia]].
Qed.

(** ** The embedding client *)

Lemma delays_of_app k evs1 evs2 :
  Trace.delays_of k (evs1 ++ evs2) = Trace.delays_of k evs1 ++ Trace.delays_of k evs2.
Proof.
  induction evs1 as [|e evs1 IH]; [done|].
  destruct e; simpl; try done.
  destruct (Trace.same_kind _ _); simpl; by rewrite IH.
Qed.

Lemma backoffDelay_bound attempt : (Joby.backoffDelay attempt <= 60000)%Z.
Proof. unfold Joby.backoffDelay. lia. Qed.

Lemma backoffDelay_mono a b :
  (a <= b)%Z -> (Joby.backoffDelay a <= Joby.backoffDelay b)%Z.
Proof.
  intros Hab. unfold Joby.backoffDelay.
  destruct (Z.le_gt_cases 0 (a - 1)) as [Ha|Ha].
  - assert (2 ^ (a - 1) <= 2 ^ (b - 1))%Z by (apply Z.pow_le_mono_r; lia). lia.
  - rewrite (Z.pow_neg_r 2 (a - 1)) by lia.
    assert (0 <= 2 ^ (b - 1))%Z by (apply Z.pow_nonneg; lia). lia.
Qed.

Section Throttled.
Variable env : Env.
Variable text : string.
Variable maxRetries : Z.
Variable errs : nat -> Js.Error.
Hypothesis answers : forall n, embed_answer env n text = Throw (errs n).
Hypothesis throttling : forall n, Joby.is_rate_limit (errs n) = true.
Hypothesis no_hint : forall n, Js.retry_after (errs n) = None.

Lemma body_throttled attempt w :
  Joby.generateEmbedding_body env text maxRetries attempt w =
  if (attempt + 1 <? maxRetries)%Z then
    (Ok (Joby.Continue (attempt + 1)%Z), bump_embedCalls w,
     [Trace.first_wait attempt; EvEmbed text; EvWarn "Rate limit hit (429)";
      EvDelay RetryAfter 20000])
  else
    (Throw (Js.newError (Joby.rate_limit_message maxRetries (errs (embedCalls w)))),
     bump_embedCalls w,
     [Trace.first_wait attempt; EvEmbed text; EvError "Rate limit error after max retries"]).
Proof.
  unfold Joby.generateEmbedding_body, Joby.voyage_embed, Trace.first_wait, try_catch, bind,
    delay, emit, get, modify, of_res, ret, throw.
  destruct (0 <? attempt)%Z; simpl; rewrite answers; simpl;
    rewrite throttling, no_hint; simpl;
    by destruct (attempt + 1 <? maxRetries)%Z.
Qed.

Lemma loop_throttled fuel : forall attempt w,
  (0 <= attempt < maxRetries)%Z ->
  (Z.to_nat (maxRetries - attempt) <= fuel)%nat ->
  exists w' evs,
    Joby.generateEmbedding_loop env fuel text maxRetries attempt w =
      (Throw (Js.newError (Joby.rate_limit_message maxRetries
                (errs (embedCalls w + Z.to_nat (maxRetries - attempt) - 1)%nat))),
       w', evs) /\
    embedCalls w' = (embedCalls w + Z.to_nat (maxRetries - attempt))%nat /\
    tables w' = tables w /\
    Trace.delays_of Backoff evs =
      Joby.backoffDelay <$> seqZ (Z.max attempt 1) (maxRetries - Z.max attempt 1) /\
    Trace.delays_of RetryAfter evs =
      replicate (Z.to_nat (maxRetries - attempt - 1)) 20000%Z.
Proof.
  induction fuel as [|fuel IH]; intros attempt w Ha Hf; [lia|].
  simpl. destruct (Z.ltb_spec attempt maxRetries) as [_|?]; [|lia].
  unfold bind at 1. rewrite body_throttled.
  destruct (Z.ltb_spec (attempt + 1) maxRetries) as [Hlt|Hge].
  - destruct (IH (attempt + 1)%Z (bump_embedCalls w)) as (w' & evs & Hrun & Hc & Ht & Hb & Hr);
      [lia | lia |].
    rewrite Hrun. simpl embedCalls in *.
    replace (S (embedCalls w) + Z.to_nat (maxRetries - (attempt + 1)) - 1)%nat
      with (embedCalls w + Z.to_nat (maxRetries - attempt) - 1)%nat by lia.
    eexists _, _. split; [reflexivity|split_and!].
    + rewrite Hc. lia.
    + by rewrite Ht.
    + rewrite (delays_of_app _ [_; _; _; _]), Hb. unfold Trace.first_wait.
      destruct (Z.ltb_spec 0 attempt) as [Hpos|Hz]; simpl.
      * replace (Z.max attempt 1) with attempt by lia.
        replace (Z.max (attempt + 1) 1) with (attempt + 1)%Z by lia.
        rewrite (seqZ_cons attempt) by lia. simpl.
        do 3 f_equal; lia.
      * do 2 f_equal; lia.
    + rewrite (delays_of_app _ [_; _; _; _]), Hr. unfold Trace.first_wait.
      replace (Z.to_nat (maxRetries - attempt - 1))
        with (S (Z.to_nat (maxRetries - (attempt + 1) - 1))) by lia.
      by destruct (0 <? attempt)%Z.
  - assert (maxRetries = attempt + 1)%Z as -> by lia.
    replace (embedCalls w + Z.to_nat (attempt + 1 - attempt) - 1)%nat
      with (embedCalls w) by lia.
    eexists _, _. split; [reflexivity|split_and!].
    + simpl. lia.
    + done.
    + unfold Trace.first_wait.
      destruct (Z.ltb_spec 0 attempt) as [Hpos|Hz]; simpl.
      * replace (Z.max attempt 1) with attempt by lia.
        by replace (attempt + 1 - attempt)%Z with 1%Z by lia.
      * by replace (attempt + 1 - Z.max attempt 1)%Z with 0%Z by lia.
    + unfold Trace.first_wait.
      replace (attempt + 1 - attempt - 1)%Z with 0%Z by lia.
      by destruct (0 <? attempt)%Z.
Qed.

End Throttled.

Lemma prefix_append (s t : string) : String.prefix s (s +:+ t) = true.
Proof.
  induction s as [|a s IH]; simpl; [by destruct t|].
  by destruct (Ascii.ascii_dec a a).
Qed.

(** C9.  The provider answers every call with a throttling error that
    carries no retry-after hint, and [generateEmbedding] is asked with
    [maxRetries >= 1] (3 by default).  The backoff waits of the run are
    [min(20000 * 2^(attempt-1), 60000)] for attempt 1, 2, ..., maxRetries-1:
    each is at most the next one, and none exceeds 60000 ms.  After
    [maxRetries] calls, all throttled, the client throws a new error whose
    message starts with "Rate limit exceeded after", which is not the
    message of the generic failure. *)
Theorem generateEmbedding_backoff env (text : string) (retries : option Z)
    (errs : nat -> Js.Error) (w : World) :
  let maxRetries := default 3%Z retries in
  let waits := fun evs => Trace.delays_of Backoff evs in
  (1 <= maxRetries)%Z ->
  (forall n, embed_answer env n text = Throw (errs n)) ->
  (forall n, Joby.is_rate_limit (errs n) = true) ->
  (forall n, Js.retry_after (errs n) = None) ->
  exists msg w' evs,
    Joby.generateEmbedding env text retries w = (Throw (Js.newError msg), w', evs) /\
    msg = Joby.rate_limit_message maxRetries
            (errs (embedCalls w + Z.to_nat maxRetries - 1)%nat) /\
    String.prefix "Rate limit exceeded after " msg = true /\
    msg <> Joby.exhausted_message /\
    embedCalls w' = (embedCalls w + Z.to_nat maxRetries)%nat /\
    waits evs = Joby.backoffDelay <$> seqZ 1 (maxRetries - 1) /\
    (forall i a b, waits evs !! i = Some a -> waits evs !! S i = Some b -> (a <= b)%Z) /\
    Forall (fun d => (d <= 60000)%Z) (waits evs).
Proof.
  intros maxRetries waits Hmax Hans Hthr Hhint.
  destruct (loop_throttled env text maxRetries errs Hans Hthr Hhint
              (Z.to_nat maxRetries) 0%Z w) as (w' & evs & Hrun & Hc & _ & Hb & _);
    [lia | lia |].
  replace (maxRetries - 0)%Z with maxRetries in * by lia.
  replace (Z.max 0 1) with 1%Z in Hb by lia.
  eexists _, w', evs. split_and!.
  - exact Hrun.
  - reflexivity.
  - apply prefix_append.
  - unfold Joby.rate_limit_message, Joby.exhausted_message. simpl. discriminate.
  - exact Hc.
  - exact Hb.
  - intros i a b. unfold waits. rewrite Hb, !list_lookup_fmap.
    intros Ha Hb'.
    destruct (seqZ 1 (maxRetries - 1) !! i) as [x|] eqn:Hx; [|done].
    destruct (seqZ 1 (maxRetries - 1) !! S i) as [y|] eqn:Hy; [|done].
    apply lookup_seqZ in Hx as [-> _]. apply lookup_seqZ in Hy as [-> _].
    simpl in *. simplify_eq. apply backoffDelay_mono. lia.
  - unfold waits. rewrite Hb. apply Forall_fmap, Forall_forall.
    intros x _. apply backoffDelay_bound.
Qed.

Lemma generateEmbedding_backoff_witness :
  exists msg w' evs,
    Joby.generateEmbedding Scenario.env_throttled "Joby flies" None
      Scenario.world_after_four = (Throw (Js.newError msg), w', evs) /\
    msg = "Rate limit exceeded after 3 attempts. Too Many Requests" /\
    Trace.delays_of Backoff evs = [20000; 40000]%Z.
Proof.
  destruct (generateEmbedding_backoff Scenario.env_throttled "Joby flies" None
              (fun _ => Scenario.throttled) Scenario.world_after_four)
    as (msg & w' & evs & Hrun & Hmsg & _ & _ & _ & Hw & _);
    [simpl; lia | done | done | done |].
  exists msg, w', evs. split; [exact Hrun|]. split; [exact Hmsg| exact Hw].
Defined.

(** The retry loop is never short of fuel: [attempt] grows by one at each
    [continue], so the iterations left are at most [maxRetries - attempt]. *)
Lemma body_continue env text maxRetries attempt w a' w' evs :
  Joby.generateEmbedding_body env text maxRetries attempt w = (Ok (Joby.Continue a'), w', evs) ->
  a' = (attempt + 1)%Z.
Proof.
  unfold Joby.generateEmbedding_body, Joby.voyage_embed, try_catch, bind,
    delay, emit, get, modify, of_res, ret, throw.
  destruct (0 <? attempt)%Z; simpl;
    destruct (embed_answer env (embedCalls w) text) as [v|e]; simpl; try done;
    destruct (Joby.is_rate_limit e); simpl; try done;
    destruct (attempt + 1 <? maxRetries)%Z; simpl; congruence.
Qed.

Lemma generateEmbedding_loop_fuel env text maxRetries : forall f1 f2 attempt w,
  (Z.to_nat (maxRetries - attempt) <= f1)%nat ->
  (Z.to_nat (maxRetries - attempt) <= f2)%nat ->
  Joby.generateEmbedding_loop env f1 text maxRetries attempt w =
  Joby.generateEmbedding_loop env f2 text maxRetries attempt w.
Proof.
  induction f1 as [|f1 IH]; intros f2 attempt w H1 H2.
  - destruct f2; simpl; destruct (Z.ltb_spec attempt maxRetries); try done; lia.
  - destruct f2; simpl; destruct (Z.ltb_spec attempt maxRetries); try done; [lia|].
    unfold bind.
    destruct (Joby.generateEmbedding_body env text maxRetries attempt w)
      as [[[[v|a']|e] w1] t1] eqn:Hb; try done.
    apply body_continue in Hb as ->.
    rewrite (IH f2); [done | lia | lia].
Qed.

(** ** The entry point *)

Section IndexFacts.
Import Index.
Variable registry : Registry.

Lemma lookup_service_NoDup (entries : Registry) key config :
  NoDup (keys entries) -> (key, config) ∈ entries ->
  lookup_service entries key = Some config.
Proof.
  induction entries as [|[k c] entries IH]; intros Hnd Hin.
  - by apply elem_of_nil in Hin.
  - simpl in *. apply NoDup_cons in Hnd as [Hk Hnd].
    apply elem_of_cons in Hin as [Heq|Hin].
    + simplify_eq. by rewrite String.eqb_refl.
    + destruct (String.eqb_spec k key) as [->|Hne]; [|by apply IH].
      exfalso. apply Hk. unfold keys.
      apply list_elem_of_fmap. by exists (key, config).
Qed.

Lemma runService_known key config w :
  lookup_service registry key = Some config ->
  runService registry key w =
  match method config w with
  | (Ok r, w1, t1) =>
      (Ok {| success := true; result := r |}, w1,
       EvStarted (name config) :: t1 ++ [EvCompleted (name config)])
  | (Throw e, w1, t1) =>
      (Throw e, w1, EvStarted (name config) :: t1 ++ [EvError "Cron Job Failed"])
  end.
Proof.
  intros H. unfold runService. rewrite H.
  unfold bind, try_catch, emit, ret, throw. simpl.
  destruct (method config w) as [[[r|e] w1] t1]; simpl; by rewrite ?app_nil_r.
Qed.

Lemma pause_run key w :
  (if (indexOf key (keys registry) <? Z.of_nat (length (keys registry)) - 1)%Z
   then delay InterService 5000 else ret tt) w =
  (Ok tt, w,
   if (indexOf key (keys registry) <? Z.of_nat (length (keys registry)) - 1)%Z
   then [EvDelay InterService 5000] else []).
Proof. by destruct (_ <? _)%Z. Qed.

(** One turn of the loop: the service is run, its outcome is appended to
    [results], and the loop goes on from the world the service left. *)
Lemma runAllServices_loop_cons key config rest results w :
  exists evs0,
    runAllServices_loop registry ((key, config) :: rest) results w =
    let '(out, w1, _) := runService registry key w in
    let results' :=
      results ++
      [match out with
       | Ok _ => {| service := name config; sr_success := true; sr_error := None |}
       | Throw e => {| service := name config; sr_success := false;
                       sr_error := error_text e |}
       end] in
    let '(r, w2, t2) := runAllServices_loop registry rest results' w1 in
    (r, w2, evs0 ++ t2).
Proof.
  simpl. unfold bind at 1, try_catch, bind at 1.
  destruct (runService registry key w) as [[[r|e] w1] t1]; simpl;
    unfold bind at 1; rewrite pause_run; simpl;
    destruct (runAllServices_loop registry rest _ w1) as [[r2 w2] t2];
    eexists; by rewrite !app_assoc.
Qed.

Lemma runAllServices_loop_total entries : forall results w,
  exists rs w' evs, runAllServices_loop registry entries results w = (Ok rs, w', evs).
Proof.
  induction entries as [|[key config] entries IH]; intros results w.
  - simpl. unfold ret. eauto.
  - destruct (runAllServices_loop_cons key config entries results w) as [evs0 ->].
    destruct (runService registry key w) as [[out w1] t1]. cbv zeta.
    match goal with |- context [runAllServices_loop registry entries ?rs w1] =>
      destruct (IH rs w1) as (rs' & w' & evs & ->) end.
    eauto.
Qed.

Lemma runAllServices_loop_spec entries : forall results w,
  (forall key config, (key, config) ∈ entries -> lookup_service registry key = Some config) ->
  exists evs,
    runAllServices_loop registry entries results w =
    (Ok (results ++ (Spec.sources_in_isolation entries w).1),
     (Spec.sources_in_isolation entries w).2, evs).
Proof.
  induction entries as [|[key config] entries IH]; intros results w Hin.
  - simpl. unfold ret. rewrite app_nil_r. eauto.
  - destruct (runAllServices_loop_cons key config entries results w) as [evs0 ->].
    rewrite (runService_known key config) by (apply Hin; left).
    simpl. destruct (method config w) as [[[r|e] w1] t1]; simpl.
    + destruct (IH (results ++ [{| service := name config; sr_success := true;
                                   sr_error := None |}]) w1) as [evs ->].
      { intros k c Hkc. apply Hin. by right. }
      destruct (Spec.sources_in_isolation entries w1) as [es w2]; simpl.
      rewrite <- app_assoc. eauto.
    + destruct (IH (results ++ [{| service := name config; sr_success := false;
                                   sr_error := error_text e |}]) w1) as [evs ->].
      { intros k c Hkc. apply Hin. by right. }
      destruct (Spec.sources_in_isolation entries w1) as [es w2]; simpl.
      rewrite <- app_assoc. eauto.
Qed.

End IndexFacts.

Lemma sources_in_isolation_app pre post w :
  Spec.sources_in_isolation (pre ++ post) w =
  ((Spec.sources_in_isolation pre w).1 ++
   (Spec.sources_in_isolation post (Spec.sources_in_isolation pre w).2).1,
   (Spec.sources_in_isolation post (Spec.sources_in_isolation pre w).2).2).
Proof.
  revert w. induction pre as [|[key config] pre IH]; intros w; simpl.
  - by destruct (Spec.sources_in_isolation post w).
  - destruct (Index.method config w) as [[out w1] t1].
    rewrite IH. by destruct (Spec.sources_in_isolation pre w1).
Qed.

Lemma sources_in_isolation_names sources : forall w,
  Index.service <$> (Spec.sources_in_isolation sources w).1 =
  (fun kc => Index.name kc.2) <$> sources.
Proof.
  induction sources as [|[key config] sources IH]; intros w; simpl; [done|].
  destruct (Index.method config w) as [[out w1] t1].
  specialize (IH w1). destruct (Spec.sources_in_isolation sources w1) as [es w2].
  simpl in *. f_equal; [by destruct out | exact IH].
Qed.

(** C6.  [runAllServices] goes through the registry in order and ends with
    one entry per source: each source is run in the world its predecessor
    left, whether that predecessor returned or threw.  A source that throws
    is listed as failed with its error message, and the sources after it
    are processed and listed as they would have been otherwise. *)
Theorem runAllServices_isolates_sources (registry : Index.Registry) (w : World) :
  NoDup (Index.keys registry) ->
  exists results w' evs,
    Index.runAllServices_results registry w = (Ok results, w', evs) /\
    (results, w') = Spec.sources_in_isolation registry w /\
    Index.service <$> results = (fun kc => Index.name kc.2) <$> registry /\
    (forall pre key config post e,
       registry = pre ++ (key, config) :: post ->
       let w1 := (Spec.sources_in_isolation pre w).2 in
       (Index.method config w1).1.1 = Throw e ->
       let after := Spec.sources_in_isolation post (Index.method config w1).1.2 in
       results =
         (Spec.sources_in_isolation pre w).1 ++
         {| Index.service := Index.name config; Index.sr_success := false;
            Index.sr_error := Index.error_text e |} :: after.1 /\
       length after.1 = length post).
Proof.
  intros Hnd.
  destruct (runAllServices_loop_spec registry registry [] w) as [evs Hrun].
  { intros key config Hin. by apply lookup_service_NoDup. }
  simpl in Hrun.
  exists (Spec.sources_in_isolation registry w).1,
         (Spec.sources_in_isolation registry w).2, evs.
  split_and!.
  - exact Hrun.
  - by destruct (Spec.sources_in_isolation registry w).
  - apply sources_in_isolation_names.
  - intros pre key config post e -> w1 Hthrow after. split.
    + rewrite sources_in_isolation_app. simpl. f_equal.
      fold w1. destruct (Index.method config w1) as [[out w2] t2] eqn:Hm.
      simpl in Hthrow. subst out. subst after. simpl.
      by destruct (Spec.sources_in_isolation post w2).
    + pose proof (sources_in_isolation_names post (Index.method config w1).1.2) as Hn.
      apply (f_equal length) in Hn. by rewrite !length_fmap in Hn.
Qed.

Lemma runAllServices_isolates_sources_witness :
  exists results w' evs,
    Index.runAllServices_results
      (Index.SERVICE_REGISTRY Scenario.env_no_browser Scenario.archer_idle)
      Scenario.world_idle = (Ok results, w', evs) /\
    results =
      [{| Index.service := "Joby Aviation"; Index.sr_success := false;
          Index.sr_error := Some "Failed to launch the browser process" |};
       {| Index.service := "Archer Aviation"; Index.sr_success := true;
          Index.sr_error := None |}].
Proof.
  destruct (runAllServices_isolates_sources
              (Index.SERVICE_REGISTRY Scenario.env_no_browser Scenario.archer_idle)
              Scenario.world_idle)
    as (results & w' & evs & Hrun & Hspec & _).
  { apply (bool_decide_unpack _). by vm_compute. }
  exists results, w', evs. split; [exact Hrun|].
  vm_compute in Hspec. by injection Hspec.
Defined.

Lemma try_catch_total {A} (m : M A) (h : Js.Error -> M A) :
  (forall e w, exists a w' t, h e w = (Ok a, w', t)) ->
  forall w, exists a w' t, try_catch m h w = (Ok a, w', t).
Proof.
  intros Hh w. unfold try_catch.
  destruct (m w) as [[[a|e] w1] t1]; [eauto|].
  destruct (Hh e w1) as (a & w' & t & ->). eauto.
Qed.

(** No article makes the article loop throw: the [catch] of each turn
    counts the failure and the loop goes on. *)
Lemma articles_loop_total env category articles : forall st w,
  exists st' w' evs, Joby.articles_loop env category articles st w = (Ok st', w', evs).
Proof.
  induction articles as [|article articles IH]; intros st w; simpl.
  - unfold ret. eauto.
  - unfold bind at 1.
    match goal with |- context [try_catch ?m ?h w] =>
      destruct (try_catch_total m h) with (w := w) as (next & w1 & t1 & ->) end.
    { intros e w0. unfold bind, emit, ret. simpl. eauto. }
    destruct next as [st'|st'].
    + unfold ret. eauto.
    + destruct (IH st' w1) as (st'' & w' & evs & ->). eauto.
Qed.

(** C8, as the code has it.  Running all sources never throws: each
    source's error is caught and the function returns the overall success
    flag; [main] always ends with an exit status, 0 or 1; inside a source,
    the article loop never throws.  Running one source with [runService]
    returns [{success: true, result}] when the source's method returns and
    throws the method's error when it throws. *)
Theorem run_outcomes (registry : Index.Registry) (w : World) :
  (exists ok w' evs, Index.runAllServices registry w = (Ok ok, w', evs)) /\
  (forall SERVICE_NAME, exists code w' evs,
     Index.main registry SERVICE_NAME w = (Ok code, w', evs) /\ (code = 0 \/ code = 1)%Z) /\
  (forall env category articles st, exists st' w' evs,
     Joby.articles_loop env category articles st w = (Ok st', w', evs)) /\
  (forall key config,
     Index.lookup_service registry key = Some config ->
     (forall r, (Index.method config w).1.1 = Ok r ->
        (Index.runService registry key w).1.1 =
          Ok {| Index.success := true; Index.result := r |}) /\
     (forall e, (Index.method config w).1.1 = Throw e ->
        (Index.runService registry key w).1.1 = Throw e)).
Proof.
  assert (forall w0, exists ok w' evs, Index.runAllServices registry w0 = (Ok ok, w', evs))
    as Hall.
  { intros w0. unfold Index.runAllServices, Index.runAllServices_results, bind at 1.
    destruct (runAllServices_loop_total registry registry [] w0) as (rs & w1 & t1 & ->).
    unfold bind, emit, ret. simpl. eauto. }
  split_and!.
  - apply Hall.
  - intros SERVICE_NAME. unfold Index.main, try_catch.
    destruct (String.eqb _ "all").
    + unfold bind at 1. destruct (Hall w) as (ok & w' & evs & ->).
      unfold ret. destruct ok; eauto 10.
    + unfold bind at 1.
      destruct (Index.runService registry _ w) as [[[r|e] w1] t1];
        unfold bind, emit, ret; simpl; eauto 10.
  - intros env category articles st. apply articles_loop_total.
  - intros key config Hk. rewrite (runService_known registry key config w Hk).
    split; intros x Hx; destruct (Index.method config w) as [[[r|e] w1] t1];
      simpl in *; congruence.
Qed.

Lemma run_outcomes_witness :
  (Index.runService (Index.SERVICE_REGISTRY Scenario.env_no_browser Scenario.archer_idle)
     "archer" Scenario.world_idle).1.1 =
  Ok {| Index.success := true;
        Index.result := Scenario.empty_summary "Archer Aviation" |}.
Proof.
  apply (proj1 (proj2 (proj2 (proj2 (run_outcomes
           (Index.SERVICE_REGISTRY Scenario.env_no_browser Scenario.archer_idle)
           Scenario.world_idle))) "archer"
           {| Index.method := Scenario.archer_idle; Index.name := "Archer Aviation" |}
           eq_refl)).
  reflexivity.
Defined.

(** C8 as stated fails: with a browser that cannot be launched, running the
    Joby source throws the launch error instead of returning a report. *)
Lemma runService_throws :
  (Index.runService (Index.SERVICE_REGISTRY Scenario.env_no_browser Scenario.archer_idle)
     "joby" Scenario.world_idle).1.1 = Throw Scenario.launch_error /\
  ~ (exists report,
       (Index.runService (Index.SERVICE_REGISTRY Scenario.env_no_browser Scenario.archer_idle)
          "joby" Scenario.world_idle).1.1 = Ok report).
Proof.
  assert ((Index.runService
             (Index.SERVICE_REGISTRY Scenario.env_no_browser Scenario.archer_idle)
             "joby" Scenario.world_idle).1.1 = Throw Scenario.launch_error) as H
    by (vm_compute; reflexivity).
  split; [exact H|]. intros [report Hr]. rewrite H in Hr. discriminate.
Qed.

(** ** The Joby run *)

(** ** The browser *)

Lemma cleanup_releases env w :
  closePage_answer env = None -> closeBrowser_answer env = None ->
  exists w' evs,
    Joby.cleanupNewsBrowser env w = (Ok tt, w', evs) /\
    newsBrowser w' = false /\ newsPage w' = false /\ tables w' = tables w.
Proof.
  intros Hp Hb.
  unfold Joby.cleanupNewsBrowser, try_catch, bind, get, emit, settle, modify, ret.
  rewrite Hp, Hb. destruct w as [d [] [] t n]; simpl; eauto 10.
Qed.

(** Beta's run, whose clean-up is in a [finally]: whatever the crawler and
    the classifier do, and whether the run returns or throws, the browser
    and the page are released at the end (when closing them succeeds). *)
Lemma beta_releases_browser env crawlUrl categorizeContent w :
  closePage_answer env = None -> closeBrowser_answer env = None ->
  exists r w' evs,
    Beta.processBetaSpecificData env crawlUrl categorizeContent w = (r, w', evs) /\
    newsBrowser w' = false /\ newsPage w' = false.
Proof.
  intros Hp Hb. unfold Beta.processBetaSpecificData, try_finally.
  destruct (try_catch _ _ w) as [[r w1] t1].
  destruct (cleanup_releases env w1 Hp Hb) as (w' & evs & -> & Hnb & Hnp & _).
  eauto 10.
Qed.

(** Joby's run does release the browser when it returns, early stop
    included: the clean-up is the step before the report is built. *)
Lemma joby_releases_on_return env w report w' evs :
  closePage_answer env = None -> closeBrowser_answer env = None ->
  Joby.processJobySpecificData env w = (Ok report, w', evs) ->
  newsBrowser w' = false /\ newsPage w' = false.
Proof.
  intros Hp Hb. unfold Joby.processJobySpecificData, try_catch.
  unfold bind at 1.
  destruct (Joby.initializeNewsBrowser env w) as [[[[]|e] w1] t1];
    [|unfold bind, emit, throw; simpl; congruence].
  unfold bind at 1, modify at 1. unfold bind at 1.
  destruct (Joby.categories_loop env _ _ _) as [[[rs|e] w2] t2];
    [|unfold bind, emit, throw; simpl; congruence].
  unfold bind at 1.
  destruct (cleanup_releases env w2 Hp Hb) as (w3 & t3 & -> & Hnb & Hnp & _).
  unfold bind, DuplicateTracker.getConsecutiveCount, bind, get, ret. simpl.
  intros [= _ <- _]. done.
Qed.

(** C7 on the code.  The browser is launched and the navigation to the
    first category tab fails: [processJobySpecificData] throws that error
    and the browser and its page are still held; no close was attempted. *)
Theorem joby_browser_leaks_on_throw env (w : World) (e : Js.Error) :
  launch_answer env = None ->
  newPage_answer env = None ->
  goto_answer env "press-releases" = Some e ->
  exists w' evs,
    Joby.processJobySpecificData env w = (Throw e, w', evs) /\
    newsBrowser w' = true /\ newsPage w' = true /\
    Trace.closes_browser evs = false.
Proof.
  intros Hl Hn Hg.
  unfold Joby.processJobySpecificData, Joby.initializeNewsBrowser, try_catch, bind,
    emit, settle, modify, ret, throw.
  rewrite Hl, Hn. simpl. rewrite Hg. simpl. eauto 10.
Qed.

Lemma joby_browser_leaks_on_throw_witness :
  exists w' evs,
    Joby.processJobySpecificData Scenario.env_nav_down Scenario.world_example
      = (Throw Scenario.nav_error, w', evs) /\
    newsBrowser w' = true /\ newsPage w' = true /\
    Trace.closes_browser evs = false.
Proof.
  apply (joby_browser_leaks_on_throw Scenario.env_nav_down Scenario.world_example
           Scenario.nav_error); reflexivity.
Defined.

(** ** Without an embedding Joby stores nothing *)

Lemma inserted_urls_app evs1 evs2 :
  Trace.inserted_urls (evs1 ++ evs2) = Trace.inserted_urls evs1 ++ Trace.inserted_urls evs2.
Proof.
  induction evs1 as [|e evs1 IH]; [done|].
  destruct e; simpl; by rewrite ?IH.
Qed.

(** Closes a goal that asks for the outcome of a run whose steps left the
    tables alone and sent no row to the store. *)
Ltac quiet_result :=
  simpl; eexists _, _, _; split; [reflexivity|];
  rewrite ?inserted_urls_app;
  repeat match goal with
         | H : Trace.inserted_urls _ = [] |- _ => rewrite H; clear H
         end;
  simpl; split_and!; [done | congruence | done].

Section EmbeddingDown.
Variable env : Env.
Hypothesis embed_fails : forall n text, exists e, embed_answer env n text = Throw e.

Lemma body_embedding_down text maxRetries attempt w :
  exists w' evs,
    ((exists e, Joby.generateEmbedding_body env text maxRetries attempt w = (Throw e, w', evs)) \/
     Joby.generateEmbedding_body env text maxRetries attempt w
       = (Ok (Joby.Continue (attempt + 1)%Z), w', evs)) /\
    tables w' = tables w /\ Trace.inserted_urls evs = [].
Proof.
  unfold Joby.generateEmbedding_body, Joby.voyage_embed, try_catch, bind,
    delay, emit, get, modify, of_res, ret, throw.
  destruct (embed_fails (embedCalls w) text) as [e He].
  destruct (0 <? attempt)%Z; simpl; rewrite He; simpl;
    destruct (Joby.is_rate_limit e); simpl;
    try destruct (attempt + 1 <? maxRetries)%Z; simpl; eauto 10.
Qed.

Lemma loop_embedding_down text maxRetries fuel : forall attempt w,
  exists e w' evs,
    Joby.generateEmbedding_loop env fuel text maxRetries attempt w = (Throw e, w', evs) /\
    tables w' = tables w /\ Trace.inserted_urls evs = [].
Proof.
  induction fuel as [|fuel IH]; intros attempt w; simpl;
    destruct (attempt <? maxRetries)%Z; unfold throw; eauto 10.
  unfold bind at 1.
  destruct (body_embedding_down text maxRetries attempt w)
    as (w1 & t1 & [[e ->]| ->] & Ht1 & Hi1); [eauto 10|].
  destruct (IH (attempt + 1)%Z w1) as (e & w' & evs & -> & Ht & Hi).
  exists e, w', (t1 ++ evs). rewrite inserted_urls_app, Hi1, Hi, Ht, Ht1. eauto.
Qed.

Lemma recordExists_quiet u w :
  exists b evs, Joby.recordExists env u w = (Ok b, w, evs) /\ Trace.inserted_urls evs = [].
Proof.
  unfold Joby.recordExists, Store.count_by_url, try_catch, bind, get, emit, settle,
    ret, throw.
  destruct (query_rejects env "news" u); simpl; eauto.
Qed.

Lemma checkDuplicate_quiet u w :
  exists b evs,
    DuplicateTracker.checkDuplicate env u w = (Ok b, w, evs) /\ Trace.inserted_urls evs = [].
Proof.
  unfold DuplicateTracker.checkDuplicate, Store.count_by_url, try_catch, bind, get,
    emit, settle, ret, throw.
  destruct (query_rejects env (tableName (tracker w)) u); simpl; eauto.
Qed.

Lemma fetch_quiet u w :
  exists c w' evs,
    Joby.fetchArticleContentDirect env u w = (Ok c, w', evs) /\
    tables w' = tables w /\ Trace.inserted_urls evs = [].
Proof.
  unfold Joby.fetchArticleContentDirect, Joby.initializeNewsBrowser, try_catch, bind,
    get, emit, settle, modify, ret, throw.
  destruct (newsPage w); simpl; [eauto 10|].
  destruct (launch_answer env); simpl; [eauto 10|].
  destruct (newPage_answer env); simpl; eauto 10.
Qed.

(** While the embedding provider fails, no call of
    [processAndStoreDirectUrl] stores anything or reports an article as
    processed, whatever the url, with or without a tracker. *)
Lemma joby_stores_nothing_without_embedding u category withTracker w :
  exists r w' evs,
    Joby.processAndStoreDirectUrl env u category withTracker w = (Ok r, w', evs) /\
    Joby.processed r = false /\
    tables w' = tables w /\ Trace.inserted_urls evs = [].
Proof.
  unfold Joby.processAndStoreDirectUrl, try_catch, bind at 1.
  assert (exists checked w1 t1,
    (if withTracker then
       bind (DuplicateTracker.processCheck env u) (fun checkResult =>
         if DuplicateTracker.shouldStop checkResult then ret (inl Joby.skip_duplicate)
         else ret (inr (DuplicateTracker.isDuplicate checkResult)))
     else bind (Joby.recordExists env u) (fun d => ret (inr d))) w
      = (Ok checked, w1, t1) /\
    tables w1 = tables w /\ Trace.inserted_urls t1 = [] /\
    match checked with inl r => Joby.processed r = false | inr _ => True end)
    as (checked & w1 & t1 & -> & Ht1 & Hi1 & Hc).
  { destruct withTracker; unfold bind at 1.
    - destruct (checkDuplicate_quiet u w) as (b & evs & Hcd & Hi).
      rewrite (processCheck_observe _ _ _ _ _ Hcd).
      destruct (DuplicateTracker.shouldStop _); unfold ret; simpl;
        rewrite app_nil_r; eauto 10.
    - destruct (recordExists_quiet u w) as (b & evs & -> & Hi).
      unfold ret. rewrite app_nil_r. eauto 10. }
  destruct checked as [r|[|]].
  - unfold ret. quiet_result.
  - unfold ret. quiet_result.
  - unfold bind at 1.
    destruct (fetch_quiet u w1) as (c & w2 & t2 & -> & Ht2 & Hi2).
    destruct c as [fullContent|].
    + destruct (String.eqb (c_title fullContent) "" && String.eqb (c_content fullContent) "").
      { unfold ret. quiet_result. }
      destruct (Joby.contentType env u category fullContent) as [articleCategory newsType].
      destruct (String.eqb (c_content fullContent) "" || _).
      { unfold bind, emit, ret. quiet_result. }
      unfold bind at 1, Joby.generateEmbedding.
      destruct (loop_embedding_down (c_content fullContent) 3 (Z.to_nat 3) 0%Z w2)
        as (e & w3 & t3 & Hl & Ht3 & Hi3).
      simpl default. rewrite Hl.
      unfold bind, emit, ret. quiet_result.
    + unfold bind, emit, ret. quiet_result.
Qed.

End EmbeddingDown.

(** C2 on the code.  While the embedding call fails, Joby's
    [processAndStoreDirectUrl] never stores: for every url, with or without
    a tracker, it answers [processed = false], sends no row to the store
    and leaves the tables as they were.  So it is for a new article whose
    page was fetched, on a server error as on throttling through all three
    attempts.  On the same failure TechCrunch's [processAndStoreArticle]
    stores the article with the empty vector. *)
Theorem joby_embedding_failure_drops_article :
  (forall env u category withTracker w,
     (forall n text, exists e, embed_answer env n text = Throw e) ->
     exists r w' evs,
       Joby.processAndStoreDirectUrl env u category withTracker w = (Ok r, w', evs) /\
       Joby.processed r = false /\
       tables w' = tables w /\ Trace.inserted_urls evs = []) /\
  (exists w' evs,
     Joby.processAndStoreDirectUrl Scenario.env_embed_down (Scenario.site +:+ "a")
       (Some "press-releases") false Scenario.world_ready
       = (Ok Joby.not_processed, w', evs) /\
     Trace.inserted_urls evs = [] /\ tables w' = tables Scenario.world_ready) /\
  (exists w' evs,
     Joby.processAndStoreDirectUrl Scenario.env_embed_throttled (Scenario.site +:+ "a")
       (Some "press-releases") false Scenario.world_ready
       = (Ok Joby.not_processed, w', evs) /\
     length (Trace.delays_of Backoff evs) = 2%nat /\
     Trace.inserted_urls evs = [] /\ tables w' = tables Scenario.world_ready) /\
  (exists w' evs,
     TechCrunch.processAndStoreArticle Scenario.env_embed_down Scenario.tc_fetch
       (Scenario.candidate "a") "Joby Aviation" Scenario.world_ready
       = (Ok true, w', evs) /\
     Trace.inserted_urls evs = [Scenario.site +:+ "a"] /\
     (fun r => (r_url r, r_embedding r)) <$> (tables w' !!! "news")
       = [(Scenario.site +:+ "a", [])]).
Proof.
  split.
  { intros env u category withTracker w Hfail.
    by apply joby_stores_nothing_without_embedding. }
  split_and!; eexists _, _; (split; [vm_compute; reflexivity|]); by vm_compute.
Qed.

Lemma joby_embedding_failure_drops_article_witness :
  exists r w' evs,
    Joby.processAndStoreDirectUrl Scenario.env_embed_throttled (Scenario.site +:+ "b")
      (Some "press-releases") true Scenario.world_ready = (Ok r, w', evs) /\
    Joby.processed r = false /\
    tables w' = tables Scenario.world_ready /\ Trace.inserted_urls evs = [].
Proof.
  apply (proj1 joby_embedding_failure_drops_article).
  intros n text. by exists Scenario.throttled.
Defined.


(** ** Writing a url twice *)

Lemma rows_with_nil u rows : Store.rows_with u rows = [] <-> u ∉ r_url <$> rows.
Proof.
  unfold Store.rows_with. induction rows as [|r rows IH]; simpl.
  - split; [intros _; apply not_elem_of_nil | done].
  - rewrite filter_cons, not_elem_of_cons. destruct (decide (r_url r = u)) as [<-|Hne].
    + split; [done | intros [? _]; done].
    + rewrite IH. split; [intros ?; split; [congruence | done] | intros [_ ?]; done].
Qed.

(** [storeNews] for a url the table holds, under the unique index: the
    store's error is thrown and the table is as before. *)
Lemma storeNews_existing_url env newsData embedding w rows :
  write_rejects env "news" (url newsData) = None ->
  url_unique env "news" = true ->
  tables w !! "news" = Some rows ->
  url newsData ∈ r_url <$> rows ->
  exists evs,
    Joby.storeNews env newsData embedding w = (Throw Store.unique_violation, w, evs).
Proof.
  intros Hw Hu Ht Hin.
  unfold Joby.storeNews, Store.insert, try_catch, bind, get, emit, settle, modify,
    ret, throw, r_url. simpl.
  rewrite Hw. simpl. rewrite Ht, Hu. simpl.
  rewrite bool_decide_true; [simpl; eauto|].
  intros Hnil. by apply rows_with_nil in Hnil.
Qed.

(** An [insert] under the unique index, and an [upsert] on url, keep the
    urls of the table distinct. *)
Lemma insert_keeps_urls_unique env table row w rows rows' :
  url_unique env table = true ->
  tables w !! table = Some rows ->
  Store.urls_unique rows ->
  tables (Store.insert env table row w).1.2 !! table = Some rows' ->
  Store.urls_unique rows'.
Proof.
  intros Hu Ht Hnd.
  unfold Store.insert, bind, get, emit, settle, modify, ret, throw.
  destruct (write_rejects env table (r_url row)); simpl; [congruence|].
  rewrite Ht, Hu. simpl. case_bool_decide as Hrows; simpl.
  - congruence.
  - rewrite lookup_insert_eq. intros [= <-].
    unfold Store.urls_unique. rewrite fmap_app. simpl.
    apply NoDup_app. split_and!; [done | | apply NoDup_singleton].
    intros x Hx Hx'. apply list_elem_of_singleton in Hx' as ->.
    by apply rows_with_nil in Hrows.
Qed.

Lemma upsert_keeps_urls_unique env table row w rows rows' :
  tables w !! table = Some rows ->
  Store.urls_unique rows ->
  tables (Store.upsert env table row w).1.2 !! table = Some rows' ->
  Store.urls_unique rows'.
Proof.
  intros Ht Hnd.
  unfold Store.upsert, bind, get, emit, settle, modify, ret, throw.
  destruct (write_rejects env table (r_url row)); simpl; [congruence|].
  rewrite Ht. destruct (url_unique env table); simpl; [|congruence].
  case_bool_decide as Hrows; simpl.
  - rewrite lookup_insert_eq. intros [= <-].
    unfold Store.urls_unique. rewrite <- list_fmap_compose.
    erewrite list_fmap_ext; [exact Hnd|].
    intros i r _. simpl. by case_bool_decide.
  - rewrite lookup_insert_eq. intros [= <-].
    unfold Store.urls_unique. rewrite fmap_app. simpl.
    apply NoDup_app. split_and!; [done | | apply NoDup_singleton].
    intros x Hx Hx'. apply list_elem_of_singleton in Hx' as ->.
    by apply rows_with_nil in Hrows.
Qed.

(** C3 on the code.  Under the unique index on url, [storeNews] for a url
    the [news] table holds throws the store's error and writes nothing,
    for every document and world.  When the existence check fails open, or
    reads the tracker's other table, [processAndStoreDirectUrl] reaches
    [storeNews] and ends with an error logged and [isDuplicate = false];
    without the unique index the same call adds a second row for the url.
    Beta's [storeInDatabase], whose write is an upsert on url, keeps one
    row and reports no error. *)
Theorem joby_second_insert_is_an_error :
  (forall env newsData embedding w rows,
     write_rejects env "news" (url newsData) = None ->
     url_unique env "news" = true ->
     tables w !! "news" = Some rows ->
     url newsData ∈ r_url <$> rows ->
     exists evs,
       Joby.storeNews env newsData embedding w = (Throw Store.unique_violation, w, evs)) /\
  (exists w' evs,
     Joby.processAndStoreDirectUrl (Scenario.env_lookup_down true) (Scenario.site +:+ "a")
       (Some "press-releases") false Scenario.world_stored_a
       = (Ok Joby.not_processed, w', evs) /\
     EvError "Error storing news" ∈ evs /\
     tables w' = tables Scenario.world_stored_a) /\
  (exists w' evs,
     Joby.processAndStoreDirectUrl Scenario.env_example (Scenario.site +:+ "a")
       (Some "press-releases") true Scenario.world_stored_a
       = (Ok Joby.not_processed, w', evs) /\
     EvError "Error storing news" ∈ evs) /\
  (exists w' evs,
     Joby.processAndStoreDirectUrl (Scenario.env_lookup_down false) (Scenario.site +:+ "a")
       (Some "press-releases") false Scenario.world_stored_a
       = (Ok Joby.stored, w', evs) /\
     r_url <$> (tables w' !!! "news") = [Scenario.site +:+ "a"; Scenario.site +:+ "a"]) /\
  (exists w' evs,
     Beta.storeInDatabase (Scenario.env_lookup_down true)
       (Scenario.beta_page (Scenario.site +:+ "a")) "news" Scenario.world_stored_a
       = (Ok Joby.stored, w', evs) /\
     r_url <$> (tables w' !!! "news") = [Scenario.site +:+ "a"] /\
     Forall (fun e => match e with EvError _ => False | _ => True end) evs).
Proof.
  split.
  { intros env newsData embedding w rows. apply storeNews_existing_url. }
  split_and!; eexists _, _; (split; [vm_compute; reflexivity|]).
  - split; [|by vm_compute]. vm_compute. set_solver.
  - vm_compute. set_solver.
  - by vm_compute.
  - split; [by vm_compute|]. vm_compute. repeat constructor.
Qed.

Lemma joby_second_insert_is_an_error_witness :
  exists evs,
    Joby.storeNews (Scenario.env_lookup_down true) (r_data (Scenario.stored_row "a")) []
      Scenario.world_stored_a
    = (Throw Store.unique_violation, Scenario.world_stored_a, evs).
Proof.
  apply (proj1 joby_second_insert_is_an_error
           (Scenario.env_lookup_down true) (r_data (Scenario.stored_row "a")) []
           Scenario.world_stored_a [Scenario.stored_row "a"]);
    [reflexivity | reflexivity | reflexivity |].
  vm_compute. set_solver.
Defined.

(** * Further properties of the code *)

(** ** Substrings *)

Lemma prefix_app_r n h s : String.prefix n h = true -> String.prefix n (h +:+ s) = true.
Proof.
  revert h. induction n as [|a n IH]; intros h; simpl; [by destruct h, s|].
  destruct h as [|b h]; simpl; [done|].
  destruct (Ascii.ascii_dec a b); [apply IH | done].
Qed.

Lemma includes_app_r n h s : Js.includes n h = true -> Js.includes n (h +:+ s) = true.
Proof.
  induction h as [|b h IH]; simpl.
  - rewrite orb_false_r. intros Hp. destruct n; [|done]. by destruct s.
  - intros [Hp|Hi]%orb_true_iff; apply orb_true_iff.
    + left. by apply (prefix_app_r n (String b h) s).
    + right. by apply IH.
Qed.

Lemma includes_app_l n p h : Js.includes n h = true -> Js.includes n (p +:+ h) = true.
Proof.
  intros H. induction p as [|b p IH]; simpl; [done|].
  apply orb_true_iff. by right.
Qed.

Lemma includes_extend n before h after :
  Js.includes n h = true -> Js.includes n (before +:+ h +:+ after) = true.
Proof. intros H. by apply includes_app_l, includes_app_r. Qed.

Lemma prefix_shorter n x h : String.prefix (n +:+ x) h = true -> String.prefix n h = true.
Proof.
  revert h. induction n as [|a n IH]; intros h; simpl; [by destruct h|].
  destruct h as [|b h]; simpl; [done|].
  destruct (Ascii.ascii_dec a b); [apply IH | done].
Qed.

Lemma includes_shorter n x h : Js.includes (n +:+ x) h = true -> Js.includes n h = true.
Proof.
  induction h as [|b h IH]; simpl.
  - by destruct n.
  - intros [Hp|Hi]%orb_true_iff; apply orb_true_iff.
    + left. by apply (prefix_shorter n x (String b h)).
    + right. by apply IH.
Qed.

Lemma matched_extend words before h after :
  (Joby.matched words h <= Joby.matched words (before +:+ h +:+ after))%nat.
Proof.
  unfold Joby.matched. induction words as [|word words IH]; simpl; [done|].
  destruct (Js.includes word h) eqn:E.
  - rewrite (includes_extend _ before _ after E). cbn [length]. by apply le_n_S.
  - destruct (Js.includes word (before +:+ h +:+ after)); cbn [length];
      [by apply le_S | exact IH].
Qed.

Lemma matched_empty words :
  Forall (fun word => word <> "") words -> Joby.matched words "" = 0%nat.
Proof.
  unfold Joby.matched. induction 1 as [|word words Hw _ IH]; simpl; [done|].
  destruct word; [done | simpl; exact IH].
Qed.

(** ** The text helpers

    [toLowerCase] stands for the string method throughout: the statements
    hold whatever it returns. *)

Lemma NoDup_highImpactWords : NoDup JobyText.highImpactWords.
Proof. apply (bool_decide_unpack _). by vm_compute. Qed.

(** X1.  Whatever [toLowerCase] makes of the text, [assessImpactLevel]
    goes by the number [k] of high-impact keywords that occur in the
    lower-cased text: "low" exactly when [k = 0], that is when none
    occurs, "medium" exactly when [k = 1], and "high" exactly when
    [k >= 2].  When the lower-cased text of one article is found inside
    that of another, the level of the other is not lower: "high" stays
    "high" and "medium" does not fall to "low". *)
Theorem assessImpactLevel_levels (toLowerCase : string -> string) (text : string) :
  (exists k,
     Spec.matched_keywords JobyText.highImpactWords (toLowerCase text) k /\
     (JobyText.assessImpactLevel toLowerCase text = "low" <-> k = 0%nat) /\
     (JobyText.assessImpactLevel toLowerCase text = "medium" <-> k = 1%nat) /\
     (JobyText.assessImpactLevel toLowerCase text = "high" <-> (2 <= k)%nat)) /\
  (JobyText.assessImpactLevel toLowerCase text = "low" <->
   forall word, word ∈ JobyText.highImpactWords -> ~ Spec.occurs word (toLowerCase text)) /\
  (forall longer,
     (exists before after, toLowerCase longer = before +:+ toLowerCase text +:+ after) ->
     (JobyText.assessImpactLevel toLowerCase text = "high" ->
      JobyText.assessImpactLevel toLowerCase longer = "high") /\
     (JobyText.assessImpactLevel toLowerCase text = "medium" ->
      JobyText.assessImpactLevel toLowerCase longer <> "low")) /\
  JobyText.assessImpactLevel Js.toLowerCase "" = "low" /\
  JobyText.assessImpactLevel Js.toLowerCase "A major step for Joby" = "medium" /\
  JobyText.assessImpactLevel Js.toLowerCase "A Historic Milestone" = "high".
Proof.
  assert (forall t, JobyText.assessImpactLevel toLowerCase t =
            if (2 <=? JobyText.highImpactCount toLowerCase t)%nat then "high"
            else if (JobyText.highImpactCount toLowerCase t =? 1)%nat then "medium"
            else "low")
    as Hdef by done.
  pose proof (matched_spec JobyText.highImpactWords (toLowerCase text)
                NoDup_highImpactWords) as Hk.
  fold (JobyText.highImpactCount toLowerCase text) in Hk.
  assert (JobyText.assessImpactLevel toLowerCase text = "low" <->
          JobyText.highImpactCount toLowerCase text = 0%nat) as Hlow.
  { rewrite Hdef. destruct (Nat.leb_spec 2 (JobyText.highImpactCount toLowerCase text));
      [split; [done | lia]|].
    destruct (Nat.eqb_spec (JobyText.highImpactCount toLowerCase text) 1);
      split; try done; lia. }
  split_and!; [| | | done..].
  - exists (JobyText.highImpactCount toLowerCase text). split; [exact Hk|].
    split; [exact Hlow|]. rewrite Hdef.
    destruct (Nat.leb_spec 2 (JobyText.highImpactCount toLowerCase text)).
    { split; split; try done; lia. }
    destruct (Nat.eqb_spec (JobyText.highImpactCount toLowerCase text) 1);
      split; split; try done; lia.
  - rewrite Hlow. destruct Hk as (found & _ & Hfound & <-). split.
    + intros Hnil%nil_length_inv word Hw Hocc.
      assert (word ∈ found) as Hin by (by apply Hfound). rewrite Hnil in Hin.
      by apply elem_of_nil in Hin.
    + intros Hnone. destruct found as [|word found]; [done|]. exfalso.
      assert (word ∈ word :: found) as Hin by (apply elem_of_cons; by left).
      apply Hfound in Hin as [Hw Hocc]. by apply (Hnone word).
  - intros longer (before & after & Hlonger).
    pose proof (matched_extend JobyText.highImpactWords before (toLowerCase text) after)
      as Hle.
    rewrite <- Hlonger in Hle.
    fold (JobyText.highImpactCount toLowerCase text) in Hle.
    fold (JobyText.highImpactCount toLowerCase longer) in Hle.
    rewrite !Hdef.
    destruct (Nat.leb_spec 2 (JobyText.highImpactCount toLowerCase text)) as [H2|H2].
    + split; [|done]. intros _.
      destruct (Nat.leb_spec 2 (JobyText.highImpactCount toLowerCase longer)); [done | lia].
    + split; [by destruct (_ =? 1)%nat|].
      destruct (Nat.eqb_spec (JobyText.highImpactCount toLowerCase text) 1) as [H1|H1];
        [|done].
      intros _.
      destruct (Nat.leb_spec 2 (JobyText.highImpactCount toLowerCase longer)); [done|].
      destruct (Nat.eqb_spec (JobyText.highImpactCount toLowerCase longer) 1); [done | lia].
Qed.

Lemma from_Set_go_elem seen items x :
  x ∈ JobyText.from_Set_go seen items <-> x ∈ items /\ x ∉ seen.
Proof.
  revert seen. induction items as [|y items IH]; intros seen; simpl.
  - set_solver.
  - case_bool_decide as Hy.
    + rewrite IH. set_solver.
    + rewrite elem_of_cons, IH. destruct (decide (x = y)) as [->|Hne]; set_solver.
Qed.

Lemma from_Set_go_NoDup seen items : NoDup (JobyText.from_Set_go seen items).
Proof.
  revert seen. induction items as [|y items IH]; intros seen; simpl.
  - constructor.
  - case_bool_decide; [apply IH|].
    constructor; [|apply IH]. rewrite from_Set_go_elem. set_solver.
Qed.

Lemma from_Set_elem items x : x ∈ JobyText.from_Set items <-> x ∈ items.
Proof. unfold JobyText.from_Set. rewrite from_Set_go_elem. set_solver. Qed.

Lemma push_if_elem cond y items x :
  x ∈ JobyText.push_if cond y items <-> x ∈ items \/ (cond = true /\ x = y).
Proof. destruct cond; simpl; set_solver. Qed.

(** X2.  Whatever [toLowerCase] makes of the text,
    [extractGeographicFocus] lists each country once and only the four
    countries of its table; a country is listed exactly when one of its
    place names occurs in the lower-cased text.  A country named by two
    places is listed where its first place puts it. *)
Theorem extractGeographicFocus_sound (toLowerCase : string -> string) (text : string) :
  let occurs := fun word => Spec.occurs word (toLowerCase text) in
  let focus := JobyText.extractGeographicFocus toLowerCase text in
  NoDup focus /\
  (forall place, place ∈ focus ->
     place ∈ ["Japan"; "United States"; "United Arab Emirates"; "South Korea"]) /\
  ("Japan" ∈ focus <-> occurs "japan" \/ occurs "osaka") /\
  ("United States" ∈ focus <->
     occurs "california" \/ occurs "salinas" \/ occurs "new york") /\
  ("United Arab Emirates" ∈ focus <->
     occurs "dubai" \/ occurs "uae" \/ occurs "ras al khaimah") /\
  ("South Korea" ∈ focus <-> occurs "korea") /\
  JobyText.extractGeographicFocus Js.toLowerCase "" = [] /\
  JobyText.extractGeographicFocus Js.toLowerCase "From New York to Osaka, then Salinas"
    = ["Japan"; "United States"] /\
  JobyText.extractGeographicFocus Js.toLowerCase "Seoul, Korea, and New York"
    = ["South Korea"; "United States"].
Proof.
  intros occurs focus. subst focus occurs. unfold JobyText.extractGeographicFocus.
  split; [apply from_Set_go_NoDup|].
  split_and!; try (intros place); try reflexivity;
    rewrite ?from_Set_elem, ?push_if_elem, ?elem_of_cons, ?elem_of_nil;
    cbv beta; rewrite ?orb_true_iff, ?includes_occurs;
    intuition discriminate.
Qed.

Lemma push_if_cons cond y x items :
  JobyText.push_if cond y (x :: items) = x :: JobyText.push_if cond y items.
Proof. by destruct cond. Qed.

Lemma occurs_shorter (word more text : string) :
  Spec.occurs (word +:+ more) text -> Spec.occurs word text.
Proof.
  intros (before & after & ->). exists before, (more +:+ after).
  f_equal. induction word as [|c word IH]; [done|].
  change (String c ((word +:+ more) +:+ after) = String c (word +:+ more +:+ after)).
  by rewrite IH.
Qed.

(** X3.  Whatever [toLowerCase] makes of the text,
    [extractRelatedCompanies] starts with "Joby Aviation" and names no
    company twice, and each of the seven partners is listed exactly when
    its keyword occurs in the lower-cased text.  For "ANA Holdings" that
    keyword is the three letters "ana", whatever surrounds them: the longer
    keyword "ana holdings" adds nothing, and a text such as
    "Fleet management" lists the airline. *)
Theorem extractRelatedCompanies_sound (toLowerCase : string -> string) (text : string) :
  let occurs := fun word => Spec.occurs word (toLowerCase text) in
  let companies := JobyText.extractRelatedCompanies toLowerCase text in
  (exists others, companies = "Joby Aviation" :: others) /\
  NoDup companies /\
  (forall company, company ∈ companies ->
     company ∈ ["Joby Aviation"; "ANA Holdings"; "Toyota"; "Blade Urban Air Mobility";
                "Skyports"; "RAKTA"; "Uber"; "Delta Air Lines"]) /\
  ("ANA Holdings" ∈ companies <-> occurs "ana") /\
  ("Toyota" ∈ companies <-> occurs "toyota") /\
  ("Blade Urban Air Mobility" ∈ companies <-> occurs "blade") /\
  ("Skyports" ∈ companies <-> occurs "skyports") /\
  ("RAKTA" ∈ companies <-> occurs "rakta") /\
  ("Uber" ∈ companies <-> occurs "uber") /\
  ("Delta Air Lines" ∈ companies <-> occurs "delta") /\
  JobyText.extractRelatedCompanies Js.toLowerCase "Fleet management"
    = ["Joby Aviation"; "ANA Holdings"] /\
  JobyText.extractRelatedCompanies Js.toLowerCase "Delta and Toyota back Joby"
    = ["Joby Aviation"; "Toyota"; "Delta Air Lines"].
Proof.
  intros occurs companies. subst companies occurs.
  unfold JobyText.extractRelatedCompanies.
  pose proof (occurs_shorter "ana" " holdings" (toLowerCase text)) as Hana.
  split; [rewrite !push_if_cons; unfold JobyText.from_Set; simpl; eauto|].
  split; [apply from_Set_go_NoDup|].
  split_and!; try (intros company); try reflexivity;
    rewrite ?from_Set_elem, ?push_if_elem, ?elem_of_cons, ?elem_of_nil;
    cbv beta; rewrite ?orb_true_iff, ?includes_occurs;
    intuition discriminate.
Qed.

Lemma generateTags_loop_filter lowerContent mappings : forall tags,
  JobyText.generateTags_loop lowerContent mappings tags =
  tags ++ (snd <$> List.filter
             (fun m => existsb (fun keyword => Js.includes keyword lowerContent) m.1)
             mappings).
Proof.
  induction mappings as [|m mappings IH]; intros tags; simpl.
  - by rewrite app_nil_r.
  - rewrite IH. destruct (existsb _ m.1); simpl; [by rewrite <- app_assoc | done].
Qed.

Lemma filter_sublist {A} (f : A -> bool) (l : list A) : sublist (List.filter f l) l.
Proof.
  induction l as [|x l IH]; simpl; [constructor|].
  destruct (f x); by constructor.
Qed.

Lemma generateTags_loop_sound lowerContent (mappings : list (list string * string)) :
  sublist (JobyText.generateTags_loop lowerContent mappings []) (snd <$> mappings) /\
  (forall tag, tag ∈ JobyText.generateTags_loop lowerContent mappings [] <->
     exists keywords, (keywords, tag) ∈ mappings /\
       exists keyword, keyword ∈ keywords /\ Spec.occurs keyword lowerContent).
Proof.
  rewrite generateTags_loop_filter. rewrite app_nil_l. split.
  - apply fmap_sublist, filter_sublist.
  - intros tag. split.
    + intros Htag. apply list_elem_of_fmap in Htag as ([keywords tag'] & -> & Hin).
      apply list_elem_of_In, filter_In in Hin as [Hin Hex].
      apply existsb_exists in Hex as (keyword & Hk & Hinc). cbn [fst snd] in *.
      exists keywords. split; [by apply list_elem_of_In|].
      exists keyword. split; [by apply list_elem_of_In | by apply includes_occurs].
    + intros (keywords & Hin & keyword & Hk & Hinc).
      apply list_elem_of_fmap. exists (keywords, tag). split; [done|].
      apply list_elem_of_In, filter_In. split; [by apply list_elem_of_In|].
      apply existsb_exists. exists keyword.
      split; [by apply list_elem_of_In | by apply includes_occurs].
Qed.

(** X4.  Whatever [toLowerCase] makes of the text, [generateTags] gives
    tags of [tagMappings] in the order of that table, each at most once,
    and a tag is given exactly when one of its keywords occurs in the
    lower-cased text. *)
Theorem generateTags_sound (toLowerCase : string -> string) (text : string) :
  sublist (JobyText.generateTags toLowerCase text) (snd <$> JobyText.tagMappings) /\
  NoDup (JobyText.generateTags toLowerCase text) /\
  (forall tag, tag ∈ JobyText.generateTags toLowerCase text <->
     exists keywords, (keywords, tag) ∈ JobyText.tagMappings /\
       exists keyword, keyword ∈ keywords /\ Spec.occurs keyword (toLowerCase text)) /\
  JobyText.generateTags Js.toLowerCase "" = [] /\
  JobyText.generateTags Js.toLowerCase "FAA certification for the eVTOL air taxi"
    = ["air taxi"; "eVTOL"; "FAA certification"; "regulatory"].
Proof.
  destruct (generateTags_loop_sound (toLowerCase text) JobyText.tagMappings)
    as [Hsub Hmem].
  split_and!.
  - exact Hsub.
  - refine (sublist_NoDup _ _ _ Hsub).
    apply (bool_decide_unpack _). by vm_compute.
  - exact Hmem.
  - reflexivity.
  - reflexivity.
Qed.

Section WordCount.
Import JobyText.

Lemma nonempty_cons piece pieces :
  nonempty (piece :: pieces) =
  ((if Nat.eqb (length piece) 0 then 0 else 1) + nonempty pieces)%nat.
Proof. unfold nonempty. simpl. by destruct (Nat.eqb (length piece) 0). Qed.

Lemma snoc_length (cur : list N) cp : Nat.eqb (length (cur ++ [cp])) 0 = false.
Proof. rewrite length_app. simpl. apply Nat.eqb_neq. lia. Qed.

Lemma split_gap cps : nonempty (split_ws_go true [] cps) = nonempty (split_ws_go false [] cps).
Proof.
  destruct cps as [|cp cps]; simpl; [done|].
  destruct (Js.is_space cp); [by rewrite nonempty_cons | done].
Qed.

Lemma split_blank cps : forall gap cur,
  (gap = true -> cur = []) ->
  nonempty (split_ws_go gap cur cps) = 0%nat <-> cur = [] /\ Js.all_space cps = true.
Proof.
  induction cps as [|cp cps IH]; intros gap cur Hg; simpl.
  - rewrite nonempty_cons. destruct cur; simpl; split; intros; try done; try lia.
    by destruct H.
  - destruct (Js.is_space cp); simpl.
    + destruct gap.
      * rewrite (Hg eq_refl). rewrite IH by done. tauto.
      * rewrite nonempty_cons. destruct cur as [|x cur]; simpl.
        -- rewrite IH by done. tauto.
        -- split; [lia | intros [? _]; done].
    + rewrite IH by done. split; intros [H ?]; [by destruct cur | done].
Qed.

Lemma split_join a b sep : forall gap cur,
  Js.is_space sep = true ->
  (gap = true -> cur = []) ->
  nonempty (split_ws_go gap cur (a ++ sep :: b)) =
  (nonempty (split_ws_go gap cur a) + nonempty (split_ws_go false [] b))%nat.
Proof.
  intros gap cur Hsep. revert gap cur.
  induction a as [|cp a IH]; intros gap cur Hg; simpl.
  - rewrite Hsep. destruct gap.
    + rewrite (Hg eq_refl), split_gap, nonempty_cons. simpl. done.
    + rewrite !nonempty_cons, split_gap. change (nonempty []) with 0%nat.
      destruct (Nat.eqb (length cur) 0); lia.
  - destruct (Js.is_space cp).
    + destruct gap; [by apply IH|].
      rewrite !nonempty_cons, IH by done. lia.
    + by apply IH.
Qed.

End WordCount.

(** X5.  [calculateWordCount] is 0 exactly for a text that [trim()]
    empties: the empty text, or white space only, the white space of
    Unicode included.  When a text reads as a first part, one white-space
    character and a rest, its count is the sum of the counts of the two
    parts.  So a no-break space separates two words, and alone it is no
    word. *)
Theorem calculateWordCount_sound (text : string) :
  (JobyText.calculateWordCount text = 0%nat <-> Js.trim_is_empty text = true) /\
  (forall first sep rest,
     Js.is_space sep = true ->
     Js.codePoints text = Js.codePoints first ++ sep :: Js.codePoints rest ->
     JobyText.calculateWordCount text =
     (JobyText.calculateWordCount first + JobyText.calculateWordCount rest)%nat) /\
  JobyText.calculateWordCount ("a" +:+ Scenario2.nbsp +:+ "b") = 2%nat /\
  JobyText.calculateWordCount Scenario2.nbsp = 0%nat.
Proof.
  unfold JobyText.calculateWordCount, JobyText.split_ws, Js.trim_is_empty.
  split_and!; [| | done..].
  - rewrite split_blank by done. tauto.
  - intros first sep rest Hsep ->. by apply split_join.
Qed.

Lemma calculateWordCount_sound_witness :
  JobyText.calculateWordCount ("Joby flies" +:+ Scenario2.nbsp +:+ "in Dubai") =
  (JobyText.calculateWordCount "Joby flies" + JobyText.calculateWordCount "in Dubai")%nat.
Proof.
  apply (proj1 (proj2 (calculateWordCount_sound
                         ("Joby flies" +:+ Scenario2.nbsp +:+ "in Dubai")))
           "Joby flies" 160%N "in Dubai").
  - reflexivity.
  - reflexivity.
Defined.

(** ** The duplicate tracker, as its callers use it *)

Lemma rows_with_length u rows :
  (0 < length (Store.rows_with u rows))%nat <-> u ∈ r_url <$> rows.
Proof.
  destruct (Store.rows_with u rows) eqn:E.
  - apply rows_with_nil in E. simpl. split; [lia | done].
  - simpl. split; [intros _ | lia].
    destruct (decide (u ∈ r_url <$> rows)) as [|Hn]; [done|].
    apply rows_with_nil in Hn. congruence.
Qed.

(** X6.  When the existence query is answered, [checkDuplicate] says
    "duplicate" exactly when the tracker's table holds a row with that url;
    it asks the store once and changes nothing. *)
Theorem checkDuplicate_reads_table env (u : string) (w : World) (rows : list Row) :
  query_rejects env (tableName (tracker w)) u = None ->
  query_errors env (tableName (tracker w)) u = false ->
  tables w !! tableName (tracker w) = Some rows ->
  DuplicateTracker.checkDuplicate env u w =
    (Ok (bool_decide (u ∈ r_url <$> rows)), w, [EvExists (tableName (tracker w)) u]).
Proof.
  intros Hr He Ht.
  unfold DuplicateTracker.checkDuplicate, Store.count_by_url, try_catch, bind, get,
    emit, settle, ret, throw.
  simpl. rewrite Hr. simpl. rewrite He, Ht. simpl.
  do 2 f_equal. f_equal.
  pose proof (rows_with_length u rows) as Hl.
  case_bool_decide as Hin.
  - apply Hl in Hin. destruct (length (Store.rows_with u rows)) eqn:E; [lia|].
    simpl. done.
  - destruct (length (Store.rows_with u rows)) eqn:E; [done|].
    exfalso. apply Hin, Hl. lia.
Qed.

Lemma checkDuplicate_reads_table_witness :
  DuplicateTracker.checkDuplicate Scenario.env_example (Scenario.site +:+ "c")
    Scenario.world_example_tracking =
  (Ok true, Scenario.world_example_tracking,
   [EvExists "news_duplicate" (Scenario.site +:+ "c")]).
Proof.
  rewrite (checkDuplicate_reads_table Scenario.env_example (Scenario.site +:+ "c")
             Scenario.world_example_tracking
             (Scenario.stored_row <$> ["c"; "d"; "e"; "f"; "g"]));
    reflexivity.
Defined.

Lemma processCheck_effects env (u : string) (w : World) :
  exists answer w' evs,
    DuplicateTracker.processCheck env u w = (Ok answer, w', evs) /\
    Trace.checked_urls evs = [u] /\ Pace.work evs = [] /\
    tables w' = tables w /\
    newsBrowser w' = newsBrowser w /\ newsPage w' = newsPage w /\
    embedCalls w' = embedCalls w /\
    maxConsecutiveDuplicates (tracker w') = maxConsecutiveDuplicates (tracker w) /\
    tableName (tracker w') = tableName (tracker w) /\
    consecutiveDuplicates (tracker w') =
      (if DuplicateTracker.isDuplicate answer
       then consecutiveDuplicates (tracker w) + 1 else 0)%Z /\
    ((0 <= consecutiveDuplicates (tracker w))%Z ->
     (0 <= consecutiveDuplicates (tracker w'))%Z).
Proof.
  assert (exists b evs, DuplicateTracker.checkDuplicate env u w = (Ok b, w, evs) /\
                        Trace.checked_urls evs = [u] /\ Pace.work evs = [])
    as (b & evs & Hc & Hevs & Hwork).
  { unfold DuplicateTracker.checkDuplicate, Store.count_by_url, try_catch, bind, get,
      emit, settle, ret, throw.
    destruct (query_rejects env (tableName (tracker w)) u); simpl; eauto. }
  rewrite (processCheck_observe _ _ _ _ _ Hc).
  eexists _, _, _. split; [reflexivity|].
  unfold set_tracker. cbn [tracker tables newsBrowser newsPage embedCalls].
  rewrite observe_answer, observe_count, observe_max. simpl.
  split_and!; try done.
  - unfold DuplicateTracker.observe. destruct b; simpl; [|done].
    by destruct (_ <=? _)%Z.
  - destruct b; lia.
Qed.

(** X7.  [processCheck] never throws.  Each call asks the store once,
    about the given url, and does nothing else outside; it leaves
    the tables, the browser and the threshold as they were, and the counter
    afterwards is 0 (not a duplicate) or one more than before (a
    duplicate): it never goes below 0. *)
Theorem processCheck_footprint env (u : string) (w : World) :
  exists answer w' evs,
    DuplicateTracker.processCheck env u w = (Ok answer, w', evs) /\
    Trace.checked_urls evs = [u] /\ Pace.work evs = [] /\
    tables w' = tables w /\
    newsBrowser w' = newsBrowser w /\ newsPage w' = newsPage w /\
    embedCalls w' = embedCalls w /\
    maxConsecutiveDuplicates (tracker w') = maxConsecutiveDuplicates (tracker w) /\
    tableName (tracker w') = tableName (tracker w) /\
    consecutiveDuplicates (tracker w') =
      (if DuplicateTracker.isDuplicate answer
       then consecutiveDuplicates (tracker w) + 1 else 0)%Z /\
    ((0 <= consecutiveDuplicates (tracker w))%Z ->
     (0 <= consecutiveDuplicates (tracker w'))%Z).
Proof. apply processCheck_effects. Qed.

Lemma shouldStop_after_check env (u : string) (w : World) answer w' evs :
  (1 <= maxConsecutiveDuplicates (tracker w))%Z ->
  DuplicateTracker.processCheck env u w = (Ok answer, w', evs) ->
  DuplicateTracker.shouldStopNow w' = (Ok (DuplicateTracker.shouldStop answer), w', []).
Proof.
  intros Hmax.
  destruct (checkDuplicate_total env u w) as (b & evs0 & Hc).
  rewrite (processCheck_observe _ _ _ _ _ Hc). intros [= <- <- _].
  unfold DuplicateTracker.shouldStopNow, bind, get, ret, set_tracker.
  cbn [tracker app]. rewrite observe_answer, observe_count, observe_max. simpl.
  do 2 f_equal. f_equal. destruct b; simpl; [done|].
  apply Z.leb_gt. lia.
Qed.

(** X8.  For a threshold of at least 1, the method [shouldStop()] called
    right after [processCheck] gives the flag that [processCheck]
    returned.  (The bound is needed: see [shouldStop_threshold_zero].) *)
Theorem shouldStop_agrees env (u : string) (w : World) answer w' evs :
  (1 <= maxConsecutiveDuplicates (tracker w))%Z ->
  DuplicateTracker.processCheck env u w = (Ok answer, w', evs) ->
  DuplicateTracker.shouldStopNow w' = (Ok (DuplicateTracker.shouldStop answer), w', []).
Proof. apply shouldStop_after_check. Qed.

Lemma shouldStop_agrees_witness :
  DuplicateTracker.shouldStopNow
    (DuplicateTracker.processCheck Scenario.env_offline "u" Scenario.world_after_four).1.2
  = (Ok false,
     (DuplicateTracker.processCheck Scenario.env_offline "u" Scenario.world_after_four).1.2,
     []).
Proof.
  eapply (shouldStop_agrees Scenario.env_offline "u" Scenario.world_after_four
            {| DuplicateTracker.isDuplicate := false;
               DuplicateTracker.shouldStop := false |});
    [simpl; lia | reflexivity].
Defined.

(** With threshold 0 the method and the answer part ways. *)
Lemma shouldStop_threshold_zero :
  let w := set_tracker (DuplicateTracker.new (Some 0%Z) None) Scenario.world_idle in
  (DuplicateTracker.processCheck Scenario.env_example "u" w).1.1 =
    Ok {| DuplicateTracker.isDuplicate := false; DuplicateTracker.shouldStop := false |} /\
  (DuplicateTracker.shouldStopNow
     (DuplicateTracker.processCheck Scenario.env_example "u" w).1.2).1.1 = Ok true.
Proof. split; reflexivity. Qed.

(** ** The embedding client, whatever the provider answers *)

Lemma work_app evs1 evs2 : Pace.work (evs1 ++ evs2) = Pace.work evs1 ++ Pace.work evs2.
Proof.
  induction evs1 as [|e evs1 IH]; [done|].
  destruct e; simpl; by rewrite ?IH.
Qed.

Lemma backoffDelay_floor attempt : (1 <= attempt)%Z -> (20000 <= Joby.backoffDelay attempt)%Z.
Proof.
  intros Ha. unfold Joby.backoffDelay.
  pose proof (Z.pow_pos_nonneg 2 (attempt - 1)). lia.
Qed.

Lemma first_wait_floor attempt :
  exists kind ms, Trace.first_wait attempt = EvDelay kind ms /\ (20000 <=? ms)%Z = true.
Proof.
  unfold Trace.first_wait. destruct (Z.ltb_spec 0 attempt).
  - eexists _, _. split; [done|]. apply Z.leb_le, backoffDelay_floor. lia.
  - eexists _, _. split; [done|]. done.
Qed.

(** One iteration of the retry loop: one wait, one call, and then one of
    four endings. *)
Lemma body_shape env text maxRetries attempt w :
  exists r tail,
    Joby.generateEmbedding_body env text maxRetries attempt w =
      (r, bump_embedCalls w, Trace.first_wait attempt :: EvEmbed text :: tail) /\
    ((exists v, r = Ok (Joby.Return v) /\ tail = []) \/
     (exists ms, r = Ok (Joby.Continue (attempt + 1)%Z) /\ (attempt + 1 < maxRetries)%Z /\
                 tail = [EvWarn "Rate limit hit (429)"; EvDelay RetryAfter ms]) \/
     (exists e what, r = Throw e /\ tail = [EvError what])).
Proof.
  unfold Joby.generateEmbedding_body, Joby.voyage_embed, Trace.first_wait, try_catch, bind,
    delay, emit, get, modify, of_res, ret, throw.
  destruct (0 <? attempt)%Z; simpl;
    destruct (embed_answer env (embedCalls w) text) as [v|e]; simpl;
    try (eexists _, _; split; [reflexivity|]; left; eauto; fail);
    destruct (Joby.is_rate_limit e); simpl;
    try destruct (Z.ltb_spec (attempt + 1) maxRetries); simpl;
    eexists _, _; (split; [reflexivity|]); eauto 10.
Qed.

Lemma loop_footprint env text maxRetries fuel : forall attempt w,
  exists r k evs,
    Joby.generateEmbedding_loop env fuel text maxRetries attempt w
      = (r, Nat.iter k bump_embedCalls w, evs) /\
    (k <= Z.to_nat (maxRetries - attempt))%nat /\
    Pace.work evs = replicate k (EvEmbed text) /\
    (forall waited, Pace.paced_from 20000 waited evs = true).
Proof.
  induction fuel as [|fuel IH]; intros attempt w; simpl;
    destruct (Z.ltb_spec attempt maxRetries) as [Hlt|Hge];
    try (unfold throw; eexists _, 0%nat, []; simpl;
         split_and!; [done | lia | done | done]).
  unfold bind at 1.
  destruct (body_shape env text maxRetries attempt w) as (r & tail & -> & Hshape).
  destruct (first_wait_floor attempt) as (kind & ms & -> & Hms).
  destruct Hshape as [(v & -> & ->)|[(ms' & -> & Hlt' & ->)|(e & what & -> & ->)]].
  - unfold ret. eexists _, 1%nat, _.
    split_and!; [reflexivity | lia | done |].
    intros waited. cbn [Pace.paced_from app]. by rewrite Hms.
  - destruct (IH (attempt + 1)%Z (bump_embedCalls w)) as (r & k & evs & -> & Hk & He & Hp).
    eexists r, (S k), _. split_and!.
    + rewrite Nat.iter_succ_r. reflexivity.
    + lia.
    + simpl. by rewrite He.
    + intros waited. cbn [Pace.paced_from app]. rewrite Hms. simpl. apply Hp.
  - eexists _, 1%nat, _.
    split_and!; [reflexivity | lia | done |].
    intros waited. cbn [Pace.paced_from app]. by rewrite Hms.
Qed.

(** X9.  Whatever the provider answers, [generateEmbedding] calls it at
    most [maxRetries] times (3 by default, never for [retries <= 0]): the
    calls are all it does outside, and the number of calls made is all it
    changes in the world. *)
Theorem generateEmbedding_calls_bounded env (text : string) (retries : option Z) (w : World) :
  exists r k evs,
    Joby.generateEmbedding env text retries w = (r, Nat.iter k bump_embedCalls w, evs) /\
    (k <= Z.to_nat (default 3%Z retries))%nat /\
    Pace.work evs = replicate k (EvEmbed text).
Proof.
  unfold Joby.generateEmbedding.
  destruct (loop_footprint env text (default 3%Z retries) (Z.to_nat (default 3%Z retries))
              0%Z w) as (r & k & evs & Hrun & Hk & He & _).
  exists r, k, evs. split_and!; [done | lia | done].
Qed.

(** X10.  Every call to the provider comes right after a wait of at least
    20 seconds, the first call included, whatever the provider answers. *)
Theorem generateEmbedding_paced env (text : string) (retries : option Z) (w : World) :
  Pace.paced 20000 (Joby.generateEmbedding env text retries w).2 = true.
Proof.
  unfold Joby.generateEmbedding, Pace.paced.
  destruct (loop_footprint env text (default 3%Z retries) (Z.to_nat (default 3%Z retries))
              0%Z w) as (r & k & evs & -> & _ & _ & Hp).
  apply Hp.
Qed.

(** X11.  An error of the provider that is not a throttling error ends
    [generateEmbedding] at once: after the pacing wait and one call, that
    very error is thrown, with no retry.  With [retries <= 0] the provider
    is not called at all and the generic failure is thrown. *)
Theorem generateEmbedding_no_retry env (text : string) (retries : option Z) (w : World)
    (e : Js.Error) :
  ((1 <= default 3%Z retries)%Z ->
   embed_answer env (embedCalls w) text = Throw e ->
   Joby.is_rate_limit e = false ->
   Joby.generateEmbedding env text retries w =
     (Throw e, bump_embedCalls w,
      [EvDelay Pacing 20000; EvEmbed text; EvError "Error generating embedding"])) /\
  ((default 3%Z retries <= 0)%Z ->
   Joby.generateEmbedding env text retries w =
     (Throw (Js.newError Joby.exhausted_message), w, [])).
Proof.
  unfold Joby.generateEmbedding. split.
  - intros Hmax Hans Hrl.
    destruct (Z.to_nat (default 3%Z retries)) as [|fuel] eqn:Hf; [lia|].
    simpl. destruct (Z.ltb_spec 0 (default 3%Z retries)); [|lia].
    unfold bind at 1, Joby.generateEmbedding_body, Joby.voyage_embed, try_catch, bind,
      delay, emit, get, modify, of_res, ret, throw.
    simpl. rewrite Hans. simpl. rewrite Hrl. simpl. done.
  - intros Hmax.
    destruct (Z.to_nat (default 3%Z retries)); simpl;
      destruct (Z.ltb_spec 0 (default 3%Z retries)); try lia; done.
Qed.

Lemma generateEmbedding_no_retry_witness :
  Joby.generateEmbedding Scenario.env_embed_down "Joby flies" None Scenario.world_ready =
    (Throw Scenario.server_error, bump_embedCalls Scenario.world_ready,
     [EvDelay Pacing 20000; EvEmbed "Joby flies"; EvError "Error generating embedding"]) /\
  Joby.generateEmbedding Scenario.env_embed_down "Joby flies" (Some 0%Z) Scenario.world_ready =
    (Throw (Js.newError Joby.exhausted_message), Scenario.world_ready, []).
Proof.
  split.
  - apply (proj1 (generateEmbedding_no_retry Scenario.env_embed_down "Joby flies" None
                    Scenario.world_ready Scenario.server_error)); [simpl; lia | done | done].
  - apply (proj2 (generateEmbedding_no_retry Scenario.env_embed_down "Joby flies" (Some 0%Z)
                    Scenario.world_ready Scenario.server_error)). simpl. lia.
Defined.

Lemma body_answered env text maxRetries attempt w answer :
  embed_answer env (embedCalls w) text = Ok answer ->
  Joby.generateEmbedding_body env text maxRetries attempt w =
    (Ok (Joby.Return (default [] answer)), bump_embedCalls w,
     [Trace.first_wait attempt; EvEmbed text]).
Proof.
  intros H.
  unfold Joby.generateEmbedding_body, Joby.voyage_embed, Trace.first_wait, try_catch, bind,
    delay, emit, get, modify, of_res, ret, throw.
  destruct (0 <? attempt)%Z; simpl; by rewrite H.
Qed.

Lemma body_retries env text maxRetries attempt w e :
  embed_answer env (embedCalls w) text = Throw e ->
  Joby.is_rate_limit e = true ->
  (attempt + 1 < maxRetries)%Z ->
  Joby.generateEmbedding_body env text maxRetries attempt w =
    (Ok (Joby.Continue (attempt + 1)%Z), bump_embedCalls w,
     [Trace.first_wait attempt; EvEmbed text; EvWarn "Rate limit hit (429)";
      EvDelay RetryAfter (Js.or_num (Js.retry_after e) 20 * 1000)]).
Proof.
  intros H Hrl Hlt.
  unfold Joby.generateEmbedding_body, Joby.voyage_embed, Trace.first_wait, try_catch, bind,
    delay, emit, get, modify, of_res, ret, throw.
  destruct (0 <? attempt)%Z; simpl; rewrite H; simpl; rewrite Hrl;
    (destruct (Z.ltb_spec (attempt + 1) maxRetries); [done | lia]).
Qed.

Section Recovering.
Variable env : Env.
Variable text : string.
Variable maxRetries : Z.
Variable errs : nat -> Js.Error.
Variable answer : option Embedding.
Variable c0 : nat.

Lemma loop_recovers j : forall i0 fuel w,
  embedCalls w = (c0 + i0)%nat ->
  (forall i, (i0 <= i < i0 + j)%nat ->
     embed_answer env (c0 + i) text = Throw (errs i) /\ Joby.is_rate_limit (errs i) = true) ->
  embed_answer env (c0 + i0 + j) text = Ok answer ->
  (Z.of_nat (i0 + j) < maxRetries)%Z ->
  (j < fuel)%nat ->
  exists w' evs,
    Joby.generateEmbedding_loop env fuel text maxRetries (Z.of_nat i0) w
      = (Ok (default [] answer), w', evs) /\
    embedCalls w' = (c0 + i0 + j + 1)%nat /\
    tables w' = tables w /\
    Trace.delays_of RetryAfter evs =
      (fun i => Js.or_num (Js.retry_after (errs i)) 20 * 1000)%Z <$> seq i0 j /\
    Trace.delays_of Backoff evs =
      Joby.backoffDelay <$> seqZ (Z.max (Z.of_nat i0) 1)
                                 (Z.of_nat (i0 + j) + 1 - Z.max (Z.of_nat i0) 1) /\
    Trace.delays_of Pacing evs = (if (i0 =? 0)%nat then [20000%Z] else []).
Proof.
  induction j as [|j IH]; intros i0 fuel w Hc Herr Hok Hmax Hfuel;
    (destruct fuel as [|fuel]; [lia|]); simpl;
    (destruct (Z.ltb_spec (Z.of_nat i0) maxRetries); [|lia]);
    unfold bind at 1.
  - rewrite (body_answered _ _ _ _ _ answer)
      by (rewrite Hc; by replace (c0 + i0)%nat with (c0 + i0 + 0)%nat by lia).
    unfold ret. eexists _, _. split; [reflexivity|].
    unfold Trace.first_wait. simpl embedCalls. rewrite Hc.
    destruct (Z.ltb_spec 0 (Z.of_nat i0)) as [Hpos|Hz]; simpl.
    + destruct (Nat.eqb_spec i0 0); [lia|].
      split_and!; try done; try lia.
      replace (Z.max (Z.of_nat i0) 1) with (Z.of_nat i0) by lia.
      by replace (Z.of_nat (i0 + 0) + 1 - Z.of_nat i0)%Z with 1%Z by lia.
    + assert (i0 = 0)%nat as -> by lia. split_and!; try done; lia.
  - destruct (Herr i0) as [He Hrl]; [lia|].
    rewrite (body_retries _ _ _ _ _ (errs i0)) by (rewrite ?Hc; done || lia).
    replace (Z.of_nat i0 + 1)%Z with (Z.of_nat (S i0)) by lia.
    destruct (IH (S i0) fuel (bump_embedCalls w))
      as (w' & evs & Hrun & Hc' & Ht & Hra & Hbo & Hpa).
    { simpl. lia. }
    { intros i Hi. apply Herr. lia. }
    { replace (c0 + S i0 + j)%nat with (c0 + i0 + S j)%nat by lia. exact Hok. }
    { lia. }
    { lia. }
    rewrite Hrun. eexists _, _. split; [reflexivity|].
    rewrite !(delays_of_app _ [_; _; _; _]), Hra, Hbo, Hpa.
    unfold Trace.first_wait.
    destruct (Z.ltb_spec 0 (Z.of_nat i0)) as [Hpos|Hz]; simpl.
    + split_and!; [lia | by rewrite Ht | done | |].
      * replace (Z.max (Z.of_nat i0) 1) with (Z.of_nat i0) by lia.
        replace (Z.max (Z.of_nat (S i0)) 1) with (Z.of_nat i0 + 1)%Z by lia.
        rewrite (seqZ_cons (Z.of_nat i0)) by lia. simpl. do 3 f_equal; lia.
      * destruct (Nat.eqb_spec i0 0); [lia | done].
    + assert (i0 = 0)%nat as -> by lia.
      split_and!; [lia | by rewrite Ht | done | | done].
      simpl. do 2 f_equal; lia.
Qed.

End Recovering.

(** X12.  The provider throttles the first [k] calls and answers the next
    one, with [k < maxRetries]: [generateEmbedding] returns that answer
    (the empty vector when the answer carries none) after [k + 1] calls.
    Before each retry it waits the seconds the provider suggested (20 when
    it suggested none) and then the backoff of that attempt. *)
Theorem generateEmbedding_recovers env (text : string) (retries : option Z) (w : World)
    (errs : nat -> Js.Error) (answer : option Embedding) (k : nat) :
  (Z.of_nat k < default 3%Z retries)%Z ->
  (forall i, (i < k)%nat ->
     embed_answer env (embedCalls w + i) text = Throw (errs i) /\
     Joby.is_rate_limit (errs i) = true) ->
  embed_answer env (embedCalls w + k) text = Ok answer ->
  exists w' evs,
    Joby.generateEmbedding env text retries w = (Ok (default [] answer), w', evs) /\
    embedCalls w' = (embedCalls w + k + 1)%nat /\
    Trace.delays_of Pacing evs = [20000%Z] /\
    Trace.delays_of RetryAfter evs =
      (fun i => Js.or_num (Js.retry_after (errs i)) 20 * 1000)%Z <$> seq 0 k /\
    Trace.delays_of Backoff evs = Joby.backoffDelay <$> seqZ 1 (Z.of_nat k).
Proof.
  intros Hk Herr Hok. unfold Joby.generateEmbedding.
  destruct (loop_recovers env text (default 3%Z retries) errs answer (embedCalls w) k
              0%nat (Z.to_nat (default 3%Z retries)) w)
    as (w' & evs & Hrun & Hc & _ & Hra & Hbo & Hpa).
  - lia.
  - intros i Hi. apply Herr. lia.
  - by replace (embedCalls w + 0 + k)%nat with (embedCalls w + k)%nat by lia.
  - simpl. lia.
  - lia.
  - change (Z.of_nat 0) with 0%Z in Hrun. rewrite Hrun. exists w', evs.
    split_and!; [done | lia | done | done |].
    rewrite Hbo. f_equal. f_equal; lia.
Qed.

Lemma generateEmbedding_recovers_witness :
  exists w' evs,
    Joby.generateEmbedding Scenario2.env_recovers "Joby flies" None Scenario.world_ready
      = (Ok [4%Z; 5%Z], w', evs) /\
    embedCalls w' = 3%nat /\
    Trace.delays_of Pacing evs = [20000%Z] /\
    Trace.delays_of RetryAfter evs = [7000%Z; 20000%Z] /\
    Trace.delays_of Backoff evs = [20000%Z; 40000%Z].
Proof.
  apply (generateEmbedding_recovers Scenario2.env_recovers "Joby flies" None
           Scenario.world_ready Scenario2.recover_errs (Some [4%Z; 5%Z]) 2).
  - simpl. lia.
  - intros [|[|i]] Hi; [done | done | lia].
  - reflexivity.
Defined.

(** ** One article through the Joby pipeline *)

Lemma embedded_app evs1 evs2 : Pace.embedded (evs1 ++ evs2) = Pace.embedded evs1 ++ Pace.embedded evs2.
Proof.
  induction evs1 as [|e evs1 IH]; [done|].
  destruct e; simpl; by rewrite ?IH.
Qed.

Lemma iter_bump_fields k w :
  tables (Nat.iter k bump_embedCalls w) = tables w /\
  tracker (Nat.iter k bump_embedCalls w) = tracker w /\
  newsBrowser (Nat.iter k bump_embedCalls w) = newsBrowser w /\
  newsPage (Nat.iter k bump_embedCalls w) = newsPage w.
Proof. induction k as [|k IH]; simpl; [done | exact IH]. Qed.

(** What [storeNews] does: a row appended to [news] and its index
    returned, or the world untouched and an error thrown. *)
Lemma storeNews_outcome env newsData v w :
  (exists rows,
     tables w !! "news" = Some rows /\
     (url_unique env "news" = true -> url newsData ∉ r_url <$> rows) /\
     Joby.storeNews env newsData v w =
       (Ok (length rows),
        set_tables (<["news" := rows ++ [{| r_data := newsData; r_embedding := v |}]]>
                      (tables w)) w,
        [EvInsert "news" (url newsData)])) \/
  (exists e evs, Joby.storeNews env newsData v w = (Throw e, w, evs) /\
     Trace.inserted_urls evs = [url newsData] /\ Pace.embedded evs = []).
Proof.
  unfold Joby.storeNews, Store.insert, try_catch, bind, get, emit, settle, modify,
    ret, throw, r_url. simpl.
  destruct (write_rejects env "news" (url newsData)); simpl; [right; eauto 10|].
  destruct (tables w !! "news") as [rows|] eqn:Ht; simpl; [|right; eauto 10].
  destruct (url_unique env "news") eqn:Hu; simpl.
  - case_bool_decide as Hrows; simpl; [right; eauto 10|].
    left. exists rows. split_and!; [done | | done].
    intros _. by apply rows_with_nil.
  - left. exists rows. split_and!; [done | done | done].
Qed.

Lemma fetch_outcome env u w :
  exists c w' evs,
    Joby.fetchArticleContentDirect env u w = (Ok c, w', evs) /\
    tables w' = tables w /\ tracker w' = tracker w /\ embedCalls w' = embedCalls w /\
    Trace.inserted_urls evs = [] /\ Pace.embedded evs = [] /\
    (c = None \/ c = fetch_answer env u).
Proof.
  unfold Joby.fetchArticleContentDirect, Joby.initializeNewsBrowser, try_catch, bind,
    get, emit, settle, modify, ret, throw.
  destruct (newsPage w); simpl; [eauto 15|].
  destruct (launch_answer env); simpl; [eauto 15|].
  destruct (newPage_answer env); simpl; eauto 15.
Qed.

(** The existence check that opens [processAndStoreDirectUrl], by the
    tracker or by [recordExists]. *)
Lemma check_phase env u (withTracker : bool) w :
  exists (checked : Joby.ProcessResult + bool) w1 t1,
    (if withTracker then
       bind (DuplicateTracker.processCheck env u) (fun checkResult =>
         if DuplicateTracker.shouldStop checkResult then ret (inl Joby.skip_duplicate)
         else ret (inr (DuplicateTracker.isDuplicate checkResult)))
     else bind (Joby.recordExists env u) (fun d => ret (inr d))) w
      = (Ok checked, w1, t1) /\
    tables w1 = tables w /\ embedCalls w1 = embedCalls w /\
    newsBrowser w1 = newsBrowser w /\ newsPage w1 = newsPage w /\
    Pace.work t1 = [] /\
    match checked with inl r => r = Joby.skip_duplicate | inr _ => True end.
Proof.
  destruct withTracker; unfold bind at 1.
  - destruct (processCheck_effects env u w)
      as (answer & w1 & t1 & -> & Hchk & Hwork & Ht & Hb & Hp & Hc & _).
    destruct (DuplicateTracker.shouldStop answer); unfold ret; simpl;
      rewrite app_nil_r; eauto 15.
  - unfold Joby.recordExists, Store.count_by_url, try_catch, bind, get, emit, settle,
      ret, throw.
    destruct (query_rejects env "news" u); simpl; eauto 15.
Qed.

Lemma work_nil_quiet evs :
  Pace.work evs = [] -> Trace.inserted_urls evs = [] /\ Pace.embedded evs = [].
Proof. induction evs as [|e evs IH]; [done|]. destruct e; simpl; try done; auto. Qed.

Lemma work_only_embeds evs : forall k text,
  Pace.work evs = replicate k (EvEmbed text) -> Trace.inserted_urls evs = [].
Proof.
  induction evs as [|e evs IH]; intros k text Hw; [done|].
  destruct e; simpl in *; try (by eapply IH);
    destruct k; simpl in Hw; try done.
  injection Hw as _ Hw. by eapply IH.
Qed.

Ltac outcome_done :=
  eexists _, _, _; (split; [reflexivity|]);
  rewrite ?inserted_urls_app, ?embedded_app, ?work_app; simpl.

(** The ways through [processAndStoreDirectUrl]. *)
Lemma processAndStoreDirectUrl_paths env u category (withTracker : bool) w :
  exists r w' evs,
    Joby.processAndStoreDirectUrl env u category withTracker w = (Ok r, w', evs) /\
    ((r = Joby.skip_duplicate /\ tables w' = tables w /\ embedCalls w' = embedCalls w /\
      newsBrowser w' = newsBrowser w /\ newsPage w' = newsPage w /\ Pace.work evs = []) \/
     (r = Joby.not_processed /\ tables w' = tables w /\
      ((fetch_answer env u = None \/
        exists fc, fetch_answer env u = Some fc /\ Js.trim_is_empty (c_content fc) = true) ->
       Pace.embedded evs = [] /\ Trace.inserted_urls evs = [])) \/
     (r = Joby.stored /\
      exists rows fc v,
        fetch_answer env u = Some fc /\ Js.trim_is_empty (c_content fc) = false /\
        tables w !! "news" = Some rows /\
        (url_unique env "news" = true -> u ∉ r_url <$> rows) /\
        tables w' = <["news" := rows ++ [JobyText.document env u category fc v]]> (tables w) /\
        Trace.inserted_urls evs = [u])).
Proof.
  unfold Joby.processAndStoreDirectUrl, try_catch, bind at 1.
  destruct (check_phase env u withTracker w)
    as (checked & w1 & t1 & -> & Ht1 & Hc1 & Hb1 & Hp1 & Hw1 & Hchk).
  destruct (work_nil_quiet t1 Hw1) as [Hi1 He1].
  destruct checked as [r|[|]].
  - subst r. unfold ret. outcome_done. rewrite app_nil_r. left. split_and!; congruence.
  - unfold ret. outcome_done. rewrite app_nil_r. left. split_and!; congruence.
  - unfold bind at 1.
    destruct (fetch_outcome env u w1) as (c & w2 & t2 & -> & Ht2 & _ & Hc2 & Hi2 & He2 & Hfetch).
    destruct c as [fullContent|].
    2:{ unfold bind, emit, ret. outcome_done. right; left.
        rewrite Hi1, Hi2, He1, He2. split_and!; [done | congruence | done]. }
    destruct Hfetch as [|Hfetch]; [done|].
    destruct (String.eqb (c_title fullContent) "" && String.eqb (c_content fullContent) "")
      eqn:Hboth.
    { unfold ret. outcome_done. right; left.
      rewrite Hi1, Hi2, He1, He2. split_and!; [done | congruence | done]. }
    destruct (Joby.contentType env u category fullContent) as [articleCategory newsType] eqn:Hct.
    destruct (String.eqb (c_content fullContent) "" || Js.trim_is_empty (c_content fullContent))
      eqn:Hblank.
    { unfold bind, emit, ret. outcome_done. right; left.
      rewrite Hi1, Hi2, He1, He2. split_and!; [done | congruence | done]. }
    apply orb_false_iff in Hblank as [_ Hblank].
    unfold bind at 1, Joby.generateEmbedding. simpl default.
    destruct (loop_footprint env (c_content fullContent) 3 (Z.to_nat 3) 0%Z w2)
      as (rv & k & t3 & -> & _ & Hw3 & _).
    destruct (iter_bump_fields k w2) as (Ht3 & _).
    pose proof (work_only_embeds _ _ _ Hw3) as Hi3.
    destruct rv as [v|e].
    2:{ unfold bind, emit, ret. outcome_done. right; left.
        split_and!; [done | congruence |].
        intros [Hn|(fc & Hfc & Hb)]; [congruence|].
        rewrite <- Hfetch in Hfc. injection Hfc as <-. congruence. }
    unfold bind at 1.
    match goal with |- context [Joby.storeNews env ?d v ?w3] =>
      destruct (storeNews_outcome env d v w3)
        as [(rows & Hrows & Hfresh & ->)|(e & t4 & -> & Hi4 & He4)]
    end.
    + unfold ret. outcome_done. right; right. split; [done|].
      exists rows, fullContent, v.
      rewrite Ht3, Ht2, Ht1 in Hrows.
      split_and!; try done.
      * rewrite Ht3, Ht2, Ht1. unfold JobyText.document. by rewrite Hct.
      * by rewrite Hi1, Hi2, Hi3.
    + unfold bind, emit, ret. outcome_done. right; left.
      split_and!; [done | congruence |].
      intros [Hn|(fc & Hfc & Hb)]; [congruence|].
      rewrite <- Hfetch in Hfc. injection Hfc as <-. congruence.
Qed.

(** X13.  [processAndStoreDirectUrl] never throws, with or without a
    tracker.  When it answers "duplicate" it has done nothing but the
    existence check: no page fetched, no call to the provider, nothing
    written, the article not counted as processed.  Whenever the article is
    not processed the tables are as before. *)
Theorem processAndStoreDirectUrl_skips_cheaply env (u : string) (category : option string)
    (withTracker : bool) (w : World) :
  exists r w' evs,
    Joby.processAndStoreDirectUrl env u category withTracker w = (Ok r, w', evs) /\
    (Joby.isDuplicate r = true ->
     Joby.processed r = false /\ Pace.work evs = [] /\
     tables w' = tables w /\ embedCalls w' = embedCalls w /\
     newsBrowser w' = newsBrowser w /\ newsPage w' = newsPage w) /\
    (Joby.processed r = false -> tables w' = tables w).
Proof.
  destruct (processAndStoreDirectUrl_paths env u category withTracker w)
    as (r & w' & evs & Hrun & [Hd|[Hn|Hs]]); exists r, w', evs; (split; [exact Hrun|]).
  - destruct Hd as (-> & ? & ? & ? & ? & ?). split; [done|]. done.
  - destruct Hn as (-> & ? & _). split; [done | done].
  - destruct Hs as (-> & _). split; done.
Qed.

(** X14.  When [processAndStoreDirectUrl] answers "processed", exactly one
    row was appended to the [news] table and sent to the store: the row of
    that url, with the fetched content, the types and the sentiment the
    code computes from it (with the engine's [toLowerCase]), and an
    embedding.  The content was not one that [trim()] empties, and under
    the unique index the url was not in the table before. *)
Theorem processAndStoreDirectUrl_stores_one_row env (u : string) (category : option string)
    (withTracker : bool) (w : World) r w' evs :
  Joby.processAndStoreDirectUrl env u category withTracker w = (Ok r, w', evs) ->
  Joby.processed r = true ->
  exists rows fc v,
    fetch_answer env u = Some fc /\ Js.trim_is_empty (c_content fc) = false /\
    tables w !! "news" = Some rows /\
    (url_unique env "news" = true -> u ∉ r_url <$> rows) /\
    tables w' = <["news" := rows ++ [JobyText.document env u category fc v]]> (tables w) /\
    Trace.inserted_urls evs = [u].
Proof.
  intros Hrun Hp.
  destruct (processAndStoreDirectUrl_paths env u category withTracker w)
    as (r0 & w0 & evs0 & Hrun0 & Hcases).
  rewrite Hrun in Hrun0. injection Hrun0 as <- <- <-.
  destruct Hcases as [(-> & _)|[(-> & _)|(_ & Hs)]]; [done | done | exact Hs].
Qed.

Lemma processAndStoreDirectUrl_stores_one_row_witness :
  exists rows fc v,
    fetch_answer Scenario.env_example (Scenario.site +:+ "a") = Some fc /\
    Js.trim_is_empty (c_content fc) = false /\
    tables Scenario.world_ready !! "news" = Some rows /\
    (url_unique Scenario.env_example "news" = true ->
     Scenario.site +:+ "a" ∉ r_url <$> rows) /\
    tables (Joby.processAndStoreDirectUrl Scenario.env_example (Scenario.site +:+ "a")
              (Some "press-releases") false Scenario.world_ready).1.2 =
      <["news" := rows ++ [JobyText.document Scenario.env_example (Scenario.site +:+ "a")
                             (Some "press-releases") fc v]]> (tables Scenario.world_ready) /\
    Trace.inserted_urls
      (Joby.processAndStoreDirectUrl Scenario.env_example (Scenario.site +:+ "a")
         (Some "press-releases") false Scenario.world_ready).2 = [Scenario.site +:+ "a"].
Proof.
  eapply (processAndStoreDirectUrl_stores_one_row Scenario.env_example
            (Scenario.site +:+ "a") (Some "press-releases") false Scenario.world_ready
            Joby.stored).
  - vm_compute. reflexivity.
  - reflexivity.
Defined.

(** X15.  An article whose page cannot be fetched, or whose fetched
    content is empty or white space only (any text that [trim()] empties,
    the white space of Unicode included), is never sent to the embedding
    provider nor to the store. *)
Theorem processAndStoreDirectUrl_blank_content env (u : string) (category : option string)
    (withTracker : bool) (w : World) :
  fetch_answer env u = None \/
  (exists fc, fetch_answer env u = Some fc /\ Js.trim_is_empty (c_content fc) = true) ->
  exists r w' evs,
    Joby.processAndStoreDirectUrl env u category withTracker w = (Ok r, w', evs) /\
    Joby.processed r = false /\
    Pace.embedded evs = [] /\ Trace.inserted_urls evs = [] /\
    tables w' = tables w.
Proof.
  intros Hblank.
  destruct (processAndStoreDirectUrl_paths env u category withTracker w)
    as (r & w' & evs & Hrun & [Hd|[Hn|Hs]]); exists r, w', evs; (split; [exact Hrun|]).
  - destruct Hd as (-> & ? & ? & ? & ? & Hw).
    destruct (work_nil_quiet evs Hw). done.
  - destruct Hn as (-> & ? & Hq). destruct (Hq Hblank). done.
  - destruct Hs as (_ & rows & fc & v & Hfc & Hnb & _).
    destruct Hblank as [Hnone|(fc' & Hfc' & Hb)]; [congruence|].
    rewrite Hfc in Hfc'. injection Hfc' as <-. congruence.
Qed.

Lemma processAndStoreDirectUrl_blank_content_witness :
  exists r w' evs,
    Joby.processAndStoreDirectUrl Scenario2.env_blank_page "u" None false Scenario.world_ready
      = (Ok r, w', evs) /\
    Joby.processed r = false /\
    Pace.embedded evs = [] /\ Trace.inserted_urls evs = [] /\
    tables w' = tables Scenario.world_ready.
Proof.
  apply (processAndStoreDirectUrl_blank_content Scenario2.env_blank_page "u" None false
           Scenario.world_ready).
  right. eexists. split; reflexivity.
Defined.

Lemma recordExists_reads_table env (u : string) (w : World) (rows : list Row) :
  query_rejects env "news" u = None ->
  query_errors env "news" u = false ->
  tables w !! "news" = Some rows ->
  Joby.recordExists env u w =
    (Ok (bool_decide (u ∈ r_url <$> rows)), w, [EvExists "news" u]).
Proof.
  intros Hr He Ht.
  unfold Joby.recordExists, Store.count_by_url, try_catch, bind, get,
    emit, settle, ret, throw.
  simpl. rewrite Hr. simpl. rewrite He, Ht. simpl.
  do 2 f_equal. f_equal.
  pose proof (rows_with_length u rows) as Hl.
  case_bool_decide as Hin.
  - apply Hl in Hin. destruct (length (Store.rows_with u rows)) eqn:E; [lia|]. done.
  - destruct (length (Store.rows_with u rows)) eqn:E; [done|].
    exfalso. apply Hin, Hl. lia.
Qed.

(** X16.  Processing the same url twice: once an article has been
    processed, a later call for that url, whenever the existence query is
    answered, skips it as a duplicate after that one query and leaves the
    world as it is. *)
Theorem processAndStoreDirectUrl_twice env env' (u : string) (category category' : option string)
    (w : World) r w1 evs :
  Joby.processAndStoreDirectUrl env u category false w = (Ok r, w1, evs) ->
  Joby.processed r = true ->
  query_rejects env' "news" u = None ->
  query_errors env' "news" u = false ->
  Joby.processAndStoreDirectUrl env' u category' false w1 =
    (Ok Joby.skip_duplicate, w1, [EvExists "news" u]).
Proof.
  intros Hrun Hp Hq He.
  destruct (processAndStoreDirectUrl_paths env u category false w)
    as (r0 & w0 & evs0 & Hrun0 & Hcases).
  rewrite Hrun in Hrun0. injection Hrun0 as <- <- <-.
  destruct Hcases as [(-> & _)|[(-> & _)|(_ & rows & fc & v & _ & _ & _ & _ & Ht & _)]];
    [done | done |].
  assert (tables w1 !! "news" = Some (rows ++ [JobyText.document env u category fc v])) as Hnews
    by (rewrite Ht; apply lookup_insert_eq).
  unfold Joby.processAndStoreDirectUrl, try_catch, bind at 1, bind at 1.
  rewrite (recordExists_reads_table env' u w1 _ Hq He Hnews).
  rewrite bool_decide_true; [done|].
  rewrite fmap_app. apply elem_of_app. right. apply list_elem_of_singleton. done.
Qed.

Lemma processAndStoreDirectUrl_twice_witness :
  Joby.processAndStoreDirectUrl Scenario.env_example (Scenario.site +:+ "a")
    (Some "blog-posts") false Scenario2.world_after_a =
  (Ok Joby.skip_duplicate, Scenario2.world_after_a,
   [EvExists "news" (Scenario.site +:+ "a")]).
Proof.
  eapply (processAndStoreDirectUrl_twice Scenario.env_example Scenario.env_example
            (Scenario.site +:+ "a") (Some "press-releases") (Some "blog-posts")
            Scenario.world_ready Joby.stored).
  - vm_compute. reflexivity.
  - reflexivity.
  - reflexivity.
  - reflexivity.
Defined.

(** *** The article loop and the report of [processJobySpecificData] *)

Lemma processAndStoreDirectUrl_tracked env u category w :
  exists answer w1 t1 r w' evs,
    DuplicateTracker.processCheck env u w = (Ok answer, w1, t1) /\
    Joby.processAndStoreDirectUrl env u category true w = (Ok r, w', evs) /\
    tracker w' = tracker w1 /\
    (DuplicateTracker.shouldStop answer = true -> r = Joby.skip_duplicate).
Proof.
  destruct (processCheck_effects env u w) as (answer & w1 & t1 & Hpc & _).
  exists answer, w1, t1.
  unfold Joby.processAndStoreDirectUrl, try_catch, bind at 1, bind at 1.
  rewrite Hpc.
  destruct (DuplicateTracker.shouldStop answer).
  { unfold ret. eexists _, _, _. split_and!; done. }
  destruct (DuplicateTracker.isDuplicate answer).
  { unfold ret. eexists _, _, _. split_and!; done. }
  unfold ret at 1. unfold bind at 1.
  destruct (fetch_outcome env u w1) as (c & w2 & t2 & -> & _ & Hk2 & _).
  destruct c as [fullContent|].
  2:{ unfold bind, emit, ret. eexists _, _, _. split_and!; done. }
  destruct (String.eqb (c_title fullContent) "" && String.eqb (c_content fullContent) "").
  { unfold ret. eexists _, _, _. split_and!; done. }
  destruct (Joby.contentType env u category fullContent) as [articleCategory newsType].
  destruct (String.eqb (c_content fullContent) "" || Js.trim_is_empty (c_content fullContent)).
  { unfold bind, emit, ret. eexists _, _, _. split_and!; done. }
  unfold bind at 1, Joby.generateEmbedding. simpl default.
  destruct (loop_footprint env (c_content fullContent) 3 (Z.to_nat 3) 0%Z w2)
    as (rv & k & t3 & -> & _).
  destruct (iter_bump_fields k w2) as (_ & Hk3 & _).
  destruct rv as [v|e].
  2:{ unfold bind, emit, ret. eexists _, _, _. split_and!; [done.. | congruence | done]. }
  unfold bind at 1.
  match goal with |- context [Joby.storeNews env ?d v ?w3] =>
    destruct (storeNews_outcome env d v w3)
      as [(rows & _ & _ & ->)|(e & t4 & -> & _)]
  end.
  - unfold ret. eexists _, _, _. split_and!; [done.. | simpl; congruence | done].
  - unfold bind, emit, ret. eexists _, _, _. split_and!; [done.. | simpl; congruence | done].
Qed.

Lemma document_url env u category fc v : r_url (JobyText.document env u category fc v) = u.
Proof. reflexivity. Qed.

(** One turn of the article loop, up to the question whether to stop. *)
Lemma article_turn env article w :
  (1 <= maxConsecutiveDuplicates (tracker w))%Z ->
  exists r w' evs (stop : bool),
    Joby.processAndStoreArticle env article true w = (Ok r, w', evs) /\
    DuplicateTracker.shouldStopNow w' = (Ok stop, w', []) /\
    maxConsecutiveDuplicates (tracker w') = maxConsecutiveDuplicates (tracker w) /\
    (stop = true -> Joby.processed r = false /\
       (maxConsecutiveDuplicates (tracker w') <= consecutiveDuplicates (tracker w'))%Z) /\
    Ledger.stored_urls w' =
      Ledger.stored_urls w ++ (if Joby.processed r then [a_url article] else []).
Proof.
  intros Hmax. unfold Joby.processAndStoreArticle.
  destruct (processAndStoreDirectUrl_tracked env (a_url article) (Some (a_category article)) w)
    as (answer & w1 & t1 & r & w' & evs & Hpc & Hrun & Htr & Hstop).
  destruct (processAndStoreDirectUrl_paths env (a_url article) (Some (a_category article)) true w)
    as (r0 & w0 & evs0 & Hrun0 & Hcases).
  rewrite Hrun in Hrun0. injection Hrun0 as <- <- <-.
  exists r, w', evs, (DuplicateTracker.shouldStop answer).
  split; [exact Hrun|].
  destruct (processCheck_effects env (a_url article) w)
    as (answer' & w1' & t1' & Hpc' & _ & _ & _ & _ & _ & _ & Hmax1 & _).
  rewrite Hpc in Hpc'. injection Hpc' as <- <- <-.
  pose proof (shouldStop_after_check env (a_url article) w answer w1 t1 Hmax Hpc) as Hnow.
  assert (DuplicateTracker.shouldStopNow w' = (Ok (DuplicateTracker.shouldStop answer), w', []))
    as Hnow'.
  { revert Hnow. unfold DuplicateTracker.shouldStopNow, bind, get, ret. simpl.
    rewrite Htr. intros [= ->]. done. }
  split; [exact Hnow'|].
  split; [by rewrite Htr|].
  split.
  - intros Hs. rewrite (Hstop Hs). split; [done|].
    revert Hnow'. unfold DuplicateTracker.shouldStopNow, bind, get, ret. simpl.
    rewrite Hs. intros [= H]. by apply Z.leb_le.
  - unfold Ledger.stored_urls.
    destruct Hcases as [(-> & Ht & _)|[(-> & Ht & _)|(-> & rows & fc & v & _ & _ & Hrows & _ & Ht & _)]].
    + simpl. by rewrite Ht, app_nil_r.
    + simpl. by rewrite Ht, app_nil_r.
    + simpl. rewrite Ht, lookup_insert_eq, Hrows. simpl. by rewrite fmap_app.
Qed.

Lemma articles_loop_accounts env category : forall articles st w,
  (1 <= maxConsecutiveDuplicates (tracker w))%Z ->
  exists st' w' evs new,
    Joby.articles_loop env category articles st w = (Ok st', w', evs) /\
    maxConsecutiveDuplicates (tracker w') = maxConsecutiveDuplicates (tracker w) /\
    Joby.failedCount st' = Joby.failedCount st /\
    Joby.allProcessedDocuments st' = Joby.allProcessedDocuments st ++ new /\
    Joby.processedCount st' = (Joby.processedCount st + Z.of_nat (length new))%Z /\
    (Joby.skippedCount st <= Joby.skippedCount st')%Z /\
    (Z.of_nat (length new) + (Joby.skippedCount st' - Joby.skippedCount st)
       <= Z.of_nat (length articles))%Z /\
    (Joby.stoppedEarly st' = false ->
     (Z.of_nat (length new) + (Joby.skippedCount st' - Joby.skippedCount st)
        = Z.of_nat (length articles))%Z) /\
    (Joby.stoppedEarly st' = true ->
     Joby.stoppedEarly st = true \/
     (maxConsecutiveDuplicates (tracker w') <= consecutiveDuplicates (tracker w'))%Z) /\
    Joby.d_url <$> new `sublist_of` a_url <$> articles /\
    Forall (fun d => Joby.d_category d = category) new /\
    Ledger.stored_urls w' = Ledger.stored_urls w ++ (Joby.d_url <$> new).
Proof.
  induction articles as [|article articles IH]; intros st w Hmax.
  - simpl. unfold ret. exists st, w, [], []. simpl. rewrite !app_nil_r.
    split_and!; try done; try lia. intros ->; by left.
  - destruct (article_turn env article w Hmax)
      as (r & w1 & t1 & stop & Hrun & Hnow & Hmax1 & Hstop & Hurls).
    cbn [Joby.articles_loop]. unfold bind at 1, try_catch, bind at 1.
    rewrite Hrun. unfold bind at 1. rewrite Hnow.
    destruct stop.
    + destruct (Hstop eq_refl) as [Hr Hreached]. unfold ret.
      eexists _, _, _, []. split; [reflexivity|]. simpl. rewrite !app_nil_r.
      rewrite Hr in Hurls. rewrite app_nil_r in Hurls.
      split_and!; try done; try lia.
      apply sublist_nil_l.
    + unfold bind at 1, delay, emit, ret at 1.
      match goal with |- context [Joby.articles_loop env category articles ?st1 w1] =>
        destruct (IH st1 w1) as (st' & w' & evs & new & -> & Hm & Hf & Hd & Hp & Hs & Hle & Hall & He & Hsub & Hcat & Hu);
          [lia|]
      end.
      destruct (Joby.processed r) eqn:Hr; simpl in Hf, Hd, Hp, Hs, Hle, Hall, He.
      * eexists _, _, _, (_ :: new). split; [reflexivity|].
        rewrite <- app_assoc in Hd. simpl in Hd.
        split_and!; try done; try (cbn [length]; lia).
        -- cbn [length]. intros H. specialize (Hall H). lia.
        -- simpl. by apply sublist_skip.
        -- by constructor.
        -- rewrite Hu, Hurls, <- app_assoc. done.
      * eexists _, _, _, new. split; [reflexivity|].
        rewrite app_nil_r in Hurls.
        split_and!; try done; try (cbn [length]; lia).
        -- cbn [length]. intros H. specialize (Hall H). lia.
        -- simpl. by apply sublist_cons.
        -- by rewrite Hu, Hurls.
Qed.

Lemma initializeNewsBrowser_keeps_store env w r w' evs :
  Joby.initializeNewsBrowser env w = (r, w', evs) ->
  tables w' = tables w /\ tracker w' = tracker w.
Proof.
  unfold Joby.initializeNewsBrowser, try_catch, bind, emit, settle, modify, throw, ret.
  destruct (launch_answer env), (newPage_answer env); simpl; intros [= _ <- _]; done.
Qed.

Lemma cleanupNewsBrowser_quiet env w :
  exists w' evs,
    Joby.cleanupNewsBrowser env w = (Ok tt, w', evs) /\
    tables w' = tables w /\ tracker w' = tracker w /\ embedCalls w' = embedCalls w /\
    Pace.work evs = [].
Proof.
  unfold Joby.cleanupNewsBrowser, try_catch, bind, get, emit, settle, modify, throw, ret.
  destruct w as [d [] [] t n], (closePage_answer env), (closeBrowser_answer env);
    simpl; eauto 10.
Qed.

Lemma categories_loop_accounts env : forall categories rs w rs' w' evs,
  (1 <= maxConsecutiveDuplicates (tracker w))%Z ->
  Joby.run_stoppedEarly rs = false ->
  Joby.categories_loop env categories rs w = (Ok rs', w', evs) ->
  exists results docs,
    Joby.categoryResults rs' = Joby.categoryResults rs ++ results /\
    Joby.documents rs' = Joby.documents rs ++ docs /\
    Joby.totalProcessed rs' =
      (Joby.totalProcessed rs + Ledger.total Joby.cr_processed results)%Z /\
    Joby.totalSkipped rs' =
      (Joby.totalSkipped rs + Ledger.total Joby.cr_skipped results)%Z /\
    Joby.totalFailed rs' = Joby.totalFailed rs /\
    Forall Ledger.balanced results /\
    Joby.cr_category <$> results `prefix_of` categories /\
    (Ledger.total Joby.cr_processed results <= Z.of_nat (length docs))%Z /\
    (Joby.run_stoppedEarly rs' = false ->
     Joby.cr_category <$> results = categories /\
     Z.of_nat (length docs) = Ledger.total Joby.cr_processed results) /\
    (Joby.run_stoppedEarly rs' = true ->
     (maxConsecutiveDuplicates (tracker w') <= consecutiveDuplicates (tracker w'))%Z) /\
    maxConsecutiveDuplicates (tracker w') = maxConsecutiveDuplicates (tracker w) /\
    Ledger.stored_urls w' = Ledger.stored_urls w ++ (Joby.d_url <$> docs) /\
    (Joby.run_stoppedEarly rs' = true -> (length results < length categories)%nat).
Proof.
  induction categories as [|category categories IH]; intros rs w rs' w' evs Hmax Hrun.
  - simpl. unfold ret. intros [= <- <- _]. exists [], []. simpl. rewrite !app_nil_r.
    split_and!; try done; try lia; congruence.
  - cbn [Joby.categories_loop].
    unfold bind at 1, emit at 1. unfold bind at 1, settle at 1.
    destruct (goto_answer env category); [unfold throw; simpl; congruence|].
    unfold ret at 1. unfold bind at 1, delay at 1, emit at 1. unfold bind at 1, settle at 1.
    destruct (select_answer env category); [unfold throw; simpl; congruence|].
    unfold ret at 1. unfold bind at 1, of_res at 1.
    destruct (extract_answer env category) as [articles|e]; [|unfold throw; simpl; congruence].
    unfold ret at 1. unfold bind at 1.
    match goal with |- context [Joby.articles_loop env category articles ?st0 w] =>
      destruct (articles_loop_accounts env category articles st0 w Hmax)
        as (st & w1 & t1 & new & -> & Hm & Hf & Hd & Hp & Hs & Hle & Hall & He & Hsub & Hcat & Hu)
    end.
    simpl in Hf, Hd, Hp, Hs, Hle, Hall, He.
    destruct (Joby.stoppedEarly st) eqn:Hst.
    + unfold ret. intros [= <- <- _]. exists [], new. simpl. rewrite !app_nil_r.
      destruct (He eq_refl) as [?|Hreached]; [congruence|].
      split_and!; try done; try (simpl; lia).
      apply prefix_nil.
    + match goal with |- context [Joby.categories_loop env categories ?rs1 w1] =>
        destruct (Joby.categories_loop env categories rs1 w1) as [[[rs2|e] w2] t2] eqn:Hrest;
          [|simpl; congruence];
        destruct (IH rs1 w1 rs2 w2 t2) as
          (results & docs & Hcr & Hdocs & Htp & Hts & Htf & Hbal & Hpre & Hlen & Hfull & Hearly & Hm2 & Hu2 & Hshort);
          [lia | done | exact Hrest |]
      end.
      simpl. intros [= <- <- _].
      simpl in Hcr, Hdocs, Htp, Hts, Htf.
      specialize (Hall eq_refl).
      eexists (_ :: results), (new ++ docs).
      rewrite <- app_assoc in Hcr. simpl in Hcr.
      split_and!.
      * exact Hcr.
      * by rewrite Hdocs, Hd, app_assoc.
      * simpl. lia.
      * simpl. lia.
      * lia.
      * constructor; [|done]. split; simpl; lia.
      * simpl. by apply prefix_cons.
      * simpl. rewrite length_app. lia.
      * intros H. destruct (Hfull H) as [Hc Hl]. split; [by rewrite fmap_cons, Hc|].
        simpl. rewrite length_app. lia.
      * done.
      * congruence.
      * rewrite Hu2, Hu, fmap_app, app_assoc. done.
      * intros H. specialize (Hshort H). simpl. lia.
Qed.

Lemma processJobySpecificData_ledger env w report w' evs :
  Joby.processJobySpecificData env w = (Ok report, w', evs) ->
  exists rs,
    report =
      {| Joby.s_success := (0 <? Joby.totalProcessed rs)%Z;
         Joby.s_company := "Joby Aviation";
         Joby.s_totalDocuments := Z.of_nat (length (Joby.documents rs));
         Joby.s_processed := Joby.totalProcessed rs;
         Joby.s_skipped := Joby.totalSkipped rs;
         Joby.s_failed := Joby.totalFailed rs;
         Joby.s_stoppedEarly := Joby.run_stoppedEarly rs;
         Joby.s_consecutiveDuplicates := consecutiveDuplicates (tracker w');
         Joby.s_categoryResults := Joby.categoryResults rs;
         Joby.s_documents := Joby.documents rs |} /\
    Joby.totalProcessed rs = Ledger.total Joby.cr_processed (Joby.categoryResults rs) /\
    Joby.totalSkipped rs = Ledger.total Joby.cr_skipped (Joby.categoryResults rs) /\
    Joby.totalFailed rs = 0%Z /\
    Forall Ledger.balanced (Joby.categoryResults rs) /\
    Joby.cr_category <$> Joby.categoryResults rs `prefix_of` ["press-releases"; "blog-posts"] /\
    (Joby.totalProcessed rs <= Z.of_nat (length (Joby.documents rs)))%Z /\
    (Joby.run_stoppedEarly rs = false ->
     Joby.cr_category <$> Joby.categoryResults rs = ["press-releases"; "blog-posts"] /\
     Z.of_nat (length (Joby.documents rs)) = Joby.totalProcessed rs) /\
    (Joby.run_stoppedEarly rs = true -> (5 <= consecutiveDuplicates (tracker w'))%Z) /\
    Ledger.stored_urls w' = Ledger.stored_urls w ++ (Joby.d_url <$> Joby.documents rs) /\
    (Joby.run_stoppedEarly rs = true -> (length (Joby.categoryResults rs) < 2)%nat).
Proof.
  unfold Joby.processJobySpecificData, try_catch.
  unfold bind at 1.
  destruct (Joby.initializeNewsBrowser env w) as [[[[]|e] w1] t1] eqn:Hinit;
    [|unfold bind, emit, throw; simpl; congruence].
  destruct (initializeNewsBrowser_keeps_store _ _ _ _ _ Hinit) as [Ht1 _].
  unfold bind at 1, modify at 1. unfold bind at 1.
  match goal with |- context [Joby.categories_loop env ?cs ?rs0 ?w0] =>
    destruct (Joby.categories_loop env cs rs0 w0) as [[[rs|e] w2] t2] eqn:Hloop;
      [|unfold bind, emit, throw; simpl; congruence];
    destruct (categories_loop_accounts env cs rs0 w0 rs w2 t2) as
      (results & docs & Hcr & Hdocs & Htp & Hts & Htf & Hbal & Hpre & Hlen & Hfull & Hearly & Hm2 & Hu2 & Hshort);
      [simpl; lia | done | exact Hloop |]
  end.
  simpl in Hcr, Hdocs, Htp, Hts, Htf, Hm2. subst results docs.
  unfold bind at 1.
  destruct (cleanupNewsBrowser_quiet env w2) as (w3 & t3 & -> & Ht3 & Hk3 & _).
  unfold bind, DuplicateTracker.getConsecutiveCount, bind, get, ret. simpl.
  intros [= <- <- _]. exists rs.
  split; [done|].
  split_and!; try done; try lia.
  - intros H. destruct (Hfull H) as [Hc Hl]. split; [done | lia].
  - intros H. rewrite Hk3. specialize (Hearly H). lia.
  - unfold Ledger.stored_urls in *. rewrite Ht3, Hu2. simpl. by rewrite Ht1.
Qed.

(** X17.  The article loop of [processJobySpecificData], run with a
    tracker whose threshold is at least 1, never throws and never counts a
    failure: every article it visits is counted as processed or as skipped
    (all of them unless it stopped early).  The documents it appends are
    articles of the listing, in the listing's order and under the
    category's name, and they are exactly the rows added to the [news]
    table. *)
Theorem articles_loop_counts env (category : string) (articles : list Article)
    (st : Joby.CategoryState) (w : World) :
  (1 <= maxConsecutiveDuplicates (tracker w))%Z ->
  exists st' w' evs new,
    Joby.articles_loop env category articles st w = (Ok st', w', evs) /\
    Joby.failedCount st' = Joby.failedCount st /\
    Joby.allProcessedDocuments st' = Joby.allProcessedDocuments st ++ new /\
    Joby.processedCount st' = (Joby.processedCount st + Z.of_nat (length new))%Z /\
    (Joby.skippedCount st <= Joby.skippedCount st')%Z /\
    (Z.of_nat (length new) + (Joby.skippedCount st' - Joby.skippedCount st)
       <= Z.of_nat (length articles))%Z /\
    (Joby.stoppedEarly st' = false ->
     (Z.of_nat (length new) + (Joby.skippedCount st' - Joby.skippedCount st)
        = Z.of_nat (length articles))%Z) /\
    Joby.d_url <$> new `sublist_of` a_url <$> articles /\
    Forall (fun d => Joby.d_category d = category) new /\
    Ledger.stored_urls w' = Ledger.stored_urls w ++ (Joby.d_url <$> new).
Proof.
  intros Hmax.
  destruct (articles_loop_accounts env category articles st w Hmax)
    as (st' & w' & evs & new & H1 & _ & H3 & H4 & H5 & H6 & H7 & H8 & _ & H10 & H11 & H12).
  exists st', w', evs, new. split_and!; done.
Qed.

Lemma articles_loop_counts_witness :
  exists st' w' evs new,
    Joby.articles_loop Scenario.env_example "press-releases" Scenario.candidates
      Scenario.fresh_category Scenario.world_example_tracking = (Ok st', w', evs) /\
    Joby.failedCount st' = Joby.failedCount Scenario.fresh_category /\
    Joby.allProcessedDocuments st' =
      Joby.allProcessedDocuments Scenario.fresh_category ++ new /\
    Joby.processedCount st' =
      (Joby.processedCount Scenario.fresh_category + Z.of_nat (length new))%Z /\
    (Joby.skippedCount Scenario.fresh_category <= Joby.skippedCount st')%Z /\
    (Z.of_nat (length new) +
       (Joby.skippedCount st' - Joby.skippedCount Scenario.fresh_category)
       <= Z.of_nat (length Scenario.candidates))%Z /\
    (Joby.stoppedEarly st' = false ->
     (Z.of_nat (length new) +
        (Joby.skippedCount st' - Joby.skippedCount Scenario.fresh_category)
        = Z.of_nat (length Scenario.candidates))%Z) /\
    Joby.d_url <$> new `sublist_of` a_url <$> Scenario.candidates /\
    Forall (fun d => Joby.d_category d = "press-releases") new /\
    Ledger.stored_urls w' =
      Ledger.stored_urls Scenario.world_example_tracking ++ (Joby.d_url <$> new).
Proof.
  apply (articles_loop_counts Scenario.env_example "press-releases" Scenario.candidates
           Scenario.fresh_category Scenario.world_example_tracking).
  simpl. lia.
Defined.

(** X18.  Every report [processJobySpecificData] returns adds up: [failed]
    is 0; [success] says whether [processed] is positive; [processed] and
    [skipped] are the sums over the per-category results; each of these
    has processed + skipped = total and no failure; the categories reported
    are an initial part of press-releases, blog-posts; [totalDocuments] is
    the length of [documents] and never below [processed]; and a run not
    stopped early reports both categories with [totalDocuments] equal to
    [processed]. *)
Theorem report_adds_up env (w : World) report w' evs :
  Joby.processJobySpecificData env w = (Ok report, w', evs) ->
  Joby.s_failed report = 0%Z /\
  Joby.s_success report = (0 <? Joby.s_processed report)%Z /\
  Joby.s_processed report = Ledger.total Joby.cr_processed (Joby.s_categoryResults report) /\
  Joby.s_skipped report = Ledger.total Joby.cr_skipped (Joby.s_categoryResults report) /\
  Forall Ledger.balanced (Joby.s_categoryResults report) /\
  Joby.cr_category <$> Joby.s_categoryResults report
    `prefix_of` ["press-releases"; "blog-posts"] /\
  Joby.s_totalDocuments report = Z.of_nat (length (Joby.s_documents report)) /\
  (Joby.s_processed report <= Joby.s_totalDocuments report)%Z /\
  (Joby.s_stoppedEarly report = false ->
   Joby.cr_category <$> Joby.s_categoryResults report = ["press-releases"; "blog-posts"] /\
   Joby.s_totalDocuments report = Joby.s_processed report).
Proof.
  intros Hrun.
  destruct (processJobySpecificData_ledger env w report w' evs Hrun)
    as (rs & -> & Hp & Hs & Hf & Hbal & Hpre & Hle & Hfull & _).
  simpl. split_and!; done.
Qed.

Lemma report_adds_up_witness :
  Joby.s_failed (Scenario2.report_of Scenario2.full_run) = 0%Z /\
  Joby.s_success (Scenario2.report_of Scenario2.full_run) =
    (0 <? Joby.s_processed (Scenario2.report_of Scenario2.full_run))%Z /\
  Joby.s_processed (Scenario2.report_of Scenario2.full_run) =
    Ledger.total Joby.cr_processed
      (Joby.s_categoryResults (Scenario2.report_of Scenario2.full_run)) /\
  Joby.s_skipped (Scenario2.report_of Scenario2.full_run) =
    Ledger.total Joby.cr_skipped
      (Joby.s_categoryResults (Scenario2.report_of Scenario2.full_run)) /\
  Forall Ledger.balanced (Joby.s_categoryResults (Scenario2.report_of Scenario2.full_run)) /\
  Joby.cr_category <$> Joby.s_categoryResults (Scenario2.report_of Scenario2.full_run)
    `prefix_of` ["press-releases"; "blog-posts"] /\
  Joby.s_totalDocuments (Scenario2.report_of Scenario2.full_run) =
    Z.of_nat (length (Joby.s_documents (Scenario2.report_of Scenario2.full_run))) /\
  (Joby.s_processed (Scenario2.report_of Scenario2.full_run)
     <= Joby.s_totalDocuments (Scenario2.report_of Scenario2.full_run))%Z /\
  (Joby.s_stoppedEarly (Scenario2.report_of Scenario2.full_run) = false ->
   Joby.cr_category <$> Joby.s_categoryResults (Scenario2.report_of Scenario2.full_run)
     = ["press-releases"; "blog-posts"] /\
   Joby.s_totalDocuments (Scenario2.report_of Scenario2.full_run)
     = Joby.s_processed (Scenario2.report_of Scenario2.full_run)).
Proof.
  apply (report_adds_up Scenario.env_example Scenario2.world_one_known
           (Scenario2.report_of Scenario2.full_run)
           Scenario2.full_run.1.2 Scenario2.full_run.2).
  vm_compute. reflexivity.
Defined.

(** X19.  In every report [processJobySpecificData] returns, [documents]
    lists exactly the articles whose rows the run added to the [news]
    table, in the order they were added; this holds also for a run that
    stopped early, whose [processed] counter misses them.  A run reports
    [stoppedEarly] only with a count of consecutive duplicates of at
    least 5. *)
Theorem report_documents_are_the_rows_added env (w : World) report w' evs :
  Joby.processJobySpecificData env w = (Ok report, w', evs) ->
  Ledger.stored_urls w' = Ledger.stored_urls w ++ (Joby.d_url <$> Joby.s_documents report) /\
  (Joby.s_stoppedEarly report = true -> (5 <= Joby.s_consecutiveDuplicates report)%Z).
Proof.
  intros Hrun.
  destruct (processJobySpecificData_ledger env w report w' evs Hrun)
    as (rs & -> & _ & _ & _ & _ & _ & _ & _ & Hearly & Hurls & _).
  simpl. split; done.
Qed.

Lemma report_documents_are_the_rows_added_witness :
  Ledger.stored_urls Scenario2.short_run.1.2 =
    Ledger.stored_urls Scenario.world_example ++
    (Joby.d_url <$> Joby.s_documents (Scenario2.report_of Scenario2.short_run)) /\
  (Joby.s_stoppedEarly (Scenario2.report_of Scenario2.short_run) = true ->
   (5 <= Joby.s_consecutiveDuplicates (Scenario2.report_of Scenario2.short_run))%Z).
Proof.
  apply (report_documents_are_the_rows_added Scenario.env_example Scenario.world_example
           (Scenario2.report_of Scenario2.short_run)
           Scenario2.short_run.1.2 Scenario2.short_run.2).
  vm_compute. reflexivity.
Defined.

(** *** index.ts: the exit status *)

Lemma lower_ascii_idem c : Js.lower_ascii (Js.lower_ascii c) = Js.lower_ascii c.
Proof. destruct c as [[] [] [] [] [] [] [] []]; reflexivity. Qed.

Lemma toLowerCase_idem s : Js.toLowerCase (Js.toLowerCase s) = Js.toLowerCase s.
Proof. induction s as [|c s IH]; [done|]. simpl. by rewrite lower_ascii_idem, IH. Qed.

(** X20.  [main] reads SERVICE_NAME without regard to case and takes
    "joby" when the variable is unset or empty. *)
Theorem main_service_name (registry : Index.Registry) (s : string) :
  Index.main registry None = Index.main registry (Some "joby") /\
  Index.main registry (Some "") = Index.main registry (Some "joby") /\
  Index.main registry (Some (Js.toLowerCase s)) = Index.main registry (Some s).
Proof.
  split; [reflexivity|]. split; [reflexivity|].
  unfold Index.main. destruct s as [|c s]; [reflexivity|].
  assert (Js.toLowerCase (Js.or_str (Some (Js.toLowerCase (String c s))) "joby")
          = Js.toLowerCase (Js.or_str (Some (String c s)) "joby")) as ->; [|done].
  simpl. by rewrite lower_ascii_idem, toLowerCase_idem.
Qed.

Lemma all_succeeded (results : list Index.ServiceResult) :
  Forall (fun r => Index.sr_success r = true) results <->
  forallb Index.sr_success results = true.
Proof.
  induction results as [|r results IH]; simpl.
  - split; [done | constructor].
  - rewrite Forall_cons, andb_true_iff, IH. done.
Qed.

(** X21.  The exit status of [main].  For "all" it is 0 exactly when every
    registered source returned, each run in the world its predecessor
    left.  For any other name it is 0 exactly when the name is registered
    and that source's method returned; an unknown name ends with 1. *)
Theorem main_exit_code (registry : Index.Registry) (SERVICE_NAME : option string) (w : World) :
  NoDup (Index.keys registry) ->
  exists code w' evs,
    Index.main registry SERVICE_NAME w = (Ok code, w', evs) /\
    (code = 0 \/ code = 1)%Z /\
    (Js.toLowerCase (Js.or_str SERVICE_NAME "joby") = "all" ->
     code = 0%Z <->
     Forall (fun r => Index.sr_success r = true) (Spec.sources_in_isolation registry w).1) /\
    (Js.toLowerCase (Js.or_str SERVICE_NAME "joby") <> "all" ->
     code = 0%Z <->
     exists config r,
       Index.lookup_service registry (Js.toLowerCase (Js.or_str SERVICE_NAME "joby"))
         = Some config /\
       (Index.method config w).1.1 = Ok r).
Proof.
  intros Hnd. unfold Index.main, try_catch.
  destruct (String.eqb_spec (Js.toLowerCase (Js.or_str SERVICE_NAME "joby")) "all")
    as [Hall|Hone].
  - unfold bind at 1, Index.runAllServices, Index.runAllServices_results, bind at 1.
    destruct (runAllServices_loop_spec registry registry [] w) as [evs ->].
    { intros key config Hin. by apply lookup_service_NoDup. }
    unfold bind, emit, ret. simpl.
    pose proof (all_succeeded (Spec.sources_in_isolation registry w).1) as Hflags.
    destruct (forallb Index.sr_success (Spec.sources_in_isolation registry w).1).
    + eexists _, _, _. split; [reflexivity|]. split; [by left|].
      split; [|done]. intros _. split; [intros _; by apply Hflags | done].
    + eexists _, _, _. split; [reflexivity|]. split; [by right|].
      split; [|done]. intros _. split; [done|]. intros H. by apply Hflags in H.
  - unfold bind at 1.
    destruct (Index.lookup_service registry (Js.toLowerCase (Js.or_str SERVICE_NAME "joby")))
      as [config|] eqn:Hk.
    + rewrite (runService_known registry _ config w Hk).
      destruct (Index.method config w) as [[[r|e] w1] t1] eqn:Hm; unfold bind, emit, ret; simpl.
      * eexists _, _, _. split; [reflexivity|]. split; [by left|].
        split; [done|]. intros _. split; [|done]. intros _.
        exists config, r. by rewrite Hm.
      * eexists _, _, _. split; [reflexivity|]. split; [by right|].
        split; [done|]. intros _. split; [done|].
        intros (c & r & [= <-] & Hr). by rewrite Hm in Hr.
    + unfold Index.runService. rewrite Hk. unfold throw, bind, emit, ret. simpl.
      eexists _, _, _. split; [reflexivity|]. split; [by right|].
      split; [done|]. intros _. split; [done|]. intros (c & r & H & _). done.
Qed.

Lemma main_exit_code_witness :
  exists code w' evs,
    Index.main (Index.SERVICE_REGISTRY Scenario.env_no_browser Scenario.archer_idle)
      (Some "ALL") Scenario.world_idle = (Ok code, w', evs) /\
    (code = 0 \/ code = 1)%Z /\
    (Js.toLowerCase (Js.or_str (Some "ALL") "joby") = "all" ->
     code = 0%Z <->
     Forall (fun r => Index.sr_success r = true)
       (Spec.sources_in_isolation
          (Index.SERVICE_REGISTRY Scenario.env_no_browser Scenario.archer_idle)
          Scenario.world_idle).1) /\
    (Js.toLowerCase (Js.or_str (Some "ALL") "joby") <> "all" ->
     code = 0%Z <->
     exists config r,
       Index.lookup_service
         (Index.SERVICE_REGISTRY Scenario.env_no_browser Scenario.archer_idle)
         (Js.toLowerCase (Js.or_str (Some "ALL") "joby")) = Some config /\
       (Index.method config Scenario.world_idle).1.1 = Ok r).
Proof.
  apply (main_exit_code (Index.SERVICE_REGISTRY Scenario.env_no_browser Scenario.archer_idle)
           (Some "ALL") Scenario.world_idle).
  apply (bool_decide_unpack _). by vm_compute.
Defined.

(** *** Joby's store and browser helpers *)

Lemma recordExists_answers env (u : string) (w : World) :
  exists b evs,
    Joby.recordExists env u w = (Ok b, w, evs) /\
    Trace.checked_urls evs = [u] /\ Pace.work evs = [] /\
    (b = true <->
     query_rejects env "news" u = None /\ query_errors env "news" u = false /\
     exists rows, tables w !! "news" = Some rows /\ u ∈ r_url <$> rows).
Proof.
  destruct (query_rejects env "news" u) as [e|] eqn:Hr.
  { unfold Joby.recordExists, Store.count_by_url, try_catch, bind, get, emit, settle, ret, throw.
    rewrite Hr. simpl. eexists _, _. split_and!; [done.. |].
    split; [done|]. intros (? & _). done. }
  destruct (query_errors env "news" u) eqn:He.
  { unfold Joby.recordExists, Store.count_by_url, try_catch, bind, get, emit, settle, ret, throw.
    rewrite Hr, He. simpl. eexists _, _. split_and!; [done.. |].
    split; [done|]. intros (_ & ? & _). done. }
  destruct (tables w !! "news") as [rows|] eqn:Ht.
  - rewrite (recordExists_reads_table env u w rows Hr He Ht).
    eexists _, _. split_and!; [done.. |].
    rewrite bool_decide_eq_true. split.
    + intros Hin. split_and!; [done.. |]. by exists rows.
    + intros (_ & _ & rows' & [= <-] & Hin). done.
  - unfold Joby.recordExists, Store.count_by_url, try_catch, bind, get, emit, settle, ret, throw.
    rewrite Hr, He. simpl. rewrite Ht. simpl. eexists _, _. split_and!; [done.. |].
    split; [done|]. intros (_ & _ & rows & ? & _). done.
Qed.

(** X22.  [recordExists] never throws and changes nothing; it asks the
    store once.  It answers true exactly when the query was answered and
    the [news] table holds a row with that url: a rejected query, an error
    answer and a missing table all read as "not there". *)
Theorem recordExists_fails_open env (u : string) (w : World) :
  exists b evs,
    Joby.recordExists env u w = (Ok b, w, evs) /\
    Trace.checked_urls evs = [u] /\ Pace.work evs = [] /\
    (b = true <->
     query_rejects env "news" u = None /\ query_errors env "news" u = false /\
     exists rows, tables w !! "news" = Some rows /\ u ∈ r_url <$> rows).
Proof. apply recordExists_answers. Qed.

(** X23.  [storeNews] either throws, leaving the world as it was, or
    returns after appending exactly the given row to the [news] table;
    from then on [recordExists], whenever its query is answered, says the
    url is there. *)
Theorem storeNews_round_trip env env' (newsData : NewsData) (v : Embedding) (w : World) :
  (exists e evs, Joby.storeNews env newsData v w = (Throw e, w, evs)) \/
  (exists id w' evs rows,
     Joby.storeNews env newsData v w = (Ok id, w', evs) /\
     tables w !! "news" = Some rows /\
     tables w' = <["news" := rows ++ [{| r_data := newsData; r_embedding := v |}]]> (tables w) /\
     (query_rejects env' "news" (url newsData) = None ->
      query_errors env' "news" (url newsData) = false ->
      Joby.recordExists env' (url newsData) w' =
        (Ok true, w', [EvExists "news" (url newsData)]))).
Proof.
  destruct (storeNews_outcome env newsData v w)
    as [(rows & Hrows & _ & Hrun)|(e & evs & Hrun & _)].
  - right. eexists _, _, _, rows. split; [exact Hrun|]. split; [done|]. split; [done|].
    intros Hq He.
    erewrite recordExists_reads_table; [| done | done | simpl; apply lookup_insert_eq].
    rewrite bool_decide_true; [done|].
    rewrite fmap_app. apply elem_of_app. right. by apply list_elem_of_singleton.
  - left. eauto.
Qed.

(** X24.  [cleanupNewsBrowser] never throws and leaves the tables and the
    tracker alone.  When both close calls succeed, page and browser are
    released.  When closing the page fails, the browser is not closed and
    both stay held; when only closing the browser fails, the page is
    released and the browser stays held. *)
Theorem cleanupNewsBrowser_outcome env (w : World) :
  exists w' evs,
    Joby.cleanupNewsBrowser env w = (Ok tt, w', evs) /\
    tables w' = tables w /\ tracker w' = tracker w /\
    (closePage_answer env = None -> closeBrowser_answer env = None ->
     newsPage w' = false /\ newsBrowser w' = false) /\
    (newsPage w = true -> closePage_answer env <> None ->
     newsPage w' = true /\ newsBrowser w' = newsBrowser w /\
     Trace.closes_browser evs = false) /\
    (newsBrowser w = true -> closePage_answer env = None -> closeBrowser_answer env <> None ->
     newsPage w' = false /\ newsBrowser w' = true).
Proof.
  unfold Joby.cleanupNewsBrowser, try_catch, bind, get, emit, settle, modify, throw, ret.
  destruct w as [d [] [] t n], (closePage_answer env), (closeBrowser_answer env);
    simpl; eexists _, _; (split; [reflexivity|]); simpl; split_and!; try done.
Qed.

(** X25.  When [processJobySpecificData] returns a report and the close
    calls succeed, the browser and its page have been released. *)
Theorem report_means_browser_released env (w : World) report w' evs :
  closePage_answer env = None -> closeBrowser_answer env = None ->
  Joby.processJobySpecificData env w = (Ok report, w', evs) ->
  newsBrowser w' = false /\ newsPage w' = false.
Proof. apply joby_releases_on_return. Qed.

Lemma report_means_browser_released_witness :
  newsBrowser Scenario2.short_run.1.2 = false /\ newsPage Scenario2.short_run.1.2 = false.
Proof.
  apply (report_means_browser_released Scenario.env_example Scenario.world_example
           (Scenario2.report_of Scenario2.short_run)
           Scenario2.short_run.1.2 Scenario2.short_run.2).
  - reflexivity.
  - reflexivity.
  - vm_compute. reflexivity.
Defined.

(** *** services/betaTechnologiesService.ts *)

(** One iteration of Beta's retry loop: one wait, one call; it never
    throws. *)
Lemma beta_body_shape env text maxRetries attempt w :
  exists r kind ms tail,
    Beta.generateEmbedding_body env text maxRetries attempt w =
      (Ok r, bump_embedCalls w, EvDelay kind ms :: EvEmbed text :: tail) /\
    (2000 <=? ms)%Z = true /\
    Pace.work tail = [] /\
    (forall waited, Pace.paced_from 2000 waited tail = true) /\
    match embed_answer env (embedCalls w) text with
    | Ok response => r = Joby.Return (default [] response)
    | Throw e =>
        ((attempt + 1 < maxRetries)%Z -> r = Joby.Continue (attempt + 1)%Z) /\
        ((maxRetries <= attempt + 1)%Z -> r = Joby.Return [])
    end.
Proof.
  unfold Beta.generateEmbedding_body, Joby.voyage_embed, try_catch, bind,
    delay, emit, get, modify, of_res, ret, throw.
  destruct (Z.ltb_spec 0 attempt) as [Hpos|Hzero]; simpl;
    (destruct (embed_answer env (embedCalls w) text) as [response|e]; simpl;
     [|destruct (Joby.is_rate_limit e); simpl;
       destruct (Z.ltb_spec (attempt + 1) maxRetries); simpl;
       try destruct (Z.leb_spec maxRetries (attempt + 1)); simpl]);
    eexists _, _, _, _; (split; [reflexivity|]);
    (split; [first [done | apply Z.leb_le; pose proof (backoffDelay_floor attempt); lia]|]);
    (split_and!; try done; try lia; intros; lia).
Qed.

Lemma paced_from_app floor evs1 evs2 : forall waited,
  Pace.paced_from floor waited evs1 = true ->
  (forall waited', Pace.paced_from floor waited' evs2 = true) ->
  Pace.paced_from floor waited (evs1 ++ evs2) = true.
Proof.
  induction evs1 as [|e evs1 IH]; intros waited H1 H2; [apply H2|].
  destruct e; simpl in *; try (by apply IH).
  apply andb_true_iff in H1 as [-> H1]. simpl. by apply IH.
Qed.

Lemma beta_loop_footprint env text maxRetries fuel : forall attempt w,
  (Z.to_nat (maxRetries - attempt) <= fuel)%nat ->
  exists v k evs,
    Beta.generateEmbedding_loop env fuel text maxRetries attempt w
      = (Ok v, Nat.iter k bump_embedCalls w, evs) /\
    (k <= Z.to_nat (maxRetries - attempt))%nat /\
    Pace.work evs = replicate k (EvEmbed text) /\
    (forall waited, Pace.paced_from 2000 waited evs = true) /\
    ((forall n, exists e, embed_answer env n text = Throw e) ->
     v = [] /\ k = Z.to_nat (maxRetries - attempt)) /\
    ((attempt < maxRetries)%Z ->
     forall response, embed_answer env (embedCalls w) text = Ok response ->
     v = default [] response /\ k = 1%nat).
Proof.
  induction fuel as [|fuel IH]; intros attempt w Hfuel; simpl;
    destruct (Z.ltb_spec attempt maxRetries) as [Hlt|Hge]; try lia;
    try (unfold ret; eexists _, 0%nat, []; simpl;
         split_and!; [done | lia | done | done | intros _; split; [done | lia] | lia]).
  unfold bind at 1.
  destruct (beta_body_shape env text maxRetries attempt w)
    as (r & kind & ms & tail & -> & Hms & Hwt & Hpt & Hr).
  destruct (embed_answer env (embedCalls w) text) as [response|e] eqn:Hans.
  { subst r. unfold ret. eexists _, 1%nat, _. split_and!.
    - reflexivity.
    - lia.
    - rewrite app_nil_r. simpl. by rewrite Hwt.
    - intros waited. rewrite app_nil_r. cbn [Pace.paced_from]. rewrite Hms. simpl. apply Hpt.
    - intros Hall. destruct (Hall (embedCalls w)) as [e He]. congruence.
    - intros _ response' [= <-]. done. }
  destruct Hr as [Hcont Hstop].
  destruct (Z.lt_ge_cases (attempt + 1) maxRetries) as [Hmore|Hlast].
  - rewrite (Hcont Hmore).
    destruct (IH (attempt + 1)%Z (bump_embedCalls w)) as (v & k & evs & -> & Hk & Hw & Hp & Hfail & _);
      [lia|].
    eexists v, (S k), _. split_and!.
    + rewrite Nat.iter_succ_r. reflexivity.
    + lia.
    + simpl. rewrite work_app, Hwt, Hw. done.
    + intros waited. cbn [Pace.paced_from app]. rewrite Hms. simpl.
      apply paced_from_app; [apply Hpt | exact Hp].
    + intros Hall. destruct (Hfail Hall) as [-> ->]. split; [done | lia].
    + intros _ response. congruence.
  - rewrite (Hstop Hlast). unfold ret. eexists _, 1%nat, _. split_and!.
    + reflexivity.
    + lia.
    + rewrite app_nil_r. simpl. by rewrite Hwt.
    + intros waited. rewrite app_nil_r. cbn [Pace.paced_from]. rewrite Hms. simpl. apply Hpt.
    + intros _. split; [done | lia].
    + intros _ response. congruence.
Qed.

(** X26.  Beta's [generateEmbedding] never throws.  It calls the provider
    at most [maxRetries] times, each call right after a wait of at least
    two seconds, and does nothing else outside.  When every call fails,
    whatever the error, it goes through all [maxRetries] calls and returns
    the empty vector. *)
Theorem beta_generateEmbedding_never_throws env (text : string) (retries : option Z)
    (w : World) :
  exists v k evs,
    Beta.generateEmbedding env text retries w = (Ok v, Nat.iter k bump_embedCalls w, evs) /\
    (k <= Z.to_nat (default 3%Z retries))%nat /\
    Pace.work evs = replicate k (EvEmbed text) /\
    Pace.paced 2000 evs = true /\
    ((forall n, exists e, embed_answer env n text = Throw e) ->
     v = [] /\ k = Z.to_nat (default 3%Z retries)).
Proof.
  unfold Beta.generateEmbedding. simpl.
  destruct (beta_loop_footprint env text (default 3%Z retries)
              (Z.to_nat (default 3%Z retries)) 0%Z w)
    as (v & k & evs & Hrun & Hk & Hw & Hp & Hfail & _); [lia|].
  rewrite Z.sub_0_r in Hk, Hfail.
  exists v, k, evs. split_and!; [done | done | done | apply Hp | done].
Qed.

Lemma beta_generateEmbedding_footprint env (text : string) (w : World) :
  exists v k evs,
    Beta.generateEmbedding env text None w = (Ok v, Nat.iter k bump_embedCalls w, evs) /\
    ((forall n, exists e, embed_answer env n text = Throw e) -> v = []).
Proof.
  unfold Beta.generateEmbedding. simpl.
  destruct (beta_loop_footprint env text 3 3 0%Z w)
    as (v & k & evs & Hrun & _ & _ & _ & Hfail & _); [lia|].
  exists v, k, evs. split; [done|]. intros H. by destruct (Hfail H).
Qed.

Lemma beta_recordExists_quiet env u table w :
  exists b evs, Beta.recordExists env u table w = (Ok b, w, evs).
Proof.
  unfold Beta.recordExists, Store.count_by_url, try_catch, bind, get, emit, settle, ret, throw.
  destruct (query_rejects env table u); simpl; eauto.
Qed.

Lemma replaced_rows_with row rows :
  Store.rows_with (r_url row)
    ((fun r => if bool_decide (r_url r = r_url row) then row else r) <$> rows) =
  (fun _ => row) <$> Store.rows_with (r_url row) rows.
Proof.
  unfold Store.rows_with. induction rows as [|r rows IH]; [done|].
  rewrite fmap_cons. destruct (decide (r_url r = r_url row)) as [Heq|Hne].
  - rewrite bool_decide_true by done.
    rewrite !filter_cons_True by done. rewrite fmap_cons. by f_equal.
  - rewrite bool_decide_false by done.
    rewrite !filter_cons_False by done. done.
Qed.

Lemma replaced_others row rows :
  BetaDoc.others (r_url row)
    ((fun r => if bool_decide (r_url r = r_url row) then row else r) <$> rows) =
  BetaDoc.others (r_url row) rows.
Proof.
  unfold BetaDoc.others. induction rows as [|r rows IH]; [done|].
  rewrite fmap_cons. destruct (decide (r_url r = r_url row)) as [Heq|Hne].
  - rewrite bool_decide_true by done.
    rewrite !filter_cons_False by tauto. done.
  - rewrite bool_decide_false by done.
    rewrite !filter_cons_True by done. by f_equal.
Qed.

(** What an [upsert] that the store accepts does to the table. *)
Lemma upsert_outcome env table row w :
  (exists r evs, Store.upsert env table row w = (r, w, evs) /\
     forall id, r <> Ok (inl id)) \/
  (exists id rows rows' evs,
     Store.upsert env table row w =
       (Ok (inl id), set_tables (<[table := rows']> (tables w)) w, evs) /\
     tables w !! table = Some rows /\
     Store.rows_with (r_url row) rows' <> [] /\
     Forall (fun r => r = row) (Store.rows_with (r_url row) rows') /\
     BetaDoc.others (r_url row) rows' = BetaDoc.others (r_url row) rows).
Proof.
  unfold Store.upsert, bind, get, emit, settle, modify, ret, throw.
  destruct (write_rejects env table (r_url row)); simpl; [left; eauto 10|].
  destruct (tables w !! table) as [rows|] eqn:Ht; simpl; [|left; eauto 10].
  destruct (url_unique env table); simpl; [|left; eauto 10].
  case_bool_decide as Hrows; simpl; right; eexists _, rows, _, _;
    (split; [reflexivity|]); (split; [done|]).
  - rewrite replaced_rows_with, replaced_others. split_and!; [| | done].
    + by destruct (Store.rows_with (r_url row) rows).
    + apply Forall_fmap, Forall_forall. done.
  - unfold Store.rows_with, BetaDoc.others in *. rewrite !filter_app, Hrows.
    rewrite filter_cons_True by done. rewrite filter_cons_False by tauto.
    rewrite !filter_nil, app_nil_r. simpl.
    split_and!; [done | by constructor | done].
Qed.

(** X27.  Beta's [storeInDatabase] never throws.  Unless it answers
    "processed" the tables are as before.  When it answers "processed",
    the table chosen from the category (and no other) has changed: every
    row of the page's url in it is now the page's document, there is at
    least one, and the rows of other urls are as before.  The document is
    stored also when every call for its embedding failed, with the empty
    vector. *)
Theorem beta_storeInDatabase_outcome env (c : Beta.CrawledContent) (category : string)
    (w : World) :
  exists r w' evs,
    Beta.storeInDatabase env c category w = (Ok r, w', evs) /\
    (Joby.processed r = false -> tables w' = tables w) /\
    (Joby.processed r = true ->
     exists rows rows' v,
       tables w !! Beta.table_of category = Some rows /\
       tables w' = <[Beta.table_of category := rows']> (tables w) /\
       Store.rows_with (Beta.b_url c) rows' <> [] /\
       Forall (fun r => r = BetaDoc.document c v) (Store.rows_with (Beta.b_url c) rows') /\
       BetaDoc.others (Beta.b_url c) rows' = BetaDoc.others (Beta.b_url c) rows /\
       ((forall n, exists e, embed_answer env n (Beta.b_content c) = Throw e) -> v = [])).
Proof.
  unfold Beta.storeInDatabase, try_catch. unfold bind at 1.
  destruct (beta_recordExists_quiet env (Beta.b_url c) (Beta.table_of category) w)
    as (b & t1 & ->).
  destruct b.
  { unfold ret. eexists _, _, _. split; [reflexivity|]. split; done. }
  unfold bind at 1.
  destruct (beta_generateEmbedding_footprint env (Beta.b_content c) w)
    as (v & k & t2 & -> & Hfail).
  destruct (iter_bump_fields k w) as (Htab & _).
  unfold bind at 1.
  match goal with |- context [Store.upsert env ?t ?row ?w2] =>
    destruct (upsert_outcome env t row w2)
      as [(r & t3 & -> & Hr)|(id & rows & rows' & t3 & -> & Hrows & Hne & Hall & Hoth)]
  end.
  - destruct r as [[id|e]|e].
    + by destruct (Hr id).
    + unfold bind, emit, ret. eexists _, _, _. split; [reflexivity|]. split; [done | done].
    + unfold bind, emit, ret. eexists _, _, _. split; [reflexivity|]. split; [done | done].
  - unfold ret. eexists _, _, _. split; [reflexivity|]. split; [done|].
    intros _. exists rows, rows', v. simpl.
    rewrite Htab in *. split_and!; done.
Qed.

Lemma beta_urls_loop_accounts env crawlUrl categorizeContent : forall urls n w,
  exists n' w' evs (visited : nat),
    Beta.urls_loop env crawlUrl categorizeContent urls n w = (Ok n', w', evs) /\
    (Beta.processed n <= Beta.processed n')%Z /\
    (Beta.skipped n <= Beta.skipped n')%Z /\
    (Beta.failed n <= Beta.failed n')%Z /\
    (Beta.processed n' + Beta.skipped n' + Beta.failed n' =
     Beta.processed n + Beta.skipped n + Beta.failed n + Z.of_nat visited)%Z /\
    (visited <= length urls)%nat /\
    ((visited < length urls)%nat ->
     (maxConsecutiveDuplicates (tracker w') <= consecutiveDuplicates (tracker w'))%Z).
Proof.
  induction urls as [|u urls IH]; intros n w.
  - simpl. unfold ret. exists n, w, [], 0%nat. simpl. split_and!; try done; lia.
  - cbn [Beta.urls_loop]. unfold bind at 1, try_catch, bind at 1.
    destruct (processCheck_effects env u w) as (answer & w1 & t1 & -> & _).
    destruct (DuplicateTracker.isDuplicate answer).
    + unfold bind at 1, DuplicateTracker.shouldStopNow, bind at 1, get at 1, ret at 1.
      destruct (Z.leb_spec (maxConsecutiveDuplicates (tracker w1))
                  (consecutiveDuplicates (tracker w1))) as [Hstop|Hgo].
      * unfold ret. eexists _, _, _, 1%nat. split; [reflexivity|]. simpl.
        split_and!; lia.
      * unfold ret at 1.
        match goal with |- context [Beta.urls_loop env crawlUrl categorizeContent urls ?n1 w1] =>
          destruct (IH n1 w1) as (n' & w' & evs & visited & -> & Hp & Hs & Hf & Hsum & Hv & Hbreak)
        end.
        simpl in Hp, Hs, Hf, Hsum.
        eexists _, _, _, (S visited). split; [reflexivity|]. simpl.
        split_and!; first [lia | intros H; apply Hbreak; lia].
    + unfold bind at 1.
      destruct (Beta.processAndStoreUrl env crawlUrl categorizeContent u w1)
        as [[[r|e] w2] t2].
      * unfold bind at 1, delay, emit, ret at 1.
        match goal with |- context [Beta.urls_loop env crawlUrl categorizeContent urls ?n1 w2] =>
          destruct (IH n1 w2) as (n' & w' & evs & visited & -> & Hp & Hs & Hf & Hsum & Hv & Hbreak)
        end.
        eexists _, _, _, (S visited). split; [reflexivity|].
        destruct (Joby.processed r), (Joby.isDuplicate r); simpl in *;
          (split_and!; first [lia | intros H; apply Hbreak; lia]).
      * unfold bind at 1, emit, ret at 1.
        match goal with |- context [Beta.urls_loop env crawlUrl categorizeContent urls ?n1 w2] =>
          destruct (IH n1 w2) as (n' & w' & evs & visited & -> & Hp & Hs & Hf & Hsum & Hv & Hbreak)
        end.
        simpl in Hp, Hs, Hf, Hsum.
        eexists _, _, _, (S visited). split; [reflexivity|]. simpl.
        split_and!; first [lia | intros H; apply Hbreak; lia].
Qed.

(** X28.  The url loop of [processBetaSpecificData] never throws, whatever
    the crawler does.  Every url it visits adds one to exactly one of the
    three counters; it visits all the urls unless it stops early, and it
    stops early only with the tracker at its threshold. *)
Theorem beta_urls_loop_counts env (crawlUrl : string -> M (option Beta.CrawledContent))
    (categorizeContent : string -> string) (urls : list string) (n : Beta.Counts) (w : World) :
  exists n' w' evs (visited : nat),
    Beta.urls_loop env crawlUrl categorizeContent urls n w = (Ok n', w', evs) /\
    (Beta.processed n <= Beta.processed n')%Z /\
    (Beta.skipped n <= Beta.skipped n')%Z /\
    (Beta.failed n <= Beta.failed n')%Z /\
    (Beta.processed n' + Beta.skipped n' + Beta.failed n' =
     Beta.processed n + Beta.skipped n + Beta.failed n + Z.of_nat visited)%Z /\
    (visited <= length urls)%nat /\
    ((visited < length urls)%nat ->
     (maxConsecutiveDuplicates (tracker w') <= consecutiveDuplicates (tracker w'))%Z).
Proof. apply beta_urls_loop_accounts. Qed.

Lemma initializeNewsBrowser_outcome env w :
  (launch_answer env = None /\ newPage_answer env = None /\
   exists w1 evs, Joby.initializeNewsBrowser env w = (Ok tt, w1, evs)) \/
  (exists e w1 evs,
     Joby.initializeNewsBrowser env w = (Throw e, w1, evs) /\
     (launch_answer env = Some e \/ newPage_answer env = Some e)).
Proof.
  unfold Joby.initializeNewsBrowser, try_catch, bind, emit, settle, modify, throw, ret.
  destruct (launch_answer env) as [e|]; simpl; [right; eauto 10|].
  destruct (newPage_answer env) as [e|]; simpl; [right; eauto 10|].
  left. eauto 10.
Qed.

(** X29.  [processBetaSpecificData] closes the browser on every exit: when
    the close calls succeed, page and browser are released whether it
    returns or throws.  It throws only the error of a failed launch or
    page creation, and otherwise returns counters that are not negative
    and add up to at most the seven urls. *)
Theorem processBetaSpecificData_outcome env
    (crawlUrl : string -> M (option Beta.CrawledContent))
    (categorizeContent : string -> string) (w : World) :
  exists r w' evs,
    Beta.processBetaSpecificData env crawlUrl categorizeContent w = (r, w', evs) /\
    (closePage_answer env = None -> closeBrowser_answer env = None ->
     newsBrowser w' = false /\ newsPage w' = false) /\
    match r with
    | Ok n =>
        launch_answer env = None /\ newPage_answer env = None /\
        (0 <= Beta.processed n)%Z /\ (0 <= Beta.skipped n)%Z /\ (0 <= Beta.failed n)%Z /\
        (Beta.processed n + Beta.skipped n + Beta.failed n <= 7)%Z
    | Throw e => launch_answer env = Some e \/ newPage_answer env = Some e
    end.
Proof.
  unfold Beta.processBetaSpecificData, try_finally.
  assert (exists r w1 t1,
            try_catch
              (do* Joby.initializeNewsBrowser env in
               Beta.urls_loop env crawlUrl categorizeContent Beta.URLs
                 {| Beta.processed := 0; Beta.skipped := 0; Beta.failed := 0 |})
              (fun error => do* emit (EvError "Beta Technologies Service Failed") in throw error)
              w = (r, w1, t1) /\
            match r with
            | Ok n =>
                launch_answer env = None /\ newPage_answer env = None /\
                (0 <= Beta.processed n)%Z /\ (0 <= Beta.skipped n)%Z /\
                (0 <= Beta.failed n)%Z /\
                (Beta.processed n + Beta.skipped n + Beta.failed n <= 7)%Z
            | Throw e => launch_answer env = Some e \/ newPage_answer env = Some e
            end) as (r & w1 & t1 & -> & Hr).
  { unfold try_catch, bind at 1.
    destruct (initializeNewsBrowser_outcome env w)
      as [(Hl & Hn & w0 & t0 & ->)|(e & w0 & t0 & -> & He)].
    - match goal with |- context [Beta.urls_loop env crawlUrl categorizeContent Beta.URLs ?n0 w0] =>
        destruct (beta_urls_loop_accounts env crawlUrl categorizeContent Beta.URLs n0 w0)
          as (n' & w' & evs & visited & -> & Hp & Hs & Hf & Hsum & Hv & _)
      end.
      eexists _, _, _. split; [reflexivity|].
      change (length Beta.URLs) with 7%nat in Hv. simpl in Hp, Hs, Hf, Hsum.
      split_and!; try done; lia.
    - unfold bind, emit, throw. eexists _, _, _. split; [reflexivity|]. done. }
  destruct (Joby.cleanupNewsBrowser env w1) as [[[[]|e] w2] t2] eqn:Hclean.
  - eexists _, _, _. split; [reflexivity|]. split; [|done].
    intros Hp Hb. destruct (cleanup_releases env w1 Hp Hb) as (w3 & t3 & H3 & ? & ? & _).
    rewrite Hclean in H3. by injection H3 as <- <-.
  - destruct (cleanupNewsBrowser_quiet env w1) as (w3 & t3 & H3 & _). congruence.
Qed.

(** *** services/techcrunchService.ts *)

Lemma storeNews_accepts env newsData v w rows :
  write_rejects env "news" (url newsData) = None ->
  tables w !! "news" = Some rows ->
  url newsData ∉ r_url <$> rows ->
  Joby.storeNews env newsData v w =
    (Ok (length rows),
     set_tables (<["news" := rows ++ [{| r_data := newsData; r_embedding := v |}]]>
                   (tables w)) w,
     [EvInsert "news" (url newsData)]).
Proof.
  intros Hw Ht Hfresh.
  destruct (storeNews_outcome env newsData v w)
    as [(rows' & Ht' & _ & ->)|(e & evs & Hthrow & _)].
  - rewrite Ht in Ht'. by injection Ht' as <-.
  - exfalso. revert Hthrow.
    unfold Joby.storeNews, Store.insert, try_catch, bind, get, emit, settle, modify,
      ret, throw, r_url. simpl.
    rewrite Hw, Ht. simpl.
    apply rows_with_nil in Hfresh. rewrite bool_decide_false by (by rewrite Hfresh; auto).
    rewrite andb_false_r. simpl. done.
Qed.

(** X30.  TechCrunch's [processAndStoreArticle] stores an article whatever
    the embedding provider does.  For a url the [news] table does not
    hold, a page fetched with raw HTML that [trim()] does not empty and a
    store that accepts the write, it returns true and appends exactly the
    article's row; when every call to the provider fails the row carries
    the empty vector. *)
Theorem techcrunch_stores_whatever_the_provider_does env
    (fetchArticleContent : string -> M (option TechCrunch.ArticleContent))
    (article : Article) (companyName : string) (w : World)
    (fullContent : TechCrunch.ArticleContent) (w1 : World) (t1 : list Event)
    (rows : list Row) :
  tables w !! "news" = Some rows ->
  a_url article ∉ r_url <$> rows ->
  write_rejects env "news" (a_url article) = None ->
  fetchArticleContent (a_url article) w = (Ok (Some fullContent), w1, t1) ->
  tables w1 = tables w ->
  Js.trim_is_empty (TechCrunch.tc_rawHtml fullContent) = false ->
  exists v w' evs,
    TechCrunch.processAndStoreArticle env fetchArticleContent article companyName w
      = (Ok true, w', evs) /\
    tables w' =
      <["news" := rows ++
          [{| r_data :=
                {| url := a_url article;
                   title := TechCrunch.tc_title fullContent;
                   content := TechCrunch.tc_rawHtml fullContent;
                   source := "techcrunch"; news_type := "news";
                   article_category := "industry_news";
                   sentiment :=
                     TechCrunch.analyzeSentiment (toLowerCase env)
                       (TechCrunch.tc_cleanText fullContent) |};
              r_embedding := v |}]]> (tables w) /\
    ((forall n text, exists e, embed_answer env n text = Throw e) -> v = []).
Proof.
  intros Hrows Hfresh Hwrite Hfetch Htab Hblank.
  unfold TechCrunch.processAndStoreArticle, try_catch at 1, bind at 1.
  destruct (recordExists_answers env (a_url article) w) as (b & t0 & -> & _ & _ & Hb).
  destruct b.
  { destruct (proj1 Hb eq_refl) as (_ & _ & rows' & Hrows' & Hin).
    rewrite Hrows in Hrows'. by injection Hrows' as <-. }
  unfold bind at 1. rewrite Hfetch.
  assert (String.eqb (TechCrunch.tc_rawHtml fullContent) "" = false) as ->.
  { destruct (String.eqb_spec (TechCrunch.tc_rawHtml fullContent) "") as [Heq|]; [|done].
    rewrite Heq in Hblank. done. }
  rewrite Hblank. cbn [orb].
  unfold bind at 1, try_catch at 1, Joby.generateEmbedding. simpl default.
  destruct (loop_footprint env (TechCrunch.tc_cleanText fullContent) 3 (Z.to_nat 3) 0%Z w1)
    as (r & k & t3 & Hloop & _).
  rewrite Hloop.
  destruct (iter_bump_fields k w1) as (Htab3 & _).
  destruct r as [v|e].
  - cbv beta iota. unfold bind at 1.
    erewrite storeNews_accepts; [| exact Hwrite | by rewrite Htab3, Htab | done].
    unfold ret. simpl. eexists v, _, _. split; [reflexivity|]. simpl.
    split; [by rewrite Htab3, Htab|].
    intros Hall.
    destruct (loop_embedding_down env Hall (TechCrunch.tc_cleanText fullContent) 3
                (Z.to_nat 3) 0%Z w1) as (e & w' & evs & Hdown & _).
    congruence.
  - cbv beta iota. unfold bind at 1, emit, ret at 1. cbv beta iota. unfold bind at 1.
    erewrite storeNews_accepts; [| exact Hwrite | by rewrite Htab3, Htab | done].
    unfold ret. simpl. eexists [], _, _. split; [reflexivity|]. simpl.
    split; [by rewrite Htab3, Htab | done].
Qed.

Lemma techcrunch_stores_whatever_the_provider_does_witness :
  exists v w' evs,
    TechCrunch.processAndStoreArticle Scenario.env_embed_down Scenario.tc_fetch
      (Scenario.candidate "b") "Joby Aviation" Scenario.world_ready = (Ok true, w', evs) /\
    tables w' =
      <["news" := [] ++
          [{| r_data :=
                {| url := a_url (Scenario.candidate "b");
                   title := "Joby raises funding";
                   content := "<p>Joby raises funding.</p>";
                   source := "techcrunch"; news_type := "news";
                   article_category := "industry_news";
                   sentiment :=
                     TechCrunch.analyzeSentiment Js.toLowerCase "Joby raises funding." |};
              r_embedding := v |}]]> (tables Scenario.world_ready) /\
    ((forall n text, exists e, embed_answer Scenario.env_embed_down n text = Throw e) ->
     v = []).
Proof.
  apply (techcrunch_stores_whatever_the_provider_does Scenario.env_embed_down
           Scenario.tc_fetch (Scenario.candidate "b") "Joby Aviation" Scenario.world_ready
           {| TechCrunch.tc_title := "Joby raises funding";
              TechCrunch.tc_rawHtml := "<p>Joby raises funding.</p>";
              TechCrunch.tc_cleanText := "Joby raises funding." |}
           Scenario.world_ready [] []).
  - reflexivity.
  - apply not_elem_of_nil.
  - reflexivity.
  - reflexivity.
  - reflexivity.
  - reflexivity.
Defined.

(** ** The report of a run that stops early *)

(** C5 on the code.  On the candidates a, b, c, ..., h, of which c to g
    are known to the store the tracker reads, with threshold 5, the
    tracker says [shouldStop] at g and at no earlier candidate, h is never
    checked, and the run returns a report with [stoppedEarly = true] and
    [consecutiveDuplicates = 5].  The article loop's counters stand at two
    processed and four skipped when it breaks (g, which stops the loop, is
    not counted), and the rows of a and b are stored and listed in
    [documents].  But the report says [processed = 0] and [skipped = 0]:
    the category loop breaks before the category's result is pushed and
    its counters are added to the totals.  So it is for every run that
    stops early: fewer than two categories are reported and the totals are
    the sums over those, without the category the run stopped in.
    Archer's adapter, with the same article loop, reports the loop's
    counters: processed 2 and skipped 4 on these candidates. *)
Theorem joby_early_stop_report_drops_counts :
  (forall env w report w' evs,
     Joby.processJobySpecificData env w = (Ok report, w', evs) ->
     Joby.s_stoppedEarly report = true ->
     (length (Joby.s_categoryResults report) < 2)%nat /\
     Joby.s_processed report =
       Ledger.total Joby.cr_processed (Joby.s_categoryResults report) /\
     Joby.s_skipped report =
       Ledger.total Joby.cr_skipped (Joby.s_categoryResults report) /\
     (Joby.s_processed report <= Joby.s_totalDocuments report)%Z) /\
  (DuplicateTracker.shouldStop <$>
     (DuplicateTracker.feed (DuplicateTracker.new (Some 5%Z) (Some "news_duplicate"))
        [false; false; true; true; true; true; true]).2)
    = [false; false; false; false; false; false; true] /\
  (exists st w' evs,
     Joby.articles_loop Scenario.env_example "press-releases" Scenario.candidates
       Scenario.fresh_category Scenario.world_example_tracking = (Ok st, w', evs) /\
     Joby.processedCount st = 2%Z /\ Joby.skippedCount st = 4%Z /\
     Joby.failedCount st = 0%Z /\ Joby.stoppedEarly st = true) /\
  (exists report w' evs,
     Joby.processJobySpecificData Scenario.env_example Scenario.world_example
       = (Ok report, w', evs) /\
     Trace.checked_urls evs =
       (fun slug => Scenario.site +:+ slug) <$> ["a"; "b"; "c"; "d"; "e"; "f"; "g"] /\
     Joby.s_stoppedEarly report = true /\
     Joby.s_consecutiveDuplicates report = 5%Z /\
     Joby.s_processed report = 0%Z /\
     Joby.s_skipped report = 0%Z /\
     Joby.s_categoryResults report = [] /\
     Joby.s_totalDocuments report = 2%Z /\
     Joby.d_url <$> Joby.s_documents report =
       (fun slug => Scenario.site +:+ slug) <$> ["a"; "b"] /\
     r_url <$> (tables w' !!! "news") =
       (fun slug => Scenario.site +:+ slug) <$> ["a"; "b"]) /\
  (exists report w' evs,
     Archer.processArcherSpecificData Scenario.env_example Scenario.archer_fetch
       (Ok Scenario.archer_candidates) Scenario.world_archer_example
       = (Ok report, w', evs) /\
     Trace.checked_urls evs =
       (fun slug => Archer.NEWS_BASE_URL +:+ slug) <$> ["a"; "b"; "c"; "d"; "e"; "f"; "g"] /\
     Archer.s_stoppedEarly report = true /\
     Archer.s_consecutiveDuplicates report = 5%Z /\
     Archer.s_processed report = 2%Z /\
     Archer.s_skipped report = 4%Z /\
     Archer.s_failed report = 0%Z /\
     Archer.s_totalDocuments report = 2%Z /\
     Archer.s_totalArticles report = 8%Z).
Proof.
  split_and!.
  - intros env w report w' evs Hrun Hstop.
    destruct (processJobySpecificData_ledger env w report w' evs Hrun)
      as (rs & -> & Hp & Hs & _ & _ & _ & Hle & _ & _ & _ & Hshort).
    simpl in *. split_and!; [by apply Hshort | done | done | done].
  - reflexivity.
  - eexists _, _, _. split; [vm_compute; reflexivity|]. by vm_compute.
  - eexists _, _, _. split; [vm_compute; reflexivity|]. by vm_compute.
  - eexists _, _, _. split; [vm_compute; reflexivity|]. by vm_compute.
Qed.

Lemma joby_early_stop_report_drops_counts_witness :
  (length (Joby.s_categoryResults (Scenario2.report_of Scenario2.short_run)) < 2)%nat /\
  Joby.s_processed (Scenario2.report_of Scenario2.short_run) =
    Ledger.total Joby.cr_processed
      (Joby.s_categoryResults (Scenario2.report_of Scenario2.short_run)) /\
  Joby.s_skipped (Scenario2.report_of Scenario2.short_run) =
    Ledger.total Joby.cr_skipped
      (Joby.s_categoryResults (Scenario2.report_of Scenario2.short_run)) /\
  (Joby.s_processed (Scenario2.report_of Scenario2.short_run)
     <= Joby.s_totalDocuments (Scenario2.report_of Scenario2.short_run))%Z.
Proof.
  apply (proj1 joby_early_stop_report_drops_counts Scenario.env_example
           Scenario.world_example (Scenario2.report_of Scenario2.short_run)
           Scenario2.short_run.1.2 Scenario2.short_run.2).
  - vm_compute. reflexivity.
  - reflexivity.
Defined.
